(** * dashi-histogram: binning schemes, indexing engine and accumulation

    A shallow embedding of [histogram.h]:

    - [double] is IEEE-754 binary64, as the Standard Library's executable
      specification [spec_float] with [prec = 53] and [emax = 1024];
    - [size_t] is a 64-bit unsigned integer, a [Z] reduced by [wrap] after
      every arithmetic operation;
    - a [std::vector] is a [list]; [vector::at] is stdpp's list lookup and
      throws out of range;
    - a member function that may abort, throw or run into undefined
      behaviour returns an [outcome]. *)

From Stdlib Require Import ZArith Lia Bool String SpecFloat.
From Stdlib Require Import DecimalString DecimalPos DecimalN.
From stdpp Require Import base list.

Local Open Scope Z_scope.

(** ** size_t *)

Definition size_bits : Z := 64.
Definition size_max : Z := 2 ^ size_bits - 1.

(** Reduction of an integer to [size_t]. *)
Definition wrap (z : Z) : Z := z mod 2 ^ size_bits.

(** [std::vector::size]. *)
Definition vsize {A : Type} (v : list A) : Z := Z.of_nat (length v).

(** ** double *)

Definition prec : Z := 53.
Definition emax : Z := 1024.

Definition double : Type := spec_float.

Definition infinity : double := S754_infinity false.
Definition neg_infinity : double := S754_infinity true.
Definition NaN : double := S754_nan.
Definition zero : double := S754_zero false.

(** The double 1.0: mantissa 2^52, exponent -52. *)
Definition one : double := S754_finite false 4503599627370496 (-52).

Definition fadd : double -> double -> double := SFadd prec emax.
Definition fsub : double -> double -> double := SFsub prec emax.
Definition fmul : double -> double -> double := SFmul prec emax.
Definition fdiv : double -> double -> double := SFdiv prec emax.
Definition fsqrt : double -> double := SFsqrt prec emax.

(** [a < b], [a > b], [a >= b] of C++: all false when an operand is NaN. *)
Definition flt (a b : double) : bool := SFltb a b.
Definition fgt (a b : double) : bool := SFltb b a.
Definition fge (a b : double) : bool := SFleb b a.
Definition fle (a b : double) : bool := SFleb a b.

(** [std::isnan]. *)
Definition isnan (v : double) : bool :=
  match v with S754_nan => true | _ => false end.

(** Neither NaN nor an infinity. *)
Definition is_finite (v : double) : bool :=
  match v with
  | S754_zero _ | S754_finite _ _ _ => true
  | _ => false
  end.

(** Conversion of an integer to [double] (round to nearest, ties to even):
    [double(n)] for a [size_t] n, and an integer literal used as a double. *)
Definition of_Z (z : Z) : double := binary_normalize prec emax z 0 false.

(** The integer a finite double with a negative exponent lies above:
    [m * 2^e] rounded towards minus infinity. *)
Definition floor_finite (s : bool) (m : positive) (e : Z) : Z :=
  cond_Zopp s (Z.pos m) / 2 ^ (- e).

(** [std::floor]. *)
Definition ffloor (v : double) : double :=
  match v with
  | S754_finite s m e =>
      if 0 <=? e then v
      else let z := floor_finite s m e in
           if z =? 0 then S754_zero s else of_Z z
  | _ => v
  end.

(** ** Outcomes of a call *)

Inductive outcome (A : Type) : Type :=
  | Ret (a : A)            (* normal return *)
  | Abort                  (* a failed [assert] *)
  | Throw_out_of_range     (* [std::out_of_range] from [vector::at] *)
  | Undefined              (* undefined behaviour *)
  | Ill_formed.            (* rejected by a [static_assert] *)

Arguments Ret {A} a.
Arguments Abort {A}.
Arguments Throw_out_of_range {A}.
Arguments Undefined {A}.
Arguments Ill_formed {A}.

Definition bind {A B : Type} (c : outcome A) (k : A -> outcome B) : outcome B :=
  match c with
  | Ret a => k a
  | Abort => Abort
  | Throw_out_of_range => Throw_out_of_range
  | Undefined => Undefined
  | Ill_formed => Ill_formed
  end.

Notation "'let*' x ':=' c 'in' k" := (bind c (fun x => k))
  (at level 10, x name, c at level 100, k at level 200).

(** [size_t(d)] for a double [d]: truncation towards zero; undefined when
    the truncated value is not a [size_t] (also NaN and the infinities). *)
Definition to_size_t (d : double) : outcome Z :=
  match d with
  | S754_zero _ => Ret 0
  | S754_finite s m e =>
      let t := if 0 <=? e then cond_Zopp s (Z.pos m * 2 ^ e)
               else Z.quot (cond_Zopp s (Z.pos m)) (2 ^ (- e)) in
      if (0 <=? t) && (t <=? size_max) then Ret t else Undefined
  | _ => Undefined
  end.

(** [vector::at]: the bound is checked first, and out of range
    [std::out_of_range] is thrown. *)
Definition at_ {A : Type} (v : list A) (n : Z) : outcome A :=
  if vsize v <=? n then Throw_out_of_range
  else match v !! Z.to_nat n with
       | Some x => Ret x
       | None => Throw_out_of_range
       end.

(** ** binning::general: a non-equispaced binning scheme *)

Module general.

Record t : Type := Build {
  name_ : string;
  edges_ : list double
}.

(** The constructor. [edges.front()] of an empty vector is undefined. *)
Definition make (edges : list double) (name : string) : outcome t :=
  match edges with
  | [] => Undefined
  | front :: _ =>
      let back := List.last edges front in
      let e0 := if fgt front neg_infinity then [neg_infinity] else [] in
      let e1 := e0 ++ edges in
      let e2 := if flt back infinity then e1 ++ [infinity] else e1 in
      Ret {| name_ := name; edges_ := e2 |}
  end.

Definition edges (g : t) : list double := edges_ g.

Definition nbins (g : t) : Z := wrap (vsize (edges_ g) - 1).

Definition name (g : t) : string := name_ g.

(** [std::upper_bound] over the whole vector: the binary search of the
    standard library, on the half-open range [first, first + len). *)
Fixpoint upper_bound_loop (fuel : nat) (es : list double) (value : double)
    (first len : nat) : nat :=
  match fuel with
  | O => first
  | S fuel' =>
      if (len =? 0)%nat then first
      else
        let half := (len / 2)%nat in
        let middle := (first + half)%nat in
        if flt value (nth middle es NaN)
        then upper_bound_loop fuel' es value first half
        else upper_bound_loop fuel' es value (S middle) (len - half - 1)%nat
  end.

Definition upper_bound (es : list double) (value : double) : nat :=
  upper_bound_loop (length es) es value 0 (length es).

Definition index (g : t) (value : double) : outcome Z :=
  let j := Z.of_nat (upper_bound (edges_ g) value) in
  if 0 <? j then Ret (wrap (j - 1)) else Abort.

End general.

(** ** Transformations (binning::detail) *)

Module detail.

(** What [uniform] asks of its template argument: two static functions. *)
Class Transformation : Type := {
  map : double -> double;
  imap : double -> double
}.

(** Trivial linear mapping. *)
Definition identity : Transformation :=
  {| map := fun v => v; imap := fun v => v |}.

(** [power<2>]: bin edges linear in the square root. *)
Definition power2 : Transformation :=
  {| map := fun v => fmul v v; imap := fun v => fsqrt v |}.

(** [log10], [cosine] and [power<N>] call the C mathematical library,
    which is taken as given. *)
Section Libm.
Variable pow : double -> double -> double.
Variables log10_ cos acos : double -> double.

Definition log10 : Transformation :=
  {| map := fun v => pow (of_Z 10) v; imap := fun v => log10_ v |}.

Definition cosine : Transformation :=
  {| map := fun v => acos v; imap := fun v => cos v |}.

Definition power (N : Z) : Transformation :=
  {| map := fun v => pow v (of_Z N);
     imap := fun v => pow v (fdiv (of_Z 1) (of_Z N)) |}.
End Libm.

End detail.

(** ** binning::uniform: an equispaced binning scheme *)

Module uniform.
Import detail.

Record t : Type := Build {
  edges_ : list double;
  name_ : string;
  offset_ : double;
  range_ : double;
  min_ : double;
  max_ : double;
  nsteps_ : Z
}.

Section Scheme.
Context {T : Transformation}.

(** The private [map], which reads only [range_] and [offset_]. *)
Definition map_ (range offset value : double) : double :=
  map (fadd (fmul range value) offset).

Definition imap_ (u : t) (value : double) : double :=
  fdiv (fsub (imap value) (offset_ u)) (range_ u).

(** The loop of the constructor: [todo] iterations are left, [i] is the
    loop counter. *)
Fixpoint push_steps (todo : nat) (i : Z) (range offset : double)
    (nsteps : Z) (edges : list double) : list double :=
  match todo with
  | O => edges
  | S todo' =>
      let e := map_ range offset (fdiv (of_Z i) (of_Z (wrap (nsteps - 1)))) in
      push_steps todo' (wrap (i + 1)) range offset nsteps (edges ++ [e])
  end.

Definition make (low high : double) (nbins : Z) (name : string) : t :=
  let offset := imap low in
  let range := fsub (imap high) (imap low) in
  let nsteps := wrap (nbins + 1) in
  let edges0 := [neg_infinity] in
  let edges1 := push_steps (Z.to_nat nsteps) 0 range offset nsteps edges0 in
  {| edges_ := edges1 ++ [infinity];
     name_ := name;
     offset_ := offset;
     range_ := range;
     min_ := map_ range offset (of_Z 0);
     max_ := map_ range offset (of_Z 1);
     nsteps_ := nsteps |}.

Definition edges (u : t) : list double := edges_ u.

Definition nbins (u : t) : Z := wrap (nsteps_ u + 1).

Definition index (u : t) (value : double) : outcome Z :=
  if flt value (min_ u) then Ret 0
  else if fge value (max_ u) then Ret (wrap (vsize (edges_ u) - 2))
  else
    let* k := to_size_t
                (ffloor (fmul (of_Z (wrap (nsteps_ u - 1))) (imap_ u value))) in
    Ret (wrap (k + 1)).

Definition name (u : t) : string := name_ u.
End Scheme.

End uniform.

(** ** Dimensions

    A histogram is a variadic template over its dimension types; every type
    derived from [dimension_tag] in the header is one of these two. *)

Inductive dimension : Type :=
  | dim_general (g : general.t)
  | dim_uniform (T : detail.Transformation) (u : uniform.t).

Definition dim_nbins (d : dimension) : Z :=
  match d with
  | dim_general g => general.nbins g
  | dim_uniform _ u => uniform.nbins u
  end.

Definition dim_index (d : dimension) (v : double) : outcome Z :=
  match d with
  | dim_general g => general.index g v
  | dim_uniform T u => uniform.index (T := T) u v
  end.

Definition dim_edges (d : dimension) : list double :=
  match d with
  | dim_general g => general.edges g
  | dim_uniform _ u => uniform.edges u
  end.

Definition dim_name (d : dimension) : string :=
  match d with
  | dim_general g => general.name g
  | dim_uniform _ u => uniform.name u
  end.

(** ** histogram_impl: the indexing engine

    [histogram_impl<T, Ts...>] derives from [histogram_impl<Ts...>]; the
    recursion over the parameter pack is a recursion over the list of
    dimensions, with [histogram_impl<>] at the empty list. *)

Module histogram_impl.

Definition extent (d : dimension) : Z := dim_nbins d.

Fixpoint size (dims : list dimension) : Z :=
  match dims with
  | [] => 1
  | d :: ts => wrap (extent d * size ts)
  end.

Definition stride (dims : list dimension) : Z :=
  match dims with
  | [] => 1
  | _ :: ts => size ts
  end.

Fixpoint index (dims : list dimension) (args : list double) : outcome Z :=
  match dims, args with
  | [], [] => Ret 0
  | d :: ts, v :: tail =>
      let* i := dim_index d v in
      let* rest := index ts tail in
      Ret (wrap (wrap (i * stride (d :: ts)) + rest))
  | _, _ => Ill_formed
  end.

(** The arity of a call is checked statically; on a list of the wrong
    length, which no compiled program passes, the answer is [false]. *)
Fixpoint valid (dims : list dimension) (args : list double) : bool :=
  match dims, args with
  | [], [] => true
  | _ :: ts, v :: tail => negb (isnan v) && valid ts tail
  | _, _ => false
  end.

Fixpoint fill_shape (dims : list dimension) : list Z :=
  match dims with
  | [] => []
  | d :: ts => extent d :: fill_shape ts
  end.

Fixpoint fill_edges (dims : list dimension) : list (list double) :=
  match dims with
  | [] => []
  | d :: ts => dim_edges d :: fill_edges ts
  end.

Fixpoint fill_label (dims : list dimension) : list string :=
  match dims with
  | [] => []
  | d :: ts => dim_name d :: fill_label ts
  end.

End histogram_impl.

(** ** histogram: the accumulation engine *)

Module histogram.
Import histogram_impl.

Record t : Type := Build {
  dims : list dimension;
  title_ : string;
  n_entries_ : Z;
  bincontent_ : list double;
  squaredweights_ : list double
}.

(** The constructor; [create] forwards to it. *)
Definition make (dimensions : list dimension) (title : string) : t :=
  {| dims := dimensions;
     title_ := title;
     n_entries_ := 0;
     bincontent_ := replicate (Z.to_nat (size dimensions)) zero;
     squaredweights_ := replicate (Z.to_nat (size dimensions)) zero |}.

Definition create (title : string) (ts : list dimension) : t := make ts title.

Definition ndim (h : t) : Z := Z.of_nat (length (dims h)).
Definition title (h : t) : string := title_ h.
Definition set_title (h : t) (title : string) : t :=
  {| dims := dims h; title_ := title; n_entries_ := n_entries_ h;
     bincontent_ := bincontent_ h; squaredweights_ := squaredweights_ h |}.

(** A call returns the histogram it leaves behind together with what it
    did: an exception leaves the object alive, with whatever was written
    before the throw. [on_return h c k] runs [k] on the value of [c], or
    stops at [h] with the failure of [c]. *)
Definition on_return {A : Type} (h : t) (c : outcome A)
    (k : A -> t * outcome bool) : t * outcome bool :=
  match c with
  | Ret a => k a
  | Abort => (h, Abort)
  | Throw_out_of_range => (h, Throw_out_of_range)
  | Undefined => (h, Undefined)
  | Ill_formed => (h, Ill_formed)
  end.

Definition set_bincontent (h : t) (v : list double) : t :=
  {| dims := dims h; title_ := title_ h; n_entries_ := n_entries_ h;
     bincontent_ := v; squaredweights_ := squaredweights_ h |}.

Definition set_squaredweights (h : t) (v : list double) : t :=
  {| dims := dims h; title_ := title_ h; n_entries_ := n_entries_ h;
     bincontent_ := bincontent_ h; squaredweights_ := v |}.

Definition set_n_entries (h : t) (n : Z) : t :=
  {| dims := dims h; title_ := title_ h; n_entries_ := n;
     bincontent_ := bincontent_ h; squaredweights_ := squaredweights_ h |}.

Definition fill_with_weight (h : t) (weight : double) (args : list double)
    : t * outcome bool :=
  if negb (length args =? length (dims h))%nat then (h, Ill_formed)
  else if valid (dims h) args then
    on_return h (index (dims h) args) (fun offset =>
    on_return h (at_ (bincontent_ h) offset) (fun b =>
      let h1 := set_bincontent h
                  (<[Z.to_nat offset := fadd b weight]> (bincontent_ h)) in
    on_return h1 (at_ (squaredweights_ h1) offset) (fun s =>
      let h2 := set_squaredweights h1
                  (<[Z.to_nat offset := fadd s (fmul weight weight)]>
                     (squaredweights_ h1)) in
      (set_n_entries h2 (wrap (n_entries_ h2 + 1)), Ret true))))
  else (h, Ret false).

Definition fill (h : t) (args : list double) : t * outcome bool :=
  fill_with_weight h one args.

Definition shape (h : t) : list Z := fill_shape (dims h).
Definition binedges (h : t) : list (list double) := fill_edges (dims h).
Definition labels (h : t) : list string := fill_label (dims h).
Definition bincontent (h : t) : list double * list Z := (bincontent_ h, shape h).
Definition squaredweights (h : t) : list double * list Z :=
  (squaredweights_ h, shape h).
Definition n_entries (h : t) : Z := n_entries_ h.

End histogram.

(** * The vocabulary of the statements *)

(** ** Coordinates and histograms *)

Definition no_nan (args : list double) : Prop :=
  Forall (fun v => isnan v = false) args.

Definition some_nan (args : list double) : Prop :=
  Exists (fun v => isnan v = true) args.

(** A histogram as its constructor leaves the arrays: one slot per bin. *)
Definition allocated (h : histogram.t) : Prop :=
  vsize (histogram.bincontent_ h) = histogram_impl.size (histogram.dims h) /\
  vsize (histogram.squaredweights_ h) = histogram_impl.size (histogram.dims h).

(** The per-dimension indices of a coordinate tuple. *)
Definition indexed (dims : list dimension) (args : list double)
    (idxs : list Z) : Prop :=
  Forall3 (fun d v i => dim_index d v = Ret i) dims args idxs.

(** Per-dimension indices that are below their bin counts. *)
Definition indexed_in_range (dims : list dimension) (args : list double)
    (idxs : list Z) : Prop :=
  Forall3 (fun d v i => dim_index d v = Ret i /\ 0 <= i < dim_nbins d)
    dims args idxs.

(** Edges in ascending order, none of them NaN. *)
Definition ascending (es : list double) : Prop :=
  forall (i j : nat) (a b : double),
    es !! i = Some a -> es !! j = Some b -> (i <= j)%nat -> fle a b = true.

(** [ascending], decided. *)
Fixpoint ascendingb (es : list double) : bool :=
  match es with
  | [] => true
  | a :: tail => fle a a && forallb (fle a) tail && ascendingb tail
  end.

(** ** The words of the specification *)

(** The product of a list of bin counts, over the integers. *)
Definition product (l : list Z) : Z := foldr Z.mul 1 l.

(** The sum over the dimensions of (bin index) x (stride). *)
Fixpoint offset_sum (idxs : list Z) (dims : list dimension) : Z :=
  match idxs, dims with
  | i :: rest, _ :: ts => i * histogram_impl.stride dims + offset_sum rest ts
  | _, _ => 0
  end.

(** The edges of the equispaced scheme as the specification words them. *)
Definition spec_uniform_edges {T : detail.Transformation}
    (low high : double) (requested : Z) : list double :=
  let offset := detail.imap low in
  let range := fsub (detail.imap high) (detail.imap low) in
  let steps := wrap (requested + 1) in
  neg_infinity
    :: List.map (fun k => detail.map
                   (fadd (fmul range (fdiv (of_Z k) (of_Z (wrap (steps - 1)))))
                         offset))
         (seqZ 0 steps)
    ++ [infinity].

(** The bin index of the equispaced scheme as the specification words it,
    with the two thresholds [lo] and [hi] left open: below [lo] the
    underflow bin, from [hi] on the last bin, in between
    [floor((steps - 1) * u) + 1]. *)
Definition spec_uniform_index {T : detail.Transformation} (lo hi : double)
    (low high : double) (requested : Z) (v : double) : outcome Z :=
  let steps := wrap (requested + 1) in
  let bin_count := wrap (steps + 1) in
  let u := fdiv (fsub (detail.imap v) (detail.imap low))
                (fsub (detail.imap high) (detail.imap low)) in
  if flt v lo then Ret 0
  else if fge v hi then Ret (wrap (bin_count - 1))
  else
    let* k := to_size_t (ffloor (fmul (of_Z (wrap (steps - 1))) u)) in
    Ret (wrap (k + 1)).

(** The bounds the constructor caches: [map(0)] and [map(1)]. *)
Definition cached_min {T : detail.Transformation} (low high : double) : double :=
  detail.map (fadd (fmul (fsub (detail.imap high) (detail.imap low)) (of_Z 0))
                   (detail.imap low)).

Definition cached_max {T : detail.Transformation} (low high : double) : double :=
  detail.map (fadd (fmul (fsub (detail.imap high) (detail.imap low)) (of_Z 1))
                   (detail.imap low)).

(** ** The order of the comparison operators

    [SFcompare] orders the doubles that are not NaN as the triples below,
    taken lexicographically: the class, then the exponent, then the
    mantissa, the last two negated for negative numbers. *)
Definition order_key (v : double) : Z * Z * Z :=
  match v with
  | S754_infinity true => (-2, 0, 0)
  | S754_finite true m e => (-1, - e, Z.neg m)
  | S754_zero _ => (0, 0, 0)
  | S754_nan => (0, 0, 0)
  | S754_finite false m e => (1, e, Z.pos m)
  | S754_infinity false => (2, 0, 0)
  end.

Definition key_lt (a b : Z * Z * Z) : Prop :=
  let '(ca, ea, ma) := a in
  let '(cb, eb, mb) := b in
  ca < cb \/ (ca = cb /\ (ea < eb \/ (ea = eb /\ ma < mb))).

(** ** Rounding to nearest

    What the lemmas about [binary_round_aux] speak of. *)

Definition is_exact (mrs : shr_record) : Prop :=
  shr_r mrs = false /\ shr_s mrs = false.

(** [k] right shifts of a non-negative mantissa: the quotient by [2^k],
    and the record is exact when nothing was shifted out. *)
Definition shifted (k : Z) (x y : shr_record) : Prop :=
  0 <= shr_m x ->
  shr_m y = shr_m x / 2 ^ k /\
  (is_exact y <-> shr_m x mod 2 ^ k = 0 /\ is_exact x).

(** A mantissa and exponent whose value is at most the integer [n],
    with [n] on the grid of the exponent. *)
Definition below (n m e : Z) : Prop :=
  e <= 0 /\ 0 <= m <= n * 2 ^ (- e).

(** A double that is a zero, or positive with a value at most [n]. *)
Definition at_most (n : Z) (r : double) : Prop :=
  match r with
  | S754_zero _ => True
  | S754_finite false m e => below n (Z.pos m) e
  | _ => False
  end.

(** * Sample inputs *)

(** The two dimensions and the histogram of [histogram_demo.cpp]. *)
Definition sample_general : general.t :=
  {| general.name_ := "general";
     general.edges_ := [neg_infinity; of_Z 0; of_Z 1; of_Z 2; infinity] |}.

Definition sample_linear : uniform.t :=
  uniform.make (T := detail.identity) (of_Z 0) (of_Z 10) 11 "dimension".

Definition sample_histogram : histogram.t :=
  histogram.create "hola cabrones"
    [dim_uniform detail.identity sample_linear; dim_general sample_general].

(** A one-dimensional histogram over the edges 0, 1, 2. *)
Definition sample_general_histogram : histogram.t :=
  histogram.create "" [dim_general sample_general].

(** An equispaced dimension with 254 requested bins: 256 bins in all. *)
Definition sample_byte_dimension : dimension :=
  dim_uniform detail.identity
    (uniform.make (T := detail.identity) (of_Z 0) (of_Z 1) 254 "").

(** Eight of them: 256^8 = 2^64 bins. *)
Definition sample_wide_histogram : histogram.t :=
  histogram.create "" (replicate 8 sample_byte_dimension).

(** A bin count of [SIZE_MAX], which is what [-1] converts to. *)
Definition sample_wrapped_linear : uniform.t :=
  uniform.make (T := detail.identity) (of_Z 0) (of_Z 10) size_max "".

Definition sample_wrapped_histogram : histogram.t :=
  histogram.create "" [dim_uniform detail.identity sample_wrapped_linear].

(** A range wider than the largest double: [high - low] is [+infinity]. *)
Definition sample_huge_linear : uniform.t :=
  uniform.make (T := detail.identity)
    (of_Z (- 2 ^ 1023)) (of_Z (2 ^ 1023)) 1 "".

(** Edges linear in the square root between 2 and 3. *)
Definition sample_sqrt : uniform.t :=
  uniform.make (T := detail.power2) (of_Z 2) (of_Z 3) 1 "".


(** * A program that fills a histogram more than once *)

(** A run of [fill_with_weight] calls on one histogram, each on the object
    as the previous call left it (a caller that catches the exception of a
    call goes on with the same object), together with what each call
    did. *)
Fixpoint fill_sequence (h : histogram.t) (calls : list (double * list double))
    : histogram.t * list (outcome bool) :=
  match calls with
  | [] => (h, [])
  | (weight, args) :: rest =>
      let '(h1, r) := histogram.fill_with_weight h weight args in
      let '(h2, rs) := fill_sequence h1 rest in
      (h2, r :: rs)
  end.

(** The number of calls of a run that returned [true]. *)
Fixpoint accepted (rs : list (outcome bool)) : Z :=
  match rs with
  | [] => 0
  | Ret true :: rest => 1 + accepted rest
  | _ :: rest => accepted rest
  end.

(** * simple_hdf5.hpp: the shape of chunks

    [hsize_t] is a 64-bit unsigned integer, as [size_t] is. *)

Definition clamp (v a b : Z) : Z := Z.max a (Z.min v b).

Module hdf5.

(** [get_shape] of a [std::vector<double>]. *)
Definition get_shape (v : list double) : list Z := [vsize v].

Section Chunks.
(** [H5Tget_size] of the type of the elements, which the HDF5 library
    answers (8 for a double). *)
Variable element_size : Z.

(** The first loop of [get_chunk_shape]: [size *= d] for every extent. *)
Fixpoint total_size (size : Z) (shape : list Z) : Z :=
  match shape with
  | [] => size
  | d :: rest => total_size (wrap (size * d)) rest
  end.

(** The second loop, with [i + 1] as [todo]: from the last dimension to
    the first, [chunk[i] = clamp(chunk_size/cum_size, 1, shape[i])] and
    [cum_size *= shape[i]]. A division by zero is undefined. *)
Fixpoint chunk_loop (todo : nat) (chunk_size cum_size : Z)
    (shape chunk : list Z) : outcome (list Z) :=
  match todo with
  | O => Ret chunk
  | S i =>
      match shape !! i with
      | None => Undefined
      | Some d =>
          if cum_size =? 0 then Undefined
          else chunk_loop i chunk_size (wrap (cum_size * d)) shape
                 (<[i := clamp (chunk_size / cum_size) 1 d]> chunk)
      end
  end.

(** The default of [max_chunk_size]: [size_t(2) << 15]. *)
Definition default_max_chunk_size : Z := wrap (Z.shiftl 2 15).

(** [get_chunk_shape], on the shape of the data. The loop counter is an
    [int]; a rank beyond [INT_MAX], where the conversion is left to the
    implementation, is not given a result. *)
Definition get_chunk_shape (shape : list Z) (max_chunk_size : Z)
    : outcome (list Z) :=
  if 2 ^ 31 <? vsize shape then Undefined
  else
    let chunk := replicate (length shape) 0 in
    let size := total_size element_size shape in
    let chunk_size := Z.min max_chunk_size size in
    chunk_loop (length shape) chunk_size 1 shape chunk.
End Chunks.

End hdf5.

(** * histogram_storage.h *)

Module storage.

(** The storage adapters of [detail::view]: the data pointer, here the
    array it points to, and the shape copied to a vector of [hsize_t]. *)
Definition get_data (d : list double * list Z) : list double := fst d.
Definition get_shape (d : list double * list Z) : list Z := snd d.

(** [detail::enumerate_object]: [_begin], as the elements from it to
    [_end], and the counter [_size]. *)
Module enumerate_object.

Record t (A : Type) : Type := Build {
  _begin : list A;
  _size : Z
}.
Arguments Build {A} _ _.
Arguments _begin {A} _.
Arguments _size {A} _.

Definition make {A : Type} (iter : list A) : t A :=
  {| _begin := iter; _size := 0 |}.

(** [operator!=]: [_begin != _end]. *)
Definition not_equal {A : Type} (e : t A) : bool :=
  match _begin e with [] => false | _ :: _ => true end.

(** [operator++]. *)
Definition increment {A : Type} (e : t A) : t A :=
  {| _begin := tail (_begin e); _size := wrap (_size e + 1) |}.

(** [operator*]; dereferencing the end iterator is undefined. *)
Definition dereference {A : Type} (e : t A) : outcome (Z * A) :=
  match _begin e with
  | x :: _ => Ret (_size e, x)
  | [] => Undefined
  end.

End enumerate_object.

(** A range-based [for] over an [enumerate_object], collecting the pairs
    the body is run on; every turn moves [_begin] one element on, so the
    number of elements is fuel enough. *)
Fixpoint range_for {A : Type} (fuel : nat) (e : enumerate_object.t A)
    : outcome (list (Z * A)) :=
  match fuel with
  | O => Ret []
  | S fuel' =>
      if enumerate_object.not_equal e then
        let* pair := enumerate_object.dereference e in
        let* rest := range_for fuel' (enumerate_object.increment e) in
        Ret (pair :: rest)
      else Ret []
  end.

(** [for (const auto &pair : enumerate(iter))]. *)
Definition enumerate {A : Type} (iter : list A) : outcome (list (Z * A)) :=
  range_for (length iter) (enumerate_object.make iter).

(** What [operator<<] prints for a [size_t]: its decimal digits. *)
Definition print_size_t (n : Z) : string :=
  NilZero.string_of_uint (N.to_uint (Z.to_N n)).

(** What [save] asks of the file, in the order of the calls. Each request
    is taken to succeed. *)
Inductive request : Type :=
  | create_group (where_ name : string) (overwrite : bool)
  | set_attribute_number (name : string) (value : Z)
  | set_attribute_string (name : string) (value : string)
  | create_carray_view (name : string) (data : list double) (shape : list Z)
  | create_carray_vector (name : string) (data : list double).

(** The name of the array or of the attribute a request writes. *)
Definition array_name (r : request) : option string :=
  match r with
  | create_carray_view name _ _ | create_carray_vector name _ => Some name
  | _ => None
  end.

Definition attribute_name (r : request) : option string :=
  match r with
  | set_attribute_number name _ | set_attribute_string name _ => Some name
  | _ => None
  end.

Definition save (hist : histogram.t) (where_ name : string) (overwrite : bool)
    : outcome (list request) :=
  let head :=
    [create_group where_ name true;
     set_attribute_number "ndim" (histogram.ndim hist);
     set_attribute_number "nentries" (histogram.n_entries hist);
     set_attribute_string "title" (histogram.title hist);
     create_carray_view "_h_bincontent"
       (get_data (histogram.bincontent hist))
       (get_shape (histogram.bincontent hist));
     create_carray_view "_h_squaredweights"
       (get_data (histogram.squaredweights hist))
       (get_shape (histogram.squaredweights hist))] in
  let* edges := enumerate (histogram.binedges hist) in
  let* labels := enumerate (histogram.labels hist) in
  Ret (head
       ++ List.map (fun pair => create_carray_vector
                      ("_h_binedges_" ++ print_size_t (fst pair)) (snd pair))
            edges
       ++ List.map (fun pair => set_attribute_string
                      ("label_" ++ print_size_t (fst pair)) (snd pair))
            labels).

End storage.

(** * Further vocabulary *)

(** A dimension that the constructor of [general] built from ascending
    edges, few enough for their number to be a [size_t]. *)
Definition general_dimension (d : dimension) : Prop :=
  exists (edges : list double) (name : string) (g : general.t),
    d = dim_general g /\ general.make edges name = Ret g /\
    ascending edges /\ vsize (general.edges g) <= size_max.

(** * Further sample inputs *)

(** Edges linear in the square root, from a negative lower limit. *)
Definition sample_negative_sqrt : uniform.t :=
  uniform.make (T := detail.power2) (of_Z (-1)) (of_Z 4) 3 "".

(** A linear scheme whose limits are given the wrong way round. *)
Definition sample_reversed_linear : uniform.t :=
  uniform.make (T := detail.identity) (of_Z 10) (of_Z 0) 11 "".

(** * The value of a double

    Every finite double is a multiple of 2^-1074; [value] is the double in
    that unit, an integer. Zeros have the value 0; on the infinities and
    NaN the function is not used. *)
Definition value (x : double) : Z :=
  match x with
  | S754_finite s m e => cond_Zopp s (Z.pos m * 2 ^ (e + 1074))
  | _ => 0
  end.

(** The exponent of a mantissa is the one the format gives its size. *)
Definition canonical (m : positive) (e : Z) : Prop :=
  fexp prec emax (Z.pos (digits2_pos m) + e) = e.

(** The opposite of a double. *)
Definition fneg (x : double) : double :=
  match x with
  | S754_zero s => S754_zero (negb s)
  | S754_infinity s => S754_infinity (negb s)
  | S754_nan => S754_nan
  | S754_finite s m e => S754_finite (negb s) m e
  end.

(** * Dimensions within their design *)

(** A transformation that is monotonic and invertible on the doubles:
    [imap] yields a double for a double and NaN only for NaN, keeps the
    order of any two doubles, and undoes [map]. *)
Definition monotonic_invertible (T : detail.Transformation) : Prop :=
  (forall x, valid_binary prec emax x = true ->
             valid_binary prec emax (detail.imap x) = true) /\
  (forall x, isnan x = false -> isnan (detail.imap x) = false) /\
  (forall x, detail.imap (detail.map x) = x) /\
  (forall x y, flt (detail.imap x) (detail.imap y) = flt x y) /\
  (forall x y, fle (detail.imap x) (detail.imap y) = fle x y).

(** An equispaced dimension that the constructor of [uniform] built with
    such a transformation from limits in order, with a finite range and
    fewer than 2^53 requested bins. *)
Definition uniform_dimension (d : dimension) : Prop :=
  exists (T : detail.Transformation) (low high : double) (requested : Z)
         (name : string),
    d = dim_uniform T (uniform.make (T := T) low high requested name) /\
    monotonic_invertible T /\
    valid_binary prec emax low = true /\
    valid_binary prec emax high = true /\
    flt low high = true /\
    is_finite (fsub (detail.imap high) (detail.imap low)) = true /\
    0 <= requested < 2 ^ 53.

(** A coordinate below the lower or from the upper threshold on, for an
    equispaced dimension whose bin count did not wrap to 0. *)
Definition beyond_the_thresholds (d : dimension) (v : double) : Prop :=
  exists (T : detail.Transformation) (low high : double) (requested : Z)
         (name : string),
    d = dim_uniform T (uniform.make (T := T) low high requested name) /\
    0 <= requested <= size_max /\ requested <> size_max - 1 /\
    (flt v (uniform.min_ (uniform.make (T := T) low high requested name)) = true \/
     fge v (uniform.max_ (uniform.make (T := T) low high requested name)) = true).

(** The coordinates that a dimension takes to one of its bins: below plus
    infinity on a non-equispaced dimension built from ascending edges;
    beyond the thresholds of an equispaced dimension; any double on an
    equispaced dimension built with a monotonic invertible
    transformation. *)
Definition taken (d : dimension) (v : double) : Prop :=
  (general_dimension d /\ flt v infinity = true) \/
  beyond_the_thresholds d v \/
  (uniform_dimension d /\ valid_binary prec emax v = true).
(** * Properties *)

(** ** size_t arithmetic *)

Lemma wrap_range (z : Z) : 0 <= wrap z <= size_max.
Proof.
  unfold wrap, size_max.
  pose proof (Z.mod_pos_bound z (2 ^ size_bits) eq_refl). lia.
Qed.

Lemma wrap_small (z : Z) : 0 <= z <= size_max -> wrap z = z.
Proof.
  unfold wrap, size_max. intros H. apply Z.mod_small. lia.
Qed.

Lemma wrap_wrap (z : Z) : wrap (wrap z) = wrap z.
Proof. unfold wrap. apply Z.mod_mod. discriminate. Qed.

Lemma wrap_mul_r (a b : Z) : wrap (a * wrap b) = wrap (a * b).
Proof. unfold wrap. apply Z.mul_mod_idemp_r. discriminate. Qed.

Lemma wrap_add_l (a b : Z) : wrap (wrap a + b) = wrap (a + b).
Proof. unfold wrap. apply Z.add_mod_idemp_l. discriminate. Qed.

Lemma wrap_add_r (a b : Z) : wrap (a + wrap b) = wrap (a + b).
Proof. unfold wrap. apply Z.add_mod_idemp_r. discriminate. Qed.

(** ** The order of doubles *)

Lemma compare_finite_by_key (s1 s2 : bool) (m1 m2 : positive) (e1 e2 : Z) :
  let a := S754_finite s1 m1 e1 in
  let b := S754_finite s2 m2 e2 in
  (SFcompare a b = Some Lt <-> key_lt (order_key a) (order_key b)) /\
  (SFcompare a b = Some Eq <-> order_key a = order_key b).
Proof.
  cbn zeta.
  destruct s1, s2; cbn [SFcompare order_key key_lt];
    change (Pos.compare_cont Eq m1 m2) with (Pos.compare m1 m2);
    destruct (Z.compare_spec e1 e2) as [He | He | He];
    destruct (Pos.compare_spec m1 m2) as [Hm | Hm | Hm];
    cbn [CompOpp];
    (split; split; intros H);
    try reflexivity; try discriminate;
    try (exfalso; lia);
    try (injection H as H1 H2; exfalso; lia);
    try (subst; reflexivity);
    try lia.
Qed.

Lemma flt_by_key (a b : double) :
  isnan a = false -> isnan b = false ->
  (flt a b = true <-> key_lt (order_key a) (order_key b)).
Proof.
  unfold flt, SFltb. intros Ha Hb.
  destruct a as [sa | sa | | sa ma ea]; try discriminate;
    destruct b as [sb | sb | | sb mb eb]; try discriminate.
  9: { destruct (compare_finite_by_key sa sb ma mb ea eb) as [H _].
        cbn zeta in H. rewrite <- H.
        destruct (SFcompare _ _) as [[| |] |]; split; congruence. }
  all: destruct sa, sb; cbn; split; intros H; try reflexivity;
       try discriminate; try lia.
Qed.

Lemma fle_by_key (a b : double) :
  isnan a = false -> isnan b = false ->
  (fle a b = true <->
   key_lt (order_key a) (order_key b) \/ order_key a = order_key b).
Proof.
  unfold fle, SFleb. intros Ha Hb.
  destruct a as [sa | sa | | sa ma ea]; try discriminate;
    destruct b as [sb | sb | | sb mb eb]; try discriminate.
  9: { destruct (compare_finite_by_key sa sb ma mb ea eb) as [H1 H2].
        cbn zeta in H1, H2. rewrite <- H1, <- H2.
        destruct (SFcompare _ _) as [[| |] |]; split;
          try tauto; try congruence; intros [? | ?]; congruence. }
  all: destruct sa, sb; cbn; split; intros H; try reflexivity;
       try discriminate; try (left; lia); try (right; reflexivity);
       try (destruct H as [H | H]; [lia | discriminate]).
Qed.

Lemma flt_not_nan (a b : double) :
  flt a b = true -> isnan a = false /\ isnan b = false.
Proof.
  unfold flt, SFltb.
  destruct a, b; cbn; try discriminate; intros _; split; reflexivity.
Qed.

Lemma fle_not_nan (a b : double) :
  fle a b = true -> isnan a = false /\ isnan b = false.
Proof.
  unfold fle, SFleb.
  destruct a, b; cbn; try discriminate; intros _; split; reflexivity.
Qed.

Lemma key_lt_le_trans (a b c : Z * Z * Z) :
  key_lt a b -> key_lt b c \/ b = c -> key_lt a c.
Proof.
  destruct a as [[ca ea] ma], b as [[cb eb] mb], c as [[cc ec] mc].
  unfold key_lt. intros Hab [Hbc | [= -> -> ->]]; lia.
Qed.

Lemma key_lt_asym (a b : Z * Z * Z) :
  key_lt a b \/ a = b -> ~ key_lt b a.
Proof.
  destruct a as [[ca ea] ma], b as [[cb eb] mb].
  unfold key_lt. intros [Hab | [= -> -> ->]]; lia.
Qed.

Lemma key_total (a b : Z * Z * Z) :
  key_lt a b \/ key_lt b a \/ a = b.
Proof.
  destruct a as [[ca ea] ma], b as [[cb eb] mb]. unfold key_lt.
  destruct (Z.lt_total ca cb) as [H | [-> | H]]; [lia | | lia].
  destruct (Z.lt_total ea eb) as [H | [-> | H]]; [lia | | lia].
  destruct (Z.lt_total ma mb) as [H | [-> | H]]; [lia | | lia].
  right. right. reflexivity.
Qed.

(** [v < a] and [a <= b] give [v < b]. *)
Lemma flt_fle_trans (v a b : double) :
  flt v a = true -> fle a b = true -> flt v b = true.
Proof.
  intros Hva Hab.
  destruct (flt_not_nan _ _ Hva) as [Hv Ha].
  destruct (fle_not_nan _ _ Hab) as [_ Hb].
  apply (flt_by_key v b Hv Hb).
  apply (key_lt_le_trans _ (order_key a)).
  - apply (flt_by_key v a Hv Ha). exact Hva.
  - apply (fle_by_key a b Ha Hb). exact Hab.
Qed.

(** Without NaN the order is total: not [v < a] means [a <= v]. *)
Lemma not_flt_fle (v a : double) :
  isnan v = false -> isnan a = false -> flt v a = false -> fle a v = true.
Proof.
  intros Hv Ha Hva.
  apply (fle_by_key a v Ha Hv).
  destruct (key_total (order_key a) (order_key v)) as [H | [H | H]]; auto.
  apply (flt_by_key v a Hv Ha) in H. congruence.
Qed.

Lemma fle_not_flt (v a : double) :
  fle a v = true -> flt v a = false.
Proof.
  intros Hav. destruct (fle_not_nan _ _ Hav) as [Ha Hv].
  destruct (flt v a) eqn:E; [| reflexivity].
  apply (flt_by_key v a Hv Ha) in E.
  apply (fle_by_key a v Ha Hv) in Hav.
  exfalso. exact (key_lt_asym _ _ Hav E).
Qed.

(** Nothing is above plus infinity, and NaN is below nothing. *)
Lemma flt_infinity_false (x : double) : flt infinity x = false.
Proof. destruct x as [s | [|] | | s m e]; reflexivity. Qed.

Lemma flt_nan_false (x : double) : flt NaN x = false.
Proof. reflexivity. Qed.

(** ** The binary search *)

Lemma half_below (len : nat) : (len <> 0 -> len / 2 < len)%nat.
Proof. intros H. apply Nat.div_lt; lia. Qed.

(** On a range split at [p] into edges not above [value] and edges above
    it, the search returns [p]. *)
Lemma upper_bound_loop_partition (fuel : nat) (es : list double)
    (value : double) (first len p : nat) :
  (len <= fuel)%nat ->
  (first <= p <= first + len)%nat ->
  (forall k, (first <= k < p)%nat -> flt value (nth k es NaN) = false) ->
  (forall k, (p <= k < first + len)%nat -> flt value (nth k es NaN) = true) ->
  general.upper_bound_loop fuel es value first len = p.
Proof.
  revert first len.
  induction fuel as [| fuel IH]; intros first len Hfuel Hp Hlow Hhigh.
  - cbn. lia.
  - cbn [general.upper_bound_loop].
    destruct (Nat.eqb_spec len 0) as [-> | Hlen]; [lia |].
    pose proof (half_below len Hlen) as Hhalf.
    destruct (flt value (nth (first + len / 2) es NaN)) eqn:Hmid.
    + assert (p <= first + len / 2)%nat.
      { destruct (le_lt_dec p (first + len / 2)) as [H | H]; [exact H |].
        rewrite Hlow in Hmid by lia. discriminate. }
      apply IH; [lia | lia | exact Hlow |].
      intros k Hk. apply Hhigh. lia.
    + assert (first + len / 2 < p)%nat.
      { destruct (le_lt_dec p (first + len / 2)) as [H | H]; [| exact H].
        rewrite Hhigh in Hmid by lia. discriminate. }
      apply IH; [lia | lia | |].
      * intros k Hk. apply Hlow. lia.
      * intros k Hk. apply Hhigh. lia.
Qed.

(** A value that is below no edge sends the search to the end. *)
Lemma upper_bound_below_nothing (es : list double) (value : double) :
  (forall x, flt value x = false) ->
  general.upper_bound es value = length es.
Proof.
  intros H. unfold general.upper_bound.
  apply upper_bound_loop_partition; [lia | lia | |].
  - intros k _. apply H.
  - intros k Hk. lia.
Qed.

(** A monotone run of answers has a split point. *)
Lemma monotone_split (es : list double) (value : double) (len : nat) :
  (forall i j, (i <= j < len)%nat ->
     flt value (nth i es NaN) = true -> flt value (nth j es NaN) = true) ->
  exists p, (p <= len)%nat /\
    (forall k, (k < p)%nat -> flt value (nth k es NaN) = false) /\
    (forall k, (p <= k < len)%nat -> flt value (nth k es NaN) = true).
Proof.
  induction len as [| len IH]; intros Hmono.
  - exists 0%nat. repeat split; intros; lia.
  - destruct IH as (p & Hp & Hlow & Hhigh).
    { intros i j Hij. apply Hmono. lia. }
    destruct (flt value (nth len es NaN)) eqn:Hlast.
    + exists p. repeat split; [lia | exact Hlow |].
      intros k Hk. destruct (Nat.eq_dec k len) as [-> | Hne]; [exact Hlast |].
      apply Hhigh. lia.
    + exists (S len). repeat split; [lia | | intros; lia].
      intros k Hk. destruct (Nat.eq_dec k len) as [-> | Hne]; [exact Hlast |].
      destruct (flt value (nth k es NaN)) eqn:Hk'; [| reflexivity].
      rewrite (Hmono k len) in Hlast; [discriminate | lia | exact Hk'].
Qed.

Lemma ascending_monotone (es : list double) (value : double) :
  ascending es ->
  forall i j, (i <= j < length es)%nat ->
    flt value (nth i es NaN) = true -> flt value (nth j es NaN) = true.
Proof.
  intros Hasc i j Hij Hi.
  destruct (lookup_lt_is_Some_2 es i) as [a Ha]; [lia |].
  destruct (lookup_lt_is_Some_2 es j) as [b Hb]; [lia |].
  rewrite (nth_lookup_Some _ _ NaN _ Ha) in Hi.
  rewrite (nth_lookup_Some _ _ NaN _ Hb).
  apply (flt_fle_trans value a b Hi).
  apply (Hasc i j a b Ha Hb). lia.
Qed.

(** ** The bin index of the non-equispaced scheme *)

(** Where the edges ascend from minus infinity to plus infinity, every
    double that is neither NaN nor plus infinity gets the bin
    [E[i] <= v < E[i+1]], found one below the first edge above it. *)
Lemma general_index_bracket (g : general.t) (v : double) :
  ascending (general.edges g) ->
  general.edges g !! 0%nat = Some neg_infinity ->
  last (general.edges g) = Some infinity ->
  vsize (general.edges g) <= size_max ->
  isnan v = false ->
  flt v infinity = true ->
  exists (i : nat) (a b : double),
    general.index g v = Ret (Z.of_nat i) /\
    general.upper_bound (general.edges g) v = S i /\
    general.edges g !! i = Some a /\
    general.edges g !! S i = Some b /\
    fle a v = true /\ flt v b = true.
Proof.
  unfold general.edges.
  intros Hasc Hfirst Hlast Hsize Hv Hinf.
  set (es := general.edges_ g) in *.
  destruct (monotone_split es v (length es) (ascending_monotone es v Hasc))
    as (p & Hp & Hlow & Hhigh).
  assert (Hub : general.upper_bound es v = p).
  { unfold general.upper_bound.
    apply upper_bound_loop_partition; [lia | lia | |].
    - intros k Hk. apply Hlow. lia.
    - intros k Hk. apply Hhigh. lia. }
  assert (Hlen : (0 < length es)%nat).
  { apply lookup_lt_Some in Hfirst. exact Hfirst. }
  assert (Hp0 : (0 < p)%nat).
  { destruct p as [| p]; [| lia]. exfalso.
    specialize (Hhigh 0%nat ltac:(lia)).
    rewrite (nth_lookup_Some _ _ NaN _ Hfirst) in Hhigh.
    destruct v as [s | [|] | | s m e]; discriminate. }
  assert (Hplen : (p < length es)%nat).
  { destruct (le_lt_dec (length es) p) as [H | H]; [| exact H]. exfalso.
    rewrite last_lookup in Hlast.
    specialize (Hlow (pred (length es)) ltac:(lia)).
    rewrite (nth_lookup_Some _ _ NaN _ Hlast) in Hlow. congruence. }
  destruct p as [| i]; [lia |].
  destruct (lookup_lt_is_Some_2 es i) as [a Ha]; [lia |].
  destruct (lookup_lt_is_Some_2 es (S i)) as [b Hb]; [lia |].
  exists i, a, b.
  split.
  { unfold general.index. fold es. rewrite Hub.
    destruct (Z.ltb_spec 0 (Z.of_nat (S i))) as [_ | H]; [| lia].
    f_equal. unfold vsize in Hsize.
    replace (Z.of_nat (S i) - 1) with (Z.of_nat i) by lia.
    apply wrap_small. lia. }
  split; [exact Hub |].
  split; [exact Ha |]. split; [exact Hb |].
  split.
  - apply not_flt_fle; [exact Hv | |].
    + apply (fle_not_nan a a). apply (Hasc i i a a Ha Ha). lia.
    + specialize (Hlow i ltac:(lia)).
      rewrite (nth_lookup_Some _ _ NaN _ Ha) in Hlow. exact Hlow.
  - specialize (Hhigh (S i) ltac:(lia)).
    rewrite (nth_lookup_Some _ _ NaN _ Hb) in Hhigh. exact Hhigh.
Qed.

(** The constructor on the edges of the demonstration program. *)
Lemma sample_general_made :
  general.make [of_Z 0; of_Z 1; of_Z 2] "general" = Ret sample_general.
Proof. reflexivity. Qed.

(** Plus infinity is above every edge, the sentinel included: the search
    runs to the end and the index is the bin count, one past the last
    bin. *)
Lemma general_index_of_infinity (g : general.t) :
  1 <= vsize (general.edges g) <= size_max ->
  general.index g infinity = Ret (general.nbins g) /\
  general.nbins g = vsize (general.edges g) - 1.
Proof.
  unfold general.edges, general.index, general.nbins, vsize. intros Hsize.
  rewrite (upper_bound_below_nothing _ _ flt_infinity_false).
  destruct (Z.ltb_spec 0 (Z.of_nat (length (general.edges_ g)))) as [_ | H];
    [| lia].
  split; [reflexivity | apply wrap_small; lia].
Qed.

(** C1, at the failing input. For the edges 0, 1, 2 the stored edges are
    -inf, 0, 1, 2, +inf: four bins, numbered 0 to 3. [index(-inf)] is 0 and
    [index(1)] is 2, but [index(+inf)] is 4: the position of the first edge
    strictly above plus infinity is the end of the vector, and one less
    is [len(E) - 1], not [len(E) - 2]. *)
Theorem general_index_of_infinity_is_past_the_last_bin :
  general.make [of_Z 0; of_Z 1; of_Z 2] "general" = Ret sample_general /\
  vsize (general.edges sample_general) = 5 /\
  general.nbins sample_general = 4 /\
  general.index sample_general neg_infinity = Ret 0 /\
  general.index sample_general (of_Z 1) = Ret 2 /\
  general.upper_bound (general.edges sample_general) infinity = 5%nat /\
  general.index sample_general infinity = Ret 4 /\
  general.index sample_general infinity
    <> Ret (vsize (general.edges sample_general) - 2).
Proof.
  repeat split; try (vm_compute; reflexivity).
  vm_compute. discriminate.
Qed.

(** The same defect seen from the histogram. On the one-dimensional
    histogram over the edges 0, 1, 2 a fill at plus infinity computes
    offset 4 in arrays of length 4: [at] throws [std::out_of_range], nothing
    is counted, and no bin receives the entry. On the histogram of the
    demonstration program the same coordinate in the second dimension lands
    in bin 0 of the next row, or throws from the last row. *)
Theorem fill_at_infinity_throws :
  length [infinity] = length (histogram.dims sample_general_histogram) /\
  no_nan [infinity] /\
  histogram_impl.size (histogram.dims sample_general_histogram) = 4 /\
  histogram_impl.index (histogram.dims sample_general_histogram) [infinity]
    = Ret 4 /\
  histogram.fill sample_general_histogram [infinity]
    = (sample_general_histogram, Throw_out_of_range) /\
  histogram_impl.index (histogram.dims sample_histogram) [of_Z 1; infinity]
    = Ret (3 * 4 + 0) /\
  histogram.fill sample_histogram [of_Z 10; infinity]
    = (sample_histogram, Throw_out_of_range).
Proof.
  split; [reflexivity |].
  split; [repeat constructor |].
  repeat split; vm_compute; reflexivity.
Qed.

(** ** The equispaced scheme *)

Section Uniform.
Context {T : detail.Transformation}.

(** The constructor's loop appends one edge per counter value. *)
Lemma push_steps_closed_form (todo : nat) (i : Z) (range offset : double)
    (nsteps : Z) (edges : list double) :
  0 <= i -> i + Z.of_nat todo <= size_max ->
  uniform.push_steps todo i range offset nsteps edges =
  edges ++ List.map
             (fun k => uniform.map_ range offset
                         (fdiv (of_Z k) (of_Z (wrap (nsteps - 1)))))
             (seqZ i (Z.of_nat todo)).
Proof.
  revert i edges. induction todo as [| todo IH]; intros i edges Hi Hmax.
  - simpl. rewrite app_nil_r. reflexivity.
  - cbn [uniform.push_steps].
    rewrite (wrap_small (i + 1)) by lia.
    rewrite IH by lia.
    rewrite (seqZ_cons i (Z.of_nat (S todo))) by lia.
    replace (Z.pred (Z.of_nat (S todo))) with (Z.of_nat todo) by lia.
    replace (Z.succ i) with (i + 1) by lia.
    rewrite <- app_assoc. reflexivity.
Qed.

Lemma uniform_nsteps (low high : double) (n : Z) (name : string) :
  uniform.nsteps_ (uniform.make low high n name) = wrap (n + 1).
Proof. reflexivity. Qed.

Lemma uniform_edges_closed_form (low high : double) (n : Z) (name : string) :
  uniform.edges (uniform.make low high n name) = spec_uniform_edges low high n.
Proof.
  unfold uniform.edges, uniform.make, spec_uniform_edges.
  cbn [uniform.edges_].
  pose proof (wrap_range (n + 1)) as Hs.
  rewrite push_steps_closed_form by lia.
  rewrite Z2Nat.id by lia.
  reflexivity.
Qed.

Lemma uniform_edge_count (low high : double) (n : Z) (name : string) :
  vsize (uniform.edges (uniform.make low high n name)) = wrap (n + 1) + 2.
Proof.
  rewrite uniform_edges_closed_form. unfold spec_uniform_edges, vsize.
  pose proof (wrap_range (n + 1)) as Hs.
  cbn [length]. rewrite length_app, length_map, length_seqZ.
  cbn [length]. lia.
Qed.

End Uniform.

(** C5, as amended. The edges of [uniform(low, high, requested)] are minus
    infinity, then [map(range * (k / (steps - 1)) + offset)] for
    k = 0 .. steps - 1, then plus infinity, with [offset = imap(low)] and
    [range = imap(high) - imap(low)]; [nbins()] is [steps + 1]. The counts
    are those of [size_t]: [steps] is [requested + 1] reduced modulo 2^64
    and [nbins()] is [steps + 1] reduced likewise; when [requested + 2] is
    a [size_t] nothing wraps and [nbins()] is [requested + 2]. *)
Theorem uniform_edges_and_bin_count (T : detail.Transformation)
    (low high : double) (requested : Z) (name : string) :
  let u := uniform.make (T := T) low high requested name in
  let steps := wrap (requested + 1) in
  let offset := detail.imap low in
  let range := fsub (detail.imap high) (detail.imap low) in
  uniform.edges u =
    neg_infinity
      :: List.map (fun k => detail.map
                     (fadd (fmul range (fdiv (of_Z k) (of_Z (wrap (steps - 1)))))
                           offset))
           (seqZ 0 steps)
      ++ [infinity] /\
  vsize (uniform.edges u) = steps + 2 /\
  uniform.nbins u = wrap (steps + 1) /\
  (0 <= requested -> requested + 2 <= size_max ->
   steps = requested + 1 /\ wrap (steps - 1) = requested /\
   uniform.nbins u = requested + 2).
Proof.
  intros u steps offset range.
  split; [apply uniform_edges_closed_form |].
  split; [apply uniform_edge_count |].
  split; [reflexivity |].
  intros H0 Hmax.
  assert (Hsteps : steps = requested + 1) by (apply wrap_small; lia).
  split; [exact Hsteps |].
  split.
  - rewrite Hsteps. replace (requested + 1 - 1) with requested by lia.
    apply wrap_small. lia.
  - unfold uniform.nbins, u. rewrite uniform_nsteps. fold steps.
    rewrite Hsteps. rewrite wrap_small; lia.
Qed.

Lemma uniform_edges_and_bin_count_witness :
  (0 <= 11 /\ 11 + 2 <= size_max) /\
  vsize (uniform.edges sample_linear) = 14 /\
  wrap (12 - 1) = 11 /\
  uniform.nbins sample_linear = 13.
Proof.
  assert (H0 : 0 <= 11) by lia.
  assert (Hmax : 11 + 2 <= size_max) by (vm_compute; discriminate).
  split; [split; assumption |].
  destruct (uniform_edges_and_bin_count detail.identity (of_Z 0) (of_Z 10) 11
              "dimension") as (_ & Hcount & _ & Hexact).
  destruct (Hexact H0 Hmax) as (_ & Hlast & Hbins).
  split; [exact Hcount |]. split; [exact Hlast | exact Hbins].
Defined.

(** C5 as stated fails at the largest bin count: with [SIZE_MAX]
    requested bins, which is what [-1] converts to, [steps] wraps to 0, no
    interior edge is generated, and [nbins()] is 1, not
    [requested + 2]. *)
Lemma uniform_with_size_max_bins_has_no_steps :
  size_max = 2 ^ 64 - 1 /\
  uniform.nsteps_ sample_wrapped_linear = 0 /\
  uniform.edges sample_wrapped_linear = [neg_infinity; infinity] /\
  uniform.nbins sample_wrapped_linear = 1 /\
  uniform.nsteps_ sample_wrapped_linear <> size_max + 1 /\
  uniform.nbins sample_wrapped_linear <> size_max + 2.
Proof.
  repeat split; try (vm_compute; reflexivity); vm_compute; discriminate.
Qed.

(** ** Edge counts and bin counts *)

Lemma finite_between_infinities (v : double) :
  is_finite v = true -> fgt v neg_infinity = true /\ flt v infinity = true.
Proof. destruct v; try discriminate; intros _; split; reflexivity. Qed.

(** What the constructor of [general] stores. *)
Lemma general_make_edges (edges : list double) (name : string) (g : general.t) :
  general.make edges name = Ret g ->
  exists front,
    head edges = Some front /\
    general.edges g =
      (if fgt front neg_infinity then [neg_infinity] else [])
      ++ edges
      ++ (if flt (List.last edges front) infinity then [infinity] else []).
Proof.
  destruct edges as [| front tail]; [discriminate |].
  unfold general.make.
  set (back := List.last (front :: tail) front).
  intros H. exists front. split; [reflexivity |].
  destruct (flt back infinity) eqn:E; injection H as <-;
    unfold general.edges; cbn [general.edges_];
    unfold back in E; rewrite E.
  - rewrite <- app_assoc. reflexivity.
  - rewrite app_nil_r. reflexivity.
Qed.

Lemma general_edges_nonempty (edges : list double) (name : string)
    (g : general.t) :
  general.make edges name = Ret g -> 1 <= vsize (general.edges g).
Proof.
  intros H. destruct (general_make_edges _ _ _ H) as (front & Hf & ->).
  destruct edges as [| e tail]; [discriminate |].
  unfold vsize. rewrite !length_app. cbn [length]. lia.
Qed.

Lemma general_finite_edge_three_edges (edges : list double) (name : string)
    (g : general.t) :
  general.make edges name = Ret g ->
  Exists (fun e => is_finite e = true) edges ->
  3 <= vsize (general.edges g).
Proof.
  intros H Hfin. destruct (general_make_edges _ _ _ H) as (front & Hf & ->).
  unfold vsize. rewrite !length_app.
  destruct edges as [| e0 [| e1 [| e2 tail]]]; [discriminate | | |].
  - (* one edge, which is the finite one *)
    injection Hf as ->.
    apply Exists_cons in Hfin as [Hfin | Hfin]; [| inversion Hfin].
    destruct (finite_between_infinities _ Hfin) as [-> Hlt].
    cbn [List.last]. rewrite Hlt. cbn [length]. lia.
  - (* two edges: the finite one draws a sentinel on its side *)
    injection Hf as ->.
    apply Exists_cons in Hfin as [Hfin | Hfin].
    + destruct (finite_between_infinities _ Hfin) as [-> _]. cbn [length]. lia.
    + apply Exists_cons in Hfin as [Hfin | Hfin]; [| inversion Hfin].
      destruct (finite_between_infinities _ Hfin) as [_ Hlt].
      cbn [List.last]. rewrite Hlt. cbn [length]. lia.
  - cbn [length]. lia.
Qed.

(** C3, as amended. For both schemes the edge count is the bin count plus
    one: for [general] built from a non-empty vector, for [uniform] unless
    [requested + 2] is exactly 2^64 (where [nbins()] wraps to 0). The bin
    count is at least 2 for [general] when some supplied edge is finite,
    and for [uniform] when [requested + 2] is a [size_t]. *)
Theorem edge_count_is_bin_count_plus_one :
  (forall (edges : list double) (name : string) (g : general.t),
     general.make edges name = Ret g ->
     vsize (general.edges g) <= size_max ->
     vsize (general.edges g) = general.nbins g + 1 /\
     (Exists (fun e => is_finite e = true) edges -> 2 <= general.nbins g)) /\
  (forall (T : detail.Transformation) (low high : double) (requested : Z)
          (name : string),
     let u := uniform.make (T := T) low high requested name in
     0 <= requested <= size_max ->
     (requested <> size_max - 1 -> vsize (uniform.edges u) = uniform.nbins u + 1) /\
     (requested + 2 <= size_max -> 2 <= uniform.nbins u)).
Proof.
  split.
  - intros edges name g Hmake Hsize.
    pose proof (general_edges_nonempty _ _ _ Hmake) as H1.
    assert (Hn : general.nbins g = vsize (general.edges g) - 1).
    { unfold general.nbins. apply wrap_small. unfold general.edges in *. lia. }
    split; [lia |].
    intros Hfin.
    pose proof (general_finite_edge_three_edges _ _ _ Hmake Hfin). lia.
  - intros T low high requested name u Hreq.
    unfold u. rewrite uniform_edge_count.
    unfold uniform.nbins. rewrite uniform_nsteps.
    unfold size_max, size_bits in *.
    split.
    + intros Hne.
      destruct (Z.eq_dec requested (2 ^ 64 - 1)) as [-> | Hne'].
      * vm_compute. reflexivity.
      * rewrite (wrap_small (requested + 1)) by (unfold size_max, size_bits; lia).
        rewrite wrap_small by (unfold size_max, size_bits; lia). lia.
    + intros Hmax.
      rewrite (wrap_small (requested + 1)) by (unfold size_max, size_bits; lia).
      rewrite wrap_small by (unfold size_max, size_bits; lia). lia.
Qed.

Lemma edge_count_is_bin_count_plus_one_witness :
  (general.make [of_Z 0; of_Z 1; of_Z 2] "general" = Ret sample_general /\
   vsize (general.edges sample_general) <= size_max /\
   Exists (fun e => is_finite e = true) [of_Z 0; of_Z 1; of_Z 2] /\
   0 <= 11 <= size_max /\ 11 <> size_max - 1 /\ 11 + 2 <= size_max) /\
  (vsize (general.edges sample_general) = general.nbins sample_general + 1 /\
   2 <= general.nbins sample_general) /\
  (vsize (uniform.edges sample_linear) = uniform.nbins sample_linear + 1 /\
   2 <= uniform.nbins sample_linear).
Proof.
  assert (Hmake : general.make [of_Z 0; of_Z 1; of_Z 2] "general"
                  = Ret sample_general) by reflexivity.
  assert (Hsize : vsize (general.edges sample_general) <= size_max)
    by (vm_compute; discriminate).
  assert (Hfin : Exists (fun e => is_finite e = true) [of_Z 0; of_Z 1; of_Z 2])
    by (apply Exists_cons_hd; reflexivity).
  assert (Hreq : 0 <= 11 <= size_max) by (split; vm_compute; discriminate).
  assert (Hne : 11 <> size_max - 1) by (vm_compute; discriminate).
  assert (Hmax : 11 + 2 <= size_max) by (vm_compute; discriminate).
  split; [repeat split; try assumption; apply Hreq |].
  destruct edge_count_is_bin_count_plus_one as [Hgeneral Huniform].
  destruct (Hgeneral _ _ _ Hmake Hsize) as [Hg1 Hg2].
  destruct (Huniform detail.identity (of_Z 0) (of_Z 10) 11 "dimension"%string Hreq)
    as [Hu1 Hu2].
  split; [split; [exact Hg1 | exact (Hg2 Hfin)] |].
  split; [exact (Hu1 Hne) | exact (Hu2 Hmax)].
Defined.

(** C3 as stated fails: the constructor of [general] adds a sentinel only
    where the caller's edge is not already infinite, so the two edges
    minus infinity and plus infinity make a scheme of one bin; and
    [uniform] with [SIZE_MAX] requested bins has one bin as well. *)
Lemma schemes_with_a_single_bin :
  (exists g : general.t,
     general.make [neg_infinity; infinity] "" = Ret g /\
     vsize (general.edges g) = 2 /\ general.nbins g = 1) /\
  (vsize (uniform.edges sample_wrapped_linear) = 2 /\
   uniform.nbins sample_wrapped_linear = 1) /\
  ~ (forall (edges : list double) (name : string) (g : general.t),
       general.make edges name = Ret g -> 2 <= general.nbins g).
Proof.
  split; [eexists; split; [reflexivity | split; reflexivity] |].
  split; [split; reflexivity |].
  intros H.
  specialize (H [neg_infinity; infinity] ""%string _ eq_refl).
  vm_compute in H. apply H. reflexivity.
Qed.

(** ** The bin index of the equispaced scheme *)

Lemma wrap_sub_l (a b : Z) : wrap (wrap a - b) = wrap (a - b).
Proof. unfold wrap. apply Zminus_mod_idemp_l. Qed.

(** The index of the last bin, as [index] computes it from the edges. *)
Lemma uniform_last_bin (T : detail.Transformation) (low high : double)
    (requested : Z) (name : string) :
  let u := uniform.make (T := T) low high requested name in
  wrap (vsize (uniform.edges_ u) - 2) = wrap (uniform.nbins u - 1) /\
  wrap (vsize (uniform.edges_ u) - 2) = wrap (requested + 1).
Proof.
  intros u.
  assert (H : wrap (vsize (uniform.edges_ u) - 2) = wrap (requested + 1)).
  { change (uniform.edges_ u) with (uniform.edges u). unfold u.
    rewrite uniform_edge_count.
    replace (wrap (requested + 1) + 2 - 2) with (wrap (requested + 1)) by lia.
    apply wrap_wrap. }
  split; [| exact H].
  rewrite H. unfold uniform.nbins, u. rewrite uniform_nsteps.
  rewrite wrap_sub_l.
  replace (wrap (requested + 1) + 1 - 1) with (wrap (requested + 1)) by lia.
  symmetry. apply wrap_wrap.
Qed.

(** C4, as amended. [index(v)] is 0 when [v < min], [bin_count() - 1] when
    [v >= max], and [floor((steps - 1) * u) + 1] otherwise, with
    [u = (imap(v) - imap(low)) / (imap(high) - imap(low))]; the thresholds
    are the cached [min = map(0 * range + offset)] and
    [max = map(1 * range + offset)], whatever the transformation. They can
    be read as [low] and [high] when that round trip is exact. *)
Theorem uniform_index_by_cached_bounds (T : detail.Transformation)
    (low high : double) (requested : Z) (name : string) (v : double) :
  let u := uniform.make (T := T) low high requested name in
  uniform.min_ u = cached_min low high /\
  uniform.max_ u = cached_max low high /\
  uniform.index u v =
    spec_uniform_index (cached_min low high) (cached_max low high)
      low high requested v /\
  (cached_min low high = low -> cached_max low high = high ->
   uniform.index u v = spec_uniform_index low high low high requested v).
Proof.
  intros u.
  assert (H : uniform.index u v =
              spec_uniform_index (cached_min low high) (cached_max low high)
                low high requested v).
  { unfold uniform.index, spec_uniform_index.
    destruct (uniform_last_bin T low high requested name) as [Hlast _].
    fold u in Hlast. rewrite Hlast.
    reflexivity. }
  split; [reflexivity |]. split; [reflexivity |]. split; [exact H |].
  intros Hmin Hmax. rewrite H, Hmin, Hmax. reflexivity.
Qed.

Lemma uniform_index_by_cached_bounds_witness :
  (cached_min (T := detail.identity) (of_Z 0) (of_Z 10) = of_Z 0 /\
   cached_max (T := detail.identity) (of_Z 0) (of_Z 10) = of_Z 10) /\
  uniform.index (T := detail.identity) sample_linear (of_Z 5) =
    spec_uniform_index (T := detail.identity)
      (of_Z 0) (of_Z 10) (of_Z 0) (of_Z 10) 11 (of_Z 5).
Proof.
  assert (Hmin : cached_min (T := detail.identity) (of_Z 0) (of_Z 10) = of_Z 0)
    by (vm_compute; reflexivity).
  assert (Hmax : cached_max (T := detail.identity) (of_Z 0) (of_Z 10) = of_Z 10)
    by (vm_compute; reflexivity).
  split; [split; assumption |].
  destruct (uniform_index_by_cached_bounds detail.identity (of_Z 0) (of_Z 10)
              11 "dimension"%string (of_Z 5)) as (_ & _ & _ & H).
  exact (H Hmin Hmax).
Defined.

(** C4 as stated fails: the thresholds are not [low] and [high].
    With [power<2>] between 2 and 3, [min] is the square of the rounded
    square root of 2, the double above 2, so that 2 itself, which is not
    below [low], goes to the underflow bin instead of bin 1. With the
    identity between -2^1023 and 2^1023 the range overflows to infinity,
    [min] is NaN, and a finite value below [low] goes to bin 1 instead of
    the underflow bin. *)
Lemma uniform_index_not_by_low_and_high :
  (flt (of_Z 2) (of_Z 3) = true /\
   flt (of_Z 2) (of_Z 2) = false /\ fge (of_Z 2) (of_Z 3) = false /\
   flt (of_Z 2) (uniform.min_ sample_sqrt) = true /\
   uniform.index (T := detail.power2) sample_sqrt (of_Z 2) = Ret 0 /\
   spec_uniform_index (T := detail.power2)
     (of_Z 2) (of_Z 3) (of_Z 2) (of_Z 3) 1 (of_Z 2) = Ret 1) /\
  (flt (of_Z (- 2 ^ 1023)) (of_Z (2 ^ 1023)) = true /\
   flt (of_Z (- 3 * 2 ^ 1022)) (of_Z (- 2 ^ 1023)) = true /\
   uniform.min_ sample_huge_linear = NaN /\
   uniform.index (T := detail.identity) sample_huge_linear (of_Z (- 3 * 2 ^ 1022))
     = Ret 1 /\
   spec_uniform_index (T := detail.identity)
     (of_Z (- 2 ^ 1023)) (of_Z (2 ^ 1023)) (of_Z (- 2 ^ 1023)) (of_Z (2 ^ 1023))
     1 (of_Z (- 3 * 2 ^ 1022)) = Ret 0).
Proof.
  split; repeat split; vm_compute; reflexivity.
Qed.

(** ** Rounding to nearest *)

Lemma loc_exact_iff (mrs : shr_record) :
  loc_of_shr_record mrs = loc_Exact <-> is_exact mrs.
Proof.
  destruct mrs as [m [|] [|]]; unfold is_exact; cbn; split;
    try discriminate; try tauto; intros [? ?]; discriminate.
Qed.

Lemma shr_1_shifted (x : shr_record) : shifted 1 x (shr_1 x).
Proof.
  destruct x as [m r s]. unfold shifted, is_exact. cbn [shr_m].
  intros Hm. change (2 ^ 1) with 2.
  destruct m as [| [p | p |] | p]; try lia; cbn [shr_1 shr_m shr_r shr_s].
  - rewrite (Z.div_small 0 2), (Z.mod_small 0 2) by lia.
    split; [reflexivity |]. rewrite orb_false_iff. tauto.
  - rewrite (Pos2Z.inj_xI p).
    replace (2 * Z.pos p + 1) with (1 + Z.pos p * 2) by lia.
    rewrite Z.div_add, Z.mod_add by lia.
    rewrite (Z.div_small 1 2), (Z.mod_small 1 2) by lia.
    split; [lia |]. split; [intros [? ?]; discriminate | intros [? ?]; lia].
  - rewrite (Pos2Z.inj_xO p).
    replace (2 * Z.pos p) with (0 + Z.pos p * 2) by lia.
    rewrite Z.div_add, Z.mod_add by lia.
    rewrite (Z.div_small 0 2), (Z.mod_small 0 2) by lia.
    split; [lia |]. rewrite orb_false_iff. tauto.
  - rewrite (Z.div_small 1 2), (Z.mod_small 1 2) by lia.
    split; [reflexivity |].
    split; [intros [? ?]; discriminate | intros [? ?]; lia].
Qed.

Lemma shifted_compose (a b : Z) (x y z : shr_record) :
  0 <= a -> 0 <= b ->
  shifted a x y -> shifted b y z -> shifted (a + b) x z.
Proof.
  unfold shifted. intros Ha Hb Hxy Hyz Hx.
  destruct (Hxy Hx) as [Hy Hey].
  assert (Hpa : 0 < 2 ^ a) by (apply Z.pow_pos_nonneg; lia).
  assert (Hpb : 0 < 2 ^ b) by (apply Z.pow_pos_nonneg; lia).
  assert (Hy0 : 0 <= shr_m y).
  { rewrite Hy. apply Z.div_pos; lia. }
  destruct (Hyz Hy0) as [Hz Hez].
  rewrite Z.pow_add_r by lia.
  split.
  - rewrite Hz, Hy. apply Z.div_div; lia.
  - rewrite Hez, Hey, Hy.
    rewrite Z.rem_mul_r by lia.
    pose proof (Z.mod_pos_bound (shr_m x) (2 ^ a) Hpa).
    pose proof (Z.mod_pos_bound (shr_m x / 2 ^ a) (2 ^ b) Hpb).
    split.
    + intros (H1 & H2 & H3). split; [| exact H3]. rewrite H1, H2. lia.
    + intros (H1 & H3). split; [| split; [| exact H3]]; nia.
Qed.

Lemma iter_shr_1_shifted (p : positive) (x : shr_record) :
  shifted (Z.pos p) x (SpecFloat.iter_pos shr_1 p x).
Proof.
  revert x. induction p as [p IH | p IH |]; intros x; cbn [SpecFloat.iter_pos].
  - rewrite (Pos2Z.inj_xI p).
    replace (2 * Z.pos p + 1) with (1 + (Z.pos p + Z.pos p)) by lia.
    eapply shifted_compose; [lia | lia | apply shr_1_shifted |].
    eapply shifted_compose; [lia | lia | apply IH | apply IH].
  - rewrite (Pos2Z.inj_xO p).
    replace (2 * Z.pos p) with (Z.pos p + Z.pos p) by lia.
    eapply shifted_compose; [lia | lia | apply IH | apply IH].
  - apply shr_1_shifted.
Qed.

Lemma digits_lower_bound (p : positive) :
  2 ^ (Z.pos (digits2_pos p) - 1) <= Z.pos p.
Proof.
  induction p as [p IH | p IH |]; cbn [digits2_pos].
  - rewrite Pos2Z.inj_succ, (Pos2Z.inj_xI p).
    replace (Z.succ (Z.pos (digits2_pos p)) - 1)
      with (Z.succ (Z.pos (digits2_pos p) - 1)) by lia.
    rewrite Z.pow_succ_r by lia.
    set (q := 2 ^ _) in *. clearbody q. lia.
  - rewrite Pos2Z.inj_succ, (Pos2Z.inj_xO p).
    replace (Z.succ (Z.pos (digits2_pos p)) - 1)
      with (Z.succ (Z.pos (digits2_pos p) - 1)) by lia.
    rewrite Z.pow_succ_r by lia.
    set (q := 2 ^ _) in *. clearbody q. lia.
  - cbn. lia.
Qed.

(** A mantissa below [2^k] has at most [k] digits. *)
Lemma digits_at_most (p : positive) (k : Z) :
  0 <= k -> Z.pos p < 2 ^ k -> Z.pos (digits2_pos p) <= k.
Proof.
  intros Hk Hp. pose proof (digits_lower_bound p) as Hlow.
  destruct (Z_le_gt_dec (Z.pos (digits2_pos p)) k) as [H | H]; [exact H |].
  exfalso.
  assert (2 ^ k <= 2 ^ (Z.pos (digits2_pos p) - 1))
    by (apply Z.pow_le_mono_r; lia).
  lia.
Qed.

Lemma digits_upper_bound (p : positive) :
  Z.pos p < 2 ^ Z.pos (digits2_pos p).
Proof.
  induction p as [p IH | p IH |]; cbn [digits2_pos].
  - rewrite Pos2Z.inj_succ, (Pos2Z.inj_xI p), Z.pow_succ_r by lia.
    set (q := 2 ^ _) in *. clearbody q. lia.
  - rewrite Pos2Z.inj_succ, (Pos2Z.inj_xO p), Z.pow_succ_r by lia.
    set (q := 2 ^ _) in *. clearbody q. lia.
  - reflexivity.
Qed.

Lemma round_nearest_even_bounds (m : Z) (mrs : shr_record) :
  m <= round_nearest_even m (loc_of_shr_record mrs) <= m + 1 /\
  (is_exact mrs -> round_nearest_even m (loc_of_shr_record mrs) = m).
Proof.
  destruct mrs as [m0 [|] [|]]; unfold is_exact; cbn;
    try destruct (Z.even m); split; try lia; try reflexivity;
    intros [? ?]; discriminate.
Qed.

Lemma fexp_unfold (z : Z) : fexp prec emax z = Z.max (z - 53) (-1074).
Proof. reflexivity. Qed.

Lemma pow2_pos (k : Z) : 0 <= k -> 0 < 2 ^ k.
Proof. intros H. apply Z.pow_pos_nonneg; lia. Qed.

(** The digits of a mantissa on the grid of [n < 2^53]. *)
Lemma below_digits (n m e : Z) :
  0 < n < 2 ^ 53 -> below n m e -> Zdigits2 m + e - 53 <= 0.
Proof.
  intros Hn [He [Hm0 Hm]].
  destruct m as [| q | q]; cbn [Zdigits2]; [lia | | lia].
  assert (Z.pos (digits2_pos q) <= 53 - e); [| lia].
  apply digits_at_most; [lia |].
  replace (53 - e) with (53 + - e) by lia.
  rewrite Z.pow_add_r by lia.
  pose proof (pow2_pos (- e) ltac:(lia)) as Hp.
  set (t := 2 ^ (- e)) in *. clearbody t. nia.
Qed.

(** One rounding stage keeps the value at or below [n]: the shifted
    mantissa, and the mantissa rounded to nearest, stay on the grid. *)
Lemma shr_fexp_below (n m e : Z) :
  0 < n < 2 ^ 53 -> below n m e ->
  below n (shr_m (fst (shr_fexp prec emax m e loc_Exact)))
          (snd (shr_fexp prec emax m e loc_Exact)) /\
  below n (round_nearest_even
             (shr_m (fst (shr_fexp prec emax m e loc_Exact)))
             (loc_of_shr_record (fst (shr_fexp prec emax m e loc_Exact))))
          (snd (shr_fexp prec emax m e loc_Exact)).
Proof.
  intros Hn Hbelow.
  pose proof (below_digits n m e Hn Hbelow) as Hdigits.
  destruct Hbelow as [He [Hm0 Hm]].
  unfold shr_fexp. rewrite fexp_unfold.
  cbn [shr_record_of_loc].
  set (x := {| shr_m := m; shr_r := false; shr_s := false |}).
  assert (Hx : is_exact x) by (split; reflexivity).
  set (sh := Z.max (Zdigits2 m + e - 53) (-1074) - e).
  assert (Hsh : e + sh <= 0) by (unfold sh; lia).
  unfold shr.
  destruct sh as [| p | p] eqn:Hp; cbn [fst snd].
  1, 3: destruct (round_nearest_even_bounds (shr_m x) x) as [_ Hr];
        rewrite (Hr Hx); cbn [shr_m x]; repeat split; assumption || lia.
  destruct (iter_shr_1_shifted p x Hm0) as [Hq Hexact].
  cbn [shr_m x] in Hq, Hexact.
  set (y := SpecFloat.iter_pos shr_1 p x) in *.
  pose proof (pow2_pos (Z.pos p) ltac:(lia)) as Hpp.
  pose proof (pow2_pos (- (e + Z.pos p)) ltac:(lia)) as Hpe.
  assert (Hsplit : 2 ^ (- e) = 2 ^ (- (e + Z.pos p)) * 2 ^ Z.pos p).
  { rewrite <- Z.pow_add_r by lia. f_equal. lia. }
  rewrite Hsplit in Hm.
  set (N := n * 2 ^ (- (e + Z.pos p))) in *.
  assert (Hm' : m <= N * 2 ^ Z.pos p) by (unfold N; lia).
  assert (Hy0 : 0 <= shr_m y) by (rewrite Hq; apply Z.div_pos; lia).
  assert (HyN : shr_m y <= N).
  { rewrite Hq. apply Z.div_le_upper_bound; lia. }
  split; [repeat split; assumption |].
  destruct (round_nearest_even_bounds (shr_m y) y) as [Hr1 Hr2].
  split; [exact Hsh |]. split; [lia |].
  destruct (Z.eq_dec (m mod 2 ^ Z.pos p) 0) as [Hmod | Hmod].
  - rewrite Hr2; [exact HyN |]. apply Hexact. split; assumption.
  - assert (shr_m y < N); [| lia].
    rewrite Hq. apply Z.div_lt_upper_bound; [lia |].
    destruct (Z.eq_dec m (N * 2 ^ Z.pos p)) as [-> | Hne]; [| lia].
    rewrite Z.mod_mul in Hmod by lia. contradiction.
Qed.

(** Rounding a value at or below the integer [n < 2^53] gives a double at
    or below [n]. *)
Lemma binary_round_aux_at_most (n m e : Z) :
  0 < n < 2 ^ 53 -> below n m e ->
  at_most n (binary_round_aux prec emax false m e loc_Exact).
Proof.
  intros Hn Hbelow.
  unfold binary_round_aux.
  destruct (shr_fexp_below n m e Hn Hbelow) as [_ H1].
  destruct (shr_fexp prec emax m e loc_Exact) as [mrs' e'].
  cbn [fst snd] in H1.
  destruct (shr_fexp_below n _ _ Hn H1) as [H2 _].
  destruct (shr_fexp prec emax _ e' loc_Exact) as [mrs'' e''].
  cbn [fst snd] in H2.
  destruct H2 as [He [Hm0 Hm]].
  destruct (shr_m mrs'') as [| q | q] eqn:Hq; [exact I | | lia].
  destruct (Z.leb_spec e'' (emax - prec)) as [_ | Hbig].
  - repeat split; assumption.
  - unfold emax, prec in Hbig. lia.
Qed.

(** A mantissa below 2^53 with an exponent in range is left as it is. *)
Lemma binary_round_aux_exact (m : positive) (e : Z) :
  Z.pos m < 2 ^ 53 -> -1074 <= e <= 971 ->
  binary_round_aux prec emax false (Z.pos m) e loc_Exact = S754_finite false m e.
Proof.
  intros Hm He.
  assert (Hd : Z.pos (digits2_pos m) <= 53) by (apply digits_at_most; lia).
  assert (Hshr : shr_fexp prec emax (Z.pos m) e loc_Exact
                 = ({| shr_m := Z.pos m; shr_r := false; shr_s := false |}, e)).
  { unfold shr_fexp. rewrite fexp_unfold. cbn [Zdigits2 shr_record_of_loc].
    unfold shr.
    destruct (Z.max (Z.pos (digits2_pos m) + e - 53) (-1074) - e) eqn:Hsh;
      try reflexivity; lia. }
  unfold binary_round_aux. rewrite Hshr.
  cbn [shr_m loc_of_shr_record round_nearest_even]. rewrite Hshr.
  cbn [shr_m].
  destruct (Z.leb_spec e (emax - prec)) as [_ | Hbig]; [reflexivity |].
  unfold emax, prec in Hbig. lia.
Qed.

Lemma iter_xO (p d : positive) :
  Z.pos (Pos.iter xO p d) = Z.pos p * 2 ^ Z.pos d.
Proof.
  induction d as [| d IH] using Pos.peano_ind.
  - cbn [Pos.iter]. rewrite (Pos2Z.inj_xO p). change (2 ^ 1) with 2. lia.
  - rewrite Pos.iter_succ, (Pos2Z.inj_xO (Pos.iter xO p d)), IH.
    rewrite Pos2Z.inj_succ, Z.pow_succ_r by lia. lia.
Qed.

(** Integers below 2^53 convert to a double without rounding. *)
Lemma of_Z_exact (z : Z) :
  0 < z < 2 ^ 53 ->
  exists (m : positive) (e : Z),
    of_Z z = S754_finite false m e /\ -52 <= e <= 0 /\
    Z.pos m = z * 2 ^ (- e).
Proof.
  intros Hz. destruct z as [| q | q]; try lia.
  unfold of_Z, binary_normalize, binary_round.
  rewrite fexp_unfold.
  pose proof (digits_upper_bound q) as Hup.
  assert (Hd : Z.pos (digits2_pos q) <= 53) by (apply digits_at_most; lia).
  assert (Hd1 : 1 <= Z.pos (digits2_pos q)) by lia.
  set (d := Z.pos (digits2_pos q)) in *.
  replace (Z.max (d + 0 - 53) (-1074)) with (d - 53) by lia.
  unfold shl_align.
  destruct (d - 53 - 0) as [| k | k] eqn:Hk; try lia.
  - exists q, 0. rewrite binary_round_aux_exact by lia.
    split; [reflexivity |]. split; [lia |]. change (2 ^ (- 0)) with 1. lia.
  - exists (Pos.iter xO q k), (d - 53).
    assert (Hval : Z.pos (Pos.iter xO q k) = Z.pos q * 2 ^ (- (d - 53))).
    { rewrite iter_xO. f_equal. f_equal. lia. }
    rewrite binary_round_aux_exact.
    + split; [reflexivity |]. split; [lia | exact Hval].
    + rewrite Hval.
      assert (Hsplit : 2 ^ 53 = 2 ^ d * 2 ^ (- (d - 53))).
      { rewrite <- Z.pow_add_r by lia. f_equal. lia. }
      rewrite Hsplit.
      pose proof (pow2_pos (- (d - 53)) ltac:(lia)).
      apply Z.mul_lt_mono_pos_r; assumption.
    + lia.
Qed.

Lemma to_size_t_of_Z (z : Z) :
  0 < z < 2 ^ 53 -> to_size_t (of_Z z) = Ret z.
Proof.
  intros Hz. destruct (of_Z_exact z Hz) as (m & e & -> & He & Hm).
  unfold to_size_t. cbn [cond_Zopp].
  pose proof (pow2_pos (- e) ltac:(lia)) as Hp.
  assert (Ht : (if 0 <=? e then Z.pos m * 2 ^ e
                else Z.quot (Z.pos m) (2 ^ (- e))) = z).
  { destruct (Z.leb_spec 0 e) as [H0 | H0].
    - assert (e = 0) as -> by lia. change (2 ^ (- 0)) with 1 in Hm.
      change (2 ^ 0) with 1. lia.
    - rewrite Hm. apply Z.quot_mul. lia. }
  rewrite Ht.
  assert (Hsmall : (0 <=? z) && (z <=? size_max) = true).
  { apply andb_true_iff. split; [apply Z.leb_le; lia |].
    apply Z.leb_le. unfold size_max, size_bits. lia. }
  rewrite Hsmall. reflexivity.
Qed.

(** The floor of a double at or below [n] converts to an integer at or
    below [n]. *)
Lemma floor_at_most (n : Z) (r : double) :
  0 < n < 2 ^ 53 -> at_most n r ->
  exists k, to_size_t (ffloor r) = Ret k /\ 0 <= k <= n.
Proof.
  intros Hn Hr.
  destruct r as [s | s | | [|] m e]; cbn [at_most] in Hr; try contradiction.
  - exists 0. split; [reflexivity | lia].
  - destruct Hr as [He [_ Hm]].
    pose proof (pow2_pos (- e) ltac:(lia)) as Hp.
    unfold ffloor.
    destruct (Z.leb_spec 0 e) as [H0 | H0].
    + assert (e = 0) as -> by lia. change (2 ^ (- 0)) with 1 in Hm.
      exists (Z.pos m). unfold to_size_t. cbn [cond_Zopp].
      change (0 <=? 0) with true. cbv iota. change (2 ^ 0) with 1.
      rewrite Z.mul_1_r.
      assert (Hsmall : (0 <=? Z.pos m) && (Z.pos m <=? size_max) = true).
      { apply andb_true_iff. split; [apply Z.leb_le; lia |].
        apply Z.leb_le. unfold size_max, size_bits. lia. }
      rewrite Hsmall. split; [reflexivity | lia].
    + unfold floor_finite. cbn [cond_Zopp].
      assert (Hq0 : 0 <= Z.pos m / 2 ^ (- e)) by (apply Z.div_pos; lia).
      assert (Hqn : Z.pos m / 2 ^ (- e) <= n)
        by (apply Z.div_le_upper_bound; lia).
      destruct (Z.eqb_spec (Z.pos m / 2 ^ (- e)) 0) as [Hz | Hz].
      * exists 0. split; [reflexivity | lia].
      * exists (Z.pos m / 2 ^ (- e)).
        rewrite to_size_t_of_Z by lia. split; [reflexivity | lia].
Qed.

Lemma of_Z_one : of_Z 1 = one.
Proof. vm_compute. reflexivity. Qed.

(** ** Sizes, strides and flat offsets *)

Lemma product_cons (x : Z) (l : list Z) : product (x :: l) = x * product l.
Proof. reflexivity. Qed.

Lemma size_is_wrapped_product (dims : list dimension) :
  histogram_impl.size dims = wrap (product (dim_nbins <$> dims)).
Proof.
  induction dims as [| d ts IH].
  - reflexivity.
  - cbn [histogram_impl.size fmap list_fmap]. rewrite product_cons, IH.
    apply wrap_mul_r.
Qed.

Lemma product_nbins_nonneg (dims : list dimension) :
  0 <= product (dim_nbins <$> dims).
Proof.
  induction dims as [| d ts IH]; [cbn; lia |].
  cbn [fmap list_fmap]. rewrite product_cons.
  assert (0 <= dim_nbins d) by (destruct d; apply wrap_range).
  nia.
Qed.

Lemma size_is_product (dims : list dimension) :
  product (dim_nbins <$> dims) <= size_max ->
  histogram_impl.size dims = product (dim_nbins <$> dims).
Proof.
  intros H. rewrite size_is_wrapped_product. apply wrap_small.
  pose proof (product_nbins_nonneg dims). lia.
Qed.

Lemma stride_is_size_of_tail (dims : list dimension) (i : nat) (d : dimension) :
  dims !! i = Some d ->
  histogram_impl.stride (drop i dims) = histogram_impl.size (drop (S i) dims).
Proof.
  revert i. induction dims as [| d0 ts IH]; intros [| i]; try discriminate.
  - intros _. cbn. rewrite drop_0. reflexivity.
  - cbn [lookup list_lookup drop]. apply IH.
Qed.

Lemma index_is_wrapped_sum (dims : list dimension) (args : list double)
    (idxs : list Z) :
  indexed dims args idxs ->
  histogram_impl.index dims args = Ret (wrap (offset_sum idxs dims)).
Proof.
  induction 1 as [| d v i ts tail rest Hi _ IH].
  - reflexivity.
  - cbn [histogram_impl.index offset_sum]. rewrite Hi, IH.
    cbn [bind]. f_equal.
    rewrite wrap_add_l, wrap_add_r. reflexivity.
Qed.

Lemma index_has_indices (dims : list dimension) (args : list double) (off : Z) :
  histogram_impl.index dims args = Ret off ->
  exists idxs, indexed dims args idxs /\ off = wrap (offset_sum idxs dims).
Proof.
  revert args off. induction dims as [| d ts IH]; intros [| v tail] off;
    cbn [histogram_impl.index]; try discriminate.
  - intros [= <-]. exists []. split; [constructor | reflexivity].
  - destruct (dim_index d v) as [i | | | |] eqn:Hi; cbn [bind]; try discriminate.
    destruct (histogram_impl.index ts tail) as [rest | | | |] eqn:Hrest;
      cbn [bind]; try discriminate.
    intros [= <-].
    destruct (IH tail rest Hrest) as (idxs & Hidxs & ->).
    exists (i :: idxs). split; [constructor; assumption |].
    cbn [offset_sum]. rewrite wrap_add_l, wrap_add_r. reflexivity.
Qed.

(** Indices below their bin counts: a mixed-radix number below the
    product of the radices. *)
Lemma offset_sum_below_product (dims : list dimension) (idxs : list Z) :
  Forall2 (fun d i => 0 <= i < dim_nbins d) dims idxs ->
  product (dim_nbins <$> dims) <= size_max ->
  0 <= offset_sum idxs dims < product (dim_nbins <$> dims).
Proof.
  induction 1 as [| d i ts rest Hi _ IH]; intros Hmax.
  - cbn. lia.
  - cbn [fmap list_fmap] in Hmax |- *. rewrite product_cons in Hmax |- *.
    pose proof (product_nbins_nonneg ts) as Hts.
    assert (Hsmall : product (dim_nbins <$> ts) <= size_max) by nia.
    specialize (IH Hsmall).
    cbn [offset_sum histogram_impl.stride].
    rewrite (size_is_product ts Hsmall).
    nia.
Qed.

Lemma indexed_in_range_split (dims : list dimension) (args : list double)
    (idxs : list Z) :
  indexed_in_range dims args idxs ->
  indexed dims args idxs /\
  Forall2 (fun d i => 0 <= i < dim_nbins d) dims idxs /\
  length args = length dims.
Proof.
  induction 1 as [| d v i ts tail rest [Hi Hr] _ (IH1 & IH2 & IH3)].
  - repeat split; constructor.
  - repeat split; try (constructor; assumption). cbn. congruence.
Qed.

(** With every index below its bin count and a product of bin counts that
    fits [size_t], nothing wraps and the offset is below [size()]. *)
Lemma index_in_range (dims : list dimension) (args : list double)
    (idxs : list Z) :
  indexed_in_range dims args idxs ->
  product (dim_nbins <$> dims) <= size_max ->
  histogram_impl.index dims args = Ret (offset_sum idxs dims) /\
  0 <= offset_sum idxs dims < histogram_impl.size dims.
Proof.
  intros H Hmax.
  destruct (indexed_in_range_split _ _ _ H) as (Hidx & Hrange & _).
  pose proof (offset_sum_below_product _ _ Hrange Hmax) as Hsum.
  rewrite (size_is_product _ Hmax).
  split; [| exact Hsum].
  rewrite (index_is_wrapped_sum _ _ _ Hidx). f_equal.
  apply wrap_small. lia.
Qed.

(** C6, as amended. [size()] is the product of the bin counts of all
    dimensions; the stride of dimension [i] is the product of the bin
    counts of the dimensions after [i] (the last dimension has stride 1);
    the flat offset of a coordinate tuple is the sum over the dimensions of
    (that dimension's index) x (its stride). Products and sums are those of
    [size_t], reduced modulo 2^64; they are the plain integers whenever the
    product of the bin counts fits [size_t] and every index is below its
    bin count. *)
Theorem size_stride_and_offset (dims : list dimension) :
  histogram_impl.size dims = wrap (product (dim_nbins <$> dims)) /\
  (forall (i : nat) (d : dimension),
     dims !! i = Some d ->
     histogram_impl.stride (drop i dims)
       = wrap (product (dim_nbins <$> drop (S i) dims))) /\
  (forall (args : list double) (idxs : list Z),
     indexed dims args idxs ->
     histogram_impl.index dims args = Ret (wrap (offset_sum idxs dims))) /\
  (forall (args : list double) (off : Z),
     histogram_impl.index dims args = Ret off ->
     exists idxs, indexed dims args idxs /\ off = wrap (offset_sum idxs dims)) /\
  (product (dim_nbins <$> dims) <= size_max ->
   histogram_impl.size dims = product (dim_nbins <$> dims) /\
   forall (args : list double) (idxs : list Z),
     indexed_in_range dims args idxs ->
     histogram_impl.index dims args = Ret (offset_sum idxs dims)).
Proof.
  split; [apply size_is_wrapped_product |].
  split.
  { intros i d Hd. rewrite (stride_is_size_of_tail _ _ _ Hd).
    apply size_is_wrapped_product. }
  split; [apply index_is_wrapped_sum |].
  split; [apply index_has_indices |].
  intros Hmax. split; [apply size_is_product; exact Hmax |].
  intros args idxs H. apply (index_in_range _ _ _ H Hmax).
Qed.

Lemma size_stride_and_offset_witness :
  (product (dim_nbins <$> histogram.dims sample_histogram) <= size_max /\
   indexed_in_range (histogram.dims sample_histogram) [of_Z 1; of_Z 1] [2; 2]) /\
  histogram_impl.size (histogram.dims sample_histogram) = 13 * 4 /\
  histogram_impl.index (histogram.dims sample_histogram) [of_Z 1; of_Z 1]
    = Ret (2 * 4 + 2 * 1).
Proof.
  assert (Hmax : product (dim_nbins <$> histogram.dims sample_histogram)
                 <= size_max) by (vm_compute; discriminate).
  assert (Hidx : indexed_in_range (histogram.dims sample_histogram)
                   [of_Z 1; of_Z 1] [2; 2]).
  { repeat constructor; vm_compute; congruence. }
  split; [split; assumption |].
  destruct (size_stride_and_offset (histogram.dims sample_histogram))
    as (_ & _ & _ & _ & Hexact).
  destruct (Hexact Hmax) as [Hsize Hindex].
  split; [exact Hsize | exact (Hindex _ _ Hidx)].
Defined.

(** C6 as stated fails once the product leaves [size_t]: eight dimensions
    of 256 bins have 2^64 bins between them, and [size()] is 0; the stride
    of the first dimension is 2^56, as it should be. *)
Lemma size_of_wide_histogram_wraps :
  histogram.shape sample_wide_histogram = replicate 8 256 /\
  product (dim_nbins <$> histogram.dims sample_wide_histogram) = 2 ^ 64 /\
  histogram_impl.stride (histogram.dims sample_wide_histogram) = 2 ^ 56 /\
  histogram_impl.size (histogram.dims sample_wide_histogram) = 0 /\
  histogram_impl.size (histogram.dims sample_wide_histogram)
    <> product (dim_nbins <$> histogram.dims sample_wide_histogram).
Proof.
  repeat split; try (vm_compute; reflexivity); vm_compute; discriminate.
Qed.

(** ** Rejected and accepted coordinates *)

Lemma valid_some_nan (dims : list dimension) (args : list double) :
  some_nan args -> histogram_impl.valid dims args = false.
Proof.
  intros H. revert dims.
  induction H as [v tail Hv | v tail _ IH]; intros [| d ts]; simpl; trivial.
  - rewrite Hv. reflexivity.
  - rewrite IH. apply andb_false_r.
Qed.

Lemma valid_no_nan (dims : list dimension) (args : list double) :
  length args = length dims -> no_nan args ->
  histogram_impl.valid dims args = true.
Proof.
  intros Hlen H. revert dims Hlen.
  induction H as [| v tail Hv _ IH]; intros [| d ts] Hlen;
    simpl in *; try discriminate; trivial.
  rewrite Hv. simpl. apply IH. congruence.
Qed.

Lemma at_in_range {A : Type} (v : list A) (n : Z) (x : A) :
  v !! Z.to_nat n = Some x -> 0 <= n -> at_ v n = Ret x.
Proof.
  intros Hx Hn. unfold at_, vsize.
  pose proof (lookup_lt_Some _ _ _ Hx) as Hlt.
  destruct (Z.leb_spec (Z.of_nat (length v)) n) as [Hle | _]; [lia |].
  rewrite Hx. reflexivity.
Qed.

Lemma at_out_of_range {A : Type} (v : list A) (n : Z) :
  vsize v <= n -> at_ v n = Throw_out_of_range.
Proof.
  intros Hn. unfold at_.
  destruct (Z.leb_spec (vsize v) n) as [_ | Hlt]; [reflexivity | lia].
Qed.

Lemma index_nonneg (dims : list dimension) (args : list double) (offset : Z) :
  histogram_impl.index dims args = Ret offset -> 0 <= offset <= size_max.
Proof.
  destruct dims as [| d ts], args as [| v tail]; simpl; try discriminate.
  - intros [= <-]. unfold size_max, size_bits. lia.
  - destruct (dim_index d v); simpl; try discriminate.
    destruct (histogram_impl.index ts tail); simpl; try discriminate.
    intros [= <-]. apply wrap_range.
Qed.

Lemma arity_checked (h : histogram.t) (args : list double) :
  length args = length (histogram.dims h) ->
  negb (length args =? length (histogram.dims h))%nat = false.
Proof. intros ->. rewrite Nat.eqb_refl. reflexivity. Qed.

(** What a fill does once its offset lies inside both arrays. *)
Lemma fill_with_weight_in_range (h : histogram.t) (w : double)
    (args : list double) (offset : Z) (b s : double) :
  length args = length (histogram.dims h) ->
  no_nan args ->
  histogram_impl.index (histogram.dims h) args = Ret offset ->
  histogram.bincontent_ h !! Z.to_nat offset = Some b ->
  histogram.squaredweights_ h !! Z.to_nat offset = Some s ->
  histogram.fill_with_weight h w args =
    ({| histogram.dims := histogram.dims h;
        histogram.title_ := histogram.title_ h;
        histogram.n_entries_ := wrap (histogram.n_entries_ h + 1);
        histogram.bincontent_ :=
          <[Z.to_nat offset := fadd b w]> (histogram.bincontent_ h);
        histogram.squaredweights_ :=
          <[Z.to_nat offset := fadd s (fmul w w)]> (histogram.squaredweights_ h) |},
     Ret true).
Proof.
  intros Hlen Hnan Hidx Hb Hs.
  unfold histogram.fill_with_weight.
  rewrite (arity_checked _ _ Hlen), (valid_no_nan _ _ Hlen Hnan), Hidx.
  pose proof (index_nonneg _ _ _ Hidx) as [H0 _].
  unfold histogram.on_return at 1.
  rewrite (at_in_range _ _ _ Hb H0).
  unfold histogram.on_return at 1.
  cbn [histogram.set_bincontent histogram.squaredweights_].
  rewrite (at_in_range _ _ _ Hs H0). reflexivity.
Qed.

(** An offset outside the first array: [at] throws before anything is
    written. *)
Lemma fill_with_weight_out_of_range (h : histogram.t) (w : double)
    (args : list double) (offset : Z) :
  length args = length (histogram.dims h) ->
  no_nan args ->
  histogram_impl.index (histogram.dims h) args = Ret offset ->
  vsize (histogram.bincontent_ h) <= offset ->
  histogram.fill_with_weight h w args = (h, Throw_out_of_range).
Proof.
  intros Hlen Hnan Hidx Hb.
  unfold histogram.fill_with_weight.
  rewrite (arity_checked _ _ Hlen), (valid_no_nan _ _ Hlen Hnan), Hidx.
  unfold histogram.on_return at 1.
  rewrite (at_out_of_range _ _ Hb). reflexivity.
Qed.

(** C7. A fill with a NaN among its coordinates (and the right number of
    coordinates) returns [false] and hands back the histogram it was given:
    the entry counter, every weight sum and every squared-weight sum are
    what they were, and nothing is thrown. *)
Theorem fill_with_nan_coordinate_rejected (h : histogram.t) (w : double)
    (args : list double) :
  length args = length (histogram.dims h) ->
  some_nan args ->
  histogram.fill_with_weight h w args = (h, Ret false) /\
  histogram.fill h args = (h, Ret false).
Proof.
  intros Hlen Hnan.
  assert (H : forall x, histogram.fill_with_weight h x args = (h, Ret false)).
  { intros x. unfold histogram.fill_with_weight.
    rewrite (arity_checked _ _ Hlen), (valid_some_nan _ _ Hnan). reflexivity. }
  split; [apply H | apply (H one)].
Qed.

Lemma fill_with_nan_coordinate_rejected_witness :
  (length [of_Z 1; NaN] = length (histogram.dims sample_histogram) /\
   some_nan [of_Z 1; NaN]) /\
  histogram.fill_with_weight sample_histogram (of_Z 3) [of_Z 1; NaN]
    = (sample_histogram, Ret false) /\
  histogram.fill sample_histogram [of_Z 1; NaN] = (sample_histogram, Ret false).
Proof.
  assert (Hlen : length [of_Z 1; NaN] = length (histogram.dims sample_histogram))
    by reflexivity.
  assert (Hnan : some_nan [of_Z 1; NaN])
    by (apply Exists_cons_tl, Exists_cons_hd; reflexivity).
  split; [split; assumption |].
  exact (fill_with_nan_coordinate_rejected sample_histogram (of_Z 3)
           [of_Z 1; NaN] Hlen Hnan).
Defined.

(** ** The effect of an accepted fill *)

(** C8, as amended. For every histogram, weight and NaN-free coordinate
    tuple whose flat offset lies inside both arrays, one [fill_with_weight]
    returns [true], adds one to the entry counter (in [size_t]; exactly one
    below [SIZE_MAX]), adds [w] to the weight sum and [w * w] to the
    squared-weight sum of the bin at that offset, and leaves every other
    bin, the array lengths, the shape, the edges, the labels and the title
    as they were. *)
Theorem fill_with_weight_touches_one_bin (h : histogram.t) (w : double)
    (args : list double) (offset : Z) (b s : double) :
  length args = length (histogram.dims h) ->
  no_nan args ->
  histogram_impl.index (histogram.dims h) args = Ret offset ->
  histogram.bincontent_ h !! Z.to_nat offset = Some b ->
  histogram.squaredweights_ h !! Z.to_nat offset = Some s ->
  exists h',
    histogram.fill_with_weight h w args = (h', Ret true) /\
    histogram.n_entries h' = wrap (histogram.n_entries h + 1) /\
    (0 <= histogram.n_entries h < size_max ->
     histogram.n_entries h' = histogram.n_entries h + 1) /\
    histogram.bincontent_ h' !! Z.to_nat offset = Some (fadd b w) /\
    histogram.squaredweights_ h' !! Z.to_nat offset = Some (fadd s (fmul w w)) /\
    (forall j : nat, j <> Z.to_nat offset ->
       histogram.bincontent_ h' !! j = histogram.bincontent_ h !! j /\
       histogram.squaredweights_ h' !! j = histogram.squaredweights_ h !! j) /\
    length (histogram.bincontent_ h') = length (histogram.bincontent_ h) /\
    length (histogram.squaredweights_ h') = length (histogram.squaredweights_ h) /\
    histogram.shape h' = histogram.shape h /\
    histogram.binedges h' = histogram.binedges h /\
    histogram.labels h' = histogram.labels h /\
    histogram.title h' = histogram.title h.
Proof.
  intros Hlen Hnan Hidx Hb Hs.
  eexists. split.
  { apply fill_with_weight_in_range; eassumption. }
  cbn [histogram.n_entries histogram.n_entries_ histogram.bincontent_
       histogram.squaredweights_].
  split; [reflexivity |].
  split. { intros Hn. apply wrap_small. lia. }
  split. { apply list_lookup_insert_eq. eapply lookup_lt_Some; eassumption. }
  split. { apply list_lookup_insert_eq. eapply lookup_lt_Some; eassumption. }
  split.
  { intros j Hj. split; apply list_lookup_insert_ne; congruence. }
  split; [apply length_insert |].
  split; [apply length_insert |].
  repeat split.
Qed.

Lemma fill_with_weight_touches_one_bin_witness :
  (length [of_Z 1; of_Z 1] = length (histogram.dims sample_histogram) /\
   no_nan [of_Z 1; of_Z 1] /\
   histogram_impl.index (histogram.dims sample_histogram) [of_Z 1; of_Z 1]
     = Ret 10 /\
   histogram.bincontent_ sample_histogram !! Z.to_nat 10 = Some (of_Z 0) /\
   histogram.squaredweights_ sample_histogram !! Z.to_nat 10 = Some (of_Z 0)) /\
  exists h',
    histogram.fill_with_weight sample_histogram (of_Z 3) [of_Z 1; of_Z 1]
      = (h', Ret true) /\
    histogram.n_entries h' = 1 /\
    histogram.bincontent_ h' !! 10%nat = Some (of_Z 3) /\
    histogram.squaredweights_ h' !! 10%nat = Some (of_Z 9).
Proof.
  assert (Hlen : length [of_Z 1; of_Z 1] = length (histogram.dims sample_histogram))
    by reflexivity.
  assert (Hnan : no_nan [of_Z 1; of_Z 1])
    by (repeat constructor).
  assert (Hidx : histogram_impl.index (histogram.dims sample_histogram)
                   [of_Z 1; of_Z 1] = Ret 10) by (vm_compute; reflexivity).
  assert (Hb : histogram.bincontent_ sample_histogram !! Z.to_nat 10
               = Some (of_Z 0)) by (vm_compute; reflexivity).
  assert (Hs : histogram.squaredweights_ sample_histogram !! Z.to_nat 10
               = Some (of_Z 0)) by (vm_compute; reflexivity).
  split; [repeat split; assumption |].
  destruct (fill_with_weight_touches_one_bin sample_histogram (of_Z 3)
              [of_Z 1; of_Z 1] 10 (of_Z 0) (of_Z 0) Hlen Hnan Hidx Hb Hs)
    as (h' & Hfill & Hn & _ & Hb' & Hs' & _).
  exists h'. repeat split; assumption.
Defined.

(** C9, as amended. The weight is never inspected: for every histogram and
    NaN-free coordinate tuple whose flat offset lies inside both arrays,
    [fill_with_weight] returns [true] and counts the entry whatever the
    weight, and adds [w] and [w * w] to the target bin; a NaN weight
    turns both sums of that bin into NaN, and an infinite weight makes the
    squared-weight sum [+infinity] or NaN. *)
Theorem fill_with_weight_accepts_any_weight (h : histogram.t)
    (args : list double) (offset : Z) (b s : double) :
  length args = length (histogram.dims h) ->
  no_nan args ->
  histogram_impl.index (histogram.dims h) args = Ret offset ->
  histogram.bincontent_ h !! Z.to_nat offset = Some b ->
  histogram.squaredweights_ h !! Z.to_nat offset = Some s ->
  forall w : double,
  exists h',
    histogram.fill_with_weight h w args = (h', Ret true) /\
    histogram.n_entries h' = wrap (histogram.n_entries h + 1) /\
    histogram.bincontent_ h' !! Z.to_nat offset = Some (fadd b w) /\
    histogram.squaredweights_ h' !! Z.to_nat offset = Some (fadd s (fmul w w)) /\
    (isnan w = true ->
     histogram.bincontent_ h' !! Z.to_nat offset = Some NaN /\
     histogram.squaredweights_ h' !! Z.to_nat offset = Some NaN) /\
    (forall sign, w = S754_infinity sign ->
     histogram.squaredweights_ h' !! Z.to_nat offset = Some infinity \/
     histogram.squaredweights_ h' !! Z.to_nat offset = Some NaN).
Proof.
  intros Hlen Hnan Hidx Hb Hs w.
  eexists. split.
  { apply fill_with_weight_in_range; eassumption. }
  cbn [histogram.n_entries histogram.n_entries_ histogram.bincontent_
       histogram.squaredweights_].
  pose proof (lookup_lt_Some _ _ _ Hb) as Lb.
  pose proof (lookup_lt_Some _ _ _ Hs) as Ls.
  rewrite !list_lookup_insert_eq by assumption.
  split; [reflexivity |].
  split; [reflexivity |].
  split; [reflexivity |].
  split.
  - intros Hw. destruct w; try discriminate.
    split; f_equal; [destruct b | destruct s]; reflexivity.
  - intros sign ->.
    destruct s as [ | [|] | | ]; destruct sign; simpl; auto.
Qed.

Lemma fill_with_weight_accepts_any_weight_witness :
  (length [of_Z 1; of_Z 1] = length (histogram.dims sample_histogram) /\
   no_nan [of_Z 1; of_Z 1] /\
   histogram_impl.index (histogram.dims sample_histogram) [of_Z 1; of_Z 1]
     = Ret 10 /\
   histogram.bincontent_ sample_histogram !! Z.to_nat 10 = Some (of_Z 0) /\
   histogram.squaredweights_ sample_histogram !! Z.to_nat 10 = Some (of_Z 0)) /\
  exists h',
    histogram.fill_with_weight sample_histogram NaN [of_Z 1; of_Z 1]
      = (h', Ret true) /\
    histogram.n_entries h' = 1 /\
    histogram.bincontent_ h' !! 10%nat = Some NaN /\
    histogram.squaredweights_ h' !! 10%nat = Some NaN.
Proof.
  assert (Hlen : length [of_Z 1; of_Z 1] = length (histogram.dims sample_histogram))
    by reflexivity.
  assert (Hnan : no_nan [of_Z 1; of_Z 1])
    by (repeat constructor).
  assert (Hidx : histogram_impl.index (histogram.dims sample_histogram)
                   [of_Z 1; of_Z 1] = Ret 10) by (vm_compute; reflexivity).
  assert (Hb : histogram.bincontent_ sample_histogram !! Z.to_nat 10
               = Some (of_Z 0)) by (vm_compute; reflexivity).
  assert (Hs : histogram.squaredweights_ sample_histogram !! Z.to_nat 10
               = Some (of_Z 0)) by (vm_compute; reflexivity).
  split; [repeat split; assumption |].
  destruct (fill_with_weight_accepts_any_weight sample_histogram
              [of_Z 1; of_Z 1] 10 (of_Z 0) (of_Z 0) Hlen Hnan Hidx Hb Hs NaN)
    as (h' & Hfill & Hn & _ & _ & Hw & _).
  destruct (Hw eq_refl) as [Hb' Hs'].
  exists h'. repeat split; assumption.
Defined.

(** C8 as stated fails where the offset leaves the arrays. Eight
    dimensions of 256 bins make 2^64 bins; [size()] wraps to 0, the arrays
    are empty, and a fill at the finite coordinates (0, ..., 0) throws
    [std::out_of_range] without counting the entry. *)
Lemma fill_on_wide_histogram_throws :
  length (replicate 8 (of_Z 0)) = length (histogram.dims sample_wide_histogram) /\
  no_nan (replicate 8 (of_Z 0)) /\
  histogram_impl.fill_shape (histogram.dims sample_wide_histogram)
    = replicate 8 256 /\
  histogram_impl.size (histogram.dims sample_wide_histogram) = 0 /\
  histogram.fill_with_weight sample_wide_histogram (of_Z 1) (replicate 8 (of_Z 0))
    = (sample_wide_histogram, Throw_out_of_range) /\
  ~ (exists h',
       histogram.fill_with_weight sample_wide_histogram (of_Z 1)
         (replicate 8 (of_Z 0)) = (h', Ret true) /\
       histogram.n_entries h' = histogram.n_entries sample_wide_histogram + 1).
Proof.
  assert (H : histogram.fill_with_weight sample_wide_histogram (of_Z 1)
                (replicate 8 (of_Z 0))
              = (sample_wide_histogram, Throw_out_of_range))
    by (vm_compute; reflexivity).
  split; [reflexivity |].
  split; [repeat constructor |].
  split; [vm_compute; reflexivity |].
  split; [vm_compute; reflexivity |].
  split; [exact H |].
  intros (h' & Hfill & _). rewrite H in Hfill. discriminate.
Qed.

(** C9 as stated fails on the same ground. With [SIZE_MAX] requested bins
    the step count wraps to 0 and the scheme has one bin; the index of 5 in
    [0, 10) is 2^63 + 1, and the fill throws whatever the weight. *)
Lemma fill_on_wrapped_histogram_throws :
  length [of_Z 5] = length (histogram.dims sample_wrapped_histogram) /\
  no_nan [of_Z 5] /\
  histogram_impl.size (histogram.dims sample_wrapped_histogram) = 1 /\
  histogram_impl.index (histogram.dims sample_wrapped_histogram) [of_Z 5]
    = Ret (2 ^ 63 + 1) /\
  (forall w : double,
     histogram.fill_with_weight sample_wrapped_histogram w [of_Z 5]
       = (sample_wrapped_histogram, Throw_out_of_range)) /\
  ~ (forall w : double, exists h',
       histogram.fill_with_weight sample_wrapped_histogram w [of_Z 5]
         = (h', Ret true)).
Proof.
  assert (Hlen : length [of_Z 5] = length (histogram.dims sample_wrapped_histogram))
    by reflexivity.
  assert (Hnan : no_nan [of_Z 5]) by (repeat constructor).
  assert (Hidx : histogram_impl.index (histogram.dims sample_wrapped_histogram)
                   [of_Z 5] = Ret (2 ^ 63 + 1)) by (vm_compute; reflexivity).
  assert (H : forall w : double,
     histogram.fill_with_weight sample_wrapped_histogram w [of_Z 5]
       = (sample_wrapped_histogram, Throw_out_of_range)).
  { intros w.
    apply (fill_with_weight_out_of_range _ w _ _ Hlen Hnan Hidx).
    vm_compute. discriminate. }
  split; [exact Hlen |]. split; [exact Hnan |].
  split; [vm_compute; reflexivity |].
  split; [exact Hidx |].
  split; [exact H |].
  intros Hall. destruct (Hall NaN) as (h' & Hfill).
  rewrite H in Hfill. discriminate.
Qed.

(** ** Where coordinates beyond the declared range go *)

(** Below the first finite edge: the underflow bin. *)
Lemma general_index_underflow (g : general.t) (v e1 : double) :
  ascending (general.edges g) ->
  general.edges g !! 0%nat = Some neg_infinity ->
  last (general.edges g) = Some infinity ->
  vsize (general.edges g) <= size_max ->
  isnan v = false ->
  general.edges g !! 1%nat = Some e1 ->
  flt v e1 = true ->
  general.index g v = Ret 0.
Proof.
  intros Hasc Hfirst Hlast Hsize Hv He1 Hlt.
  assert (Hinf : flt v infinity = true).
  { destruct v as [s | [|] | | s m e]; try reflexivity; try discriminate.
    destruct e1 as [s1 | [|] | | s1 m1 e1']; discriminate. }
  destruct (general_index_bracket g v Hasc Hfirst Hlast Hsize Hv Hinf)
    as (i & a & b & Hidx & _ & Ha & _ & Hav & _).
  destruct i as [| i]; [exact Hidx |]. exfalso.
  assert (Hge : fle e1 a = true) by (apply (Hasc 1%nat (S i) e1 a He1 Ha); lia).
  pose proof (flt_fle_trans v e1 a Hlt Hge) as Hva.
  rewrite (fle_not_flt v a Hav) in Hva. discriminate.
Qed.

(** From the last finite edge on, short of plus infinity: the overflow
    bin, the last one. *)
Lemma general_index_overflow (g : general.t) (v e : double) :
  ascending (general.edges g) ->
  general.edges g !! 0%nat = Some neg_infinity ->
  last (general.edges g) = Some infinity ->
  vsize (general.edges g) <= size_max ->
  isnan v = false ->
  flt v infinity = true ->
  general.edges g !! (length (general.edges g) - 2)%nat = Some e ->
  fle e v = true ->
  general.index g v = Ret (general.nbins g - 1).
Proof.
  intros Hasc Hfirst Hlast Hsize Hv Hinf He Hev.
  destruct (general_index_bracket g v Hasc Hfirst Hlast Hsize Hv Hinf)
    as (i & a & b & Hidx & _ & _ & Hb & _ & Hvb).
  pose proof (lookup_lt_Some _ _ _ Hb) as Hi.
  assert (Hbins : general.nbins g = vsize (general.edges g) - 1).
  { unfold general.nbins, general.edges in *. apply wrap_small.
    unfold vsize in *. lia. }
  destruct (le_lt_dec (length (general.edges g) - 2) i) as [Hle | Hgt].
  - rewrite Hidx, Hbins. unfold vsize. f_equal. lia.
  - exfalso.
    assert (Hbe : fle b e = true).
    { apply (Hasc (S i) (length (general.edges g) - 2)%nat b e Hb He). lia. }
    pose proof (flt_fle_trans v b e Hvb Hbe) as Hve.
    rewrite (fle_not_flt v e Hev) in Hve. discriminate.
Qed.

Lemma ascendingb_sound (es : list double) :
  ascendingb es = true -> ascending es.
Proof.
  induction es as [| e tail IH]; intros H i j a b Ha Hb Hij.
  - discriminate.
  - cbn [ascendingb] in H.
    apply andb_true_iff in H as [H Htail].
    apply andb_true_iff in H as [Hrefl Hall].
    destruct i as [| i], j as [| j]; cbn in Ha, Hb; try lia.
    + congruence.
    + injection Ha as <-.
      rewrite forallb_forall in Hall. apply Hall.
      apply list_elem_of_In. eapply list_elem_of_lookup_2. exact Hb.
    + apply (IH Htail i j a b Ha Hb). lia.
Qed.


(** ** Indices below the bin count *)

Section UniformBound.
Context {T : detail.Transformation}.
Variables (low high : double) (requested : Z) (name : string).

Local Abbreviation u := (uniform.make low high requested name).

(** Unless the bin count wrapped to 0, the two sentinel bins exist. *)
Lemma uniform_sentinel_index_in_range (v : double) :
  0 <= requested <= size_max -> requested <> size_max - 1 ->
  flt v (uniform.min_ u) = true \/ fge v (uniform.max_ u) = true ->
  exists i, uniform.index u v = Ret i /\ 0 <= i < uniform.nbins u.
Proof.
  intros Hreq Hne Hbranch.
  destruct (uniform_last_bin T low high requested name) as [_ Hlast].
  cbn zeta in Hlast.
  assert (Hbins : 0 <= wrap (requested + 1) < uniform.nbins u).
  { unfold uniform.nbins. rewrite uniform_nsteps.
    pose proof (wrap_range (requested + 1)) as Hs.
    destruct (Z.eq_dec requested size_max) as [-> | Hne'].
    - vm_compute. split; [discriminate | reflexivity].
    - rewrite (wrap_small (requested + 1)) by lia.
      rewrite wrap_small by lia. lia. }
  unfold uniform.index.
  destruct (flt v (uniform.min_ u)).
  - exists 0. split; [reflexivity | lia].
  - destruct Hbranch as [Hb | Hb]; [discriminate |]. rewrite Hb.
    exists (wrap (requested + 1)). rewrite Hlast. split; [reflexivity | lia].
Qed.

(** Between the sentinels the index is one more than the computed floor,
    and it is a bin when that floor is below the step count. *)
Lemma uniform_interior_index_in_range (v : double) (k : Z) :
  0 <= requested -> requested + 2 <= size_max ->
  flt v (uniform.min_ u) = false -> fge v (uniform.max_ u) = false ->
  to_size_t (ffloor (fmul (of_Z requested) (uniform.imap_ u v))) = Ret k ->
  0 <= k <= requested ->
  uniform.index u v = Ret (k + 1) /\ 0 <= k + 1 < uniform.nbins u.
Proof.
  intros H0 Hmax Hmin Hhi Hk Hrange.
  unfold uniform.index. rewrite Hmin, Hhi.
  unfold uniform.nbins. rewrite uniform_nsteps.
  rewrite (wrap_small (requested + 1)) by lia.
  replace (requested + 1 - 1) with requested by lia.
  rewrite (wrap_small requested) by lia.
  rewrite Hk. cbn [bind].
  rewrite !wrap_small by lia. split; [reflexivity | lia].
Qed.

End UniformBound.

(** A histogram whose arrays have one slot per bin accepts every tuple
    whose indices are bins. *)
Lemma fill_within_bins_returns (h : histogram.t) (w : double)
    (args : list double) (idxs : list Z) :
  allocated h ->
  product (dim_nbins <$> histogram.dims h) <= size_max ->
  no_nan args ->
  indexed_in_range (histogram.dims h) args idxs ->
  exists h',
    histogram_impl.index (histogram.dims h) args = Ret (offset_sum idxs (histogram.dims h)) /\
    0 <= offset_sum idxs (histogram.dims h) < histogram_impl.size (histogram.dims h) /\
    histogram.fill_with_weight h w args = (h', Ret true).
Proof.
  intros [Hb Hs] Hmax Hnan Hidx.
  destruct (index_in_range _ _ _ Hidx Hmax) as [Hoff Hrange].
  destruct (indexed_in_range_split _ _ _ Hidx) as (_ & _ & Hlen).
  unfold vsize in Hb, Hs.
  destruct (lookup_lt_is_Some_2 (histogram.bincontent_ h)
              (Z.to_nat (offset_sum idxs (histogram.dims h)))) as [b Hb'];
    [lia |].
  destruct (lookup_lt_is_Some_2 (histogram.squaredweights_ h)
              (Z.to_nat (offset_sum idxs (histogram.dims h)))) as [s Hs'];
    [lia |].
  eexists. split; [exact Hoff |]. split; [exact Hrange |].
  apply (fill_with_weight_in_range h w args _ b s Hlen Hnan Hoff Hb' Hs').
Qed.

Lemma create_allocated (title : string) (dims : list dimension) :
  allocated (histogram.create title dims).
Proof.
  pose proof (size_is_wrapped_product dims) as H.
  pose proof (wrap_range (product (dim_nbins <$> dims))) as Hr.
  unfold allocated, histogram.create, histogram.make, vsize.
  cbn [histogram.bincontent_ histogram.squaredweights_ histogram.dims].
  rewrite length_replicate. lia.
Qed.


(** * Further properties of the code *)

(** ** The non-equispaced scheme on arbitrary edges *)

(** The search never leaves the range it is given, and it stops at the
    left end only after finding the element there above the value. *)
Lemma upper_bound_loop_range (fuel : nat) (es : list double) (value : double)
    (first len : nat) :
  (len <= fuel)%nat ->
  (first <= general.upper_bound_loop fuel es value first len <= first + len)%nat /\
  (general.upper_bound_loop fuel es value first len = first ->
   (0 < len)%nat -> flt value (nth first es NaN) = true).
Proof.
  revert first len.
  induction fuel as [| fuel IH]; intros first len Hfuel.
  - cbn. split; lia.
  - cbn [general.upper_bound_loop].
    destruct (Nat.eqb_spec len 0) as [-> | Hlen]; [split; lia |].
    pose proof (half_below len Hlen) as Hhalf.
    destruct (flt value (nth (first + len / 2) es NaN)) eqn:Hmid.
    + destruct (IH first (len / 2)%nat ltac:(lia)) as [Hrange Hleft].
      split; [lia |].
      intros Heq _.
      destruct (Nat.eq_dec (len / 2)%nat 0%nat) as [H0 | H0].
      * rewrite H0, Nat.add_0_r in Hmid. exact Hmid.
      * apply Hleft; [exact Heq | lia].
    + destruct (IH (S (first + len / 2)) (len - len / 2 - 1)%nat ltac:(lia))
        as [Hrange _].
      split; lia.
Qed.

Lemma flt_neg_infinity_false (x : double) : flt x neg_infinity = false.
Proof. destruct x as [s | [|] | | [|] m e]; reflexivity. Qed.

(** An edge that is not above minus infinity has no double below it. *)
Lemma nothing_below_the_first_edge (front x : double) :
  fgt front neg_infinity = false -> flt x front = false.
Proof.
  destruct front as [s | [|] | | [|] m e]; try discriminate; intros _.
  - apply flt_neg_infinity_false.
  - destruct x as [s | [|] | | [|] m e]; reflexivity.
Qed.

(** An edge that is not below plus infinity has no double above it. *)
Lemma nothing_above_the_last_edge (back x : double) :
  flt back infinity = false -> flt back x = false.
Proof.
  destruct back as [s | [|] | | [|] m e]; try discriminate; intros _.
  - apply flt_infinity_false.
  - apply flt_nan_false.
Qed.

(** No double is below the first stored edge of a constructed scheme. *)
Lemma general_first_edge (edges : list double) (name : string) (g : general.t) :
  general.make edges name = Ret g ->
  exists e0, general.edges g !! 0%nat = Some e0 /\
             fgt e0 neg_infinity = false /\
             forall x, flt x e0 = false.
Proof.
  intros H. destruct (general_make_edges _ _ _ H) as (front & Hf & ->).
  destruct edges as [| e tail]; [discriminate |]. injection Hf as ->.
  destruct (fgt front neg_infinity) eqn:E.
  - exists neg_infinity. repeat split. apply flt_neg_infinity_false.
  - exists front. repeat split; [exact E |].
    intros x. apply nothing_below_the_first_edge, E.
Qed.

(** What [index] computes on a constructed scheme: the assertion holds. *)
Lemma general_index_returns (edges : list double) (name : string)
    (g : general.t) (v : double) :
  general.make edges name = Ret g ->
  (1 <= general.upper_bound (general.edges g) v <= length (general.edges g))%nat /\
  general.index g v
    = Ret (wrap (Z.of_nat (general.upper_bound (general.edges g) v) - 1)).
Proof.
  intros H.
  destruct (general_first_edge _ _ _ H) as (e0 & He0 & _ & Hbelow).
  pose proof (general_edges_nonempty _ _ _ H) as Hlen.
  unfold general.edges, vsize in *.
  destruct (upper_bound_loop_range (length (general.edges_ g))
              (general.edges_ g) v 0 (length (general.edges_ g)) ltac:(lia))
    as [Hrange Hleft].
  fold (general.upper_bound (general.edges_ g) v) in Hrange, Hleft.
  assert (Hpos : (general.upper_bound (general.edges_ g) v <> 0)%nat).
  { intros Hz. specialize (Hleft Hz ltac:(lia)).
    rewrite (nth_lookup_Some _ _ NaN _ He0), Hbelow in Hleft. discriminate. }
  split; [lia |].
  unfold general.index.
  destruct (Z.ltb_spec 0 (Z.of_nat (general.upper_bound (general.edges_ g) v)))
    as [_ | Hz]; [reflexivity | lia].
Qed.

(** X1. On a scheme built by the constructor, from any non-empty edge
    vector, [index] returns for every double, NaN included: the assertion
    [j > 0] cannot fail, and the result is at most the bin count. (On
    edges that are not in order the search is the binary search as the
    standard libraries write it.) *)
Theorem general_index_never_aborts (edges : list double) (name : string)
    (g : general.t) (v : double) :
  general.make edges name = Ret g ->
  vsize (general.edges g) <= size_max ->
  exists i : Z,
    general.index g v = Ret i /\ 0 <= i <= general.nbins g /\
    i = Z.of_nat (general.upper_bound (general.edges g) v) - 1.
Proof.
  intros H Hsize.
  destruct (general_index_returns _ _ _ v H) as [Hrange Hidx].
  unfold vsize in Hsize.
  exists (Z.of_nat (general.upper_bound (general.edges g) v) - 1).
  rewrite Hidx. unfold general.nbins, general.edges, vsize in *.
  rewrite !wrap_small by lia.
  repeat split; lia.
Qed.

Lemma general_index_never_aborts_witness :
  (general.make [of_Z 0; of_Z 1; of_Z 2] "general" = Ret sample_general /\
   vsize (general.edges sample_general) <= size_max) /\
  exists i : Z,
    general.index sample_general NaN = Ret i /\
    0 <= i <= general.nbins sample_general /\
    i = Z.of_nat (general.upper_bound (general.edges sample_general) NaN) - 1.
Proof.
  assert (Hmade : general.make [of_Z 0; of_Z 1; of_Z 2] "general"
                  = Ret sample_general) by reflexivity.
  assert (Hsize : vsize (general.edges sample_general) <= size_max)
    by (vm_compute; discriminate).
  split; [split; assumption |].
  exact (general_index_never_aborts _ _ _ NaN Hmade Hsize).
Defined.

(** X2. A value that is below no edge, which is the case of plus infinity
    and of NaN whatever the edges are, is sent to the index [nbins()]: one
    past the last bin. *)
Theorem general_index_of_unordered_values (edges : list double)
    (name : string) (g : general.t) :
  general.make edges name = Ret g ->
  vsize (general.edges g) <= size_max ->
  general.index g NaN = Ret (general.nbins g) /\
  general.index g infinity = Ret (general.nbins g) /\
  general.nbins g = vsize (general.edges g) - 1.
Proof.
  intros H Hsize.
  pose proof (general_edges_nonempty _ _ _ H) as Hlen.
  destruct (general_index_of_infinity g ltac:(lia)) as [Hinf Hn].
  split; [| split; assumption].
  unfold general.edges, general.index, general.nbins, vsize in *.
  rewrite (upper_bound_below_nothing _ _ flt_nan_false).
  destruct (Z.ltb_spec 0 (Z.of_nat (length (general.edges_ g)))) as [_ | Hz];
    [reflexivity | lia].
Qed.

Lemma general_index_of_unordered_values_witness :
  (general.make [of_Z 0; of_Z 1; of_Z 2] "general" = Ret sample_general /\
   vsize (general.edges sample_general) <= size_max) /\
  general.index sample_general NaN = Ret 4 /\
  general.index sample_general infinity = Ret 4 /\
  general.nbins sample_general = 4.
Proof.
  assert (Hmade : general.make [of_Z 0; of_Z 1; of_Z 2] "general"
                  = Ret sample_general) by reflexivity.
  assert (Hsize : vsize (general.edges sample_general) <= size_max)
    by (vm_compute; discriminate).
  split; [split; assumption |].
  exact (general_index_of_unordered_values _ _ _ Hmade Hsize).
Defined.

(** ** The constructor of the non-equispaced scheme *)

Lemma last_default_lookup {A : Type} (l : list A) (d x : A) :
  last l = Some x -> List.last l d = x.
Proof.
  induction l as [| a [| b l] IH]; intros H; [discriminate | |].
  - injection H as ->. reflexivity.
  - apply IH. exact H.
Qed.

(** The stored edges begin with an edge that is not above minus infinity
    and end with one that is not below plus infinity. *)
Lemma general_last_edge (edges : list double) (name : string) (g : general.t) :
  general.make edges name = Ret g ->
  exists e, last (general.edges g) = Some e /\ flt e infinity = false.
Proof.
  intros H. destruct (general_make_edges _ _ _ H) as (front & Hf & ->).
  destruct edges as [| e0 tail]; [discriminate |]. injection Hf as ->.
  destruct (flt (List.last (front :: tail) front) infinity) eqn:E.
  - exists infinity. split; [| reflexivity].
    rewrite app_assoc. apply last_snoc.
  - exists (List.last (front :: tail) front). split; [| exact E].
    rewrite app_nil_r, last_app.
    destruct (last (front :: tail)) as [x |] eqn:Hl.
    + rewrite (last_default_lookup _ front x Hl). reflexivity.
    + apply last_None in Hl. discriminate.
Qed.

(** X3. The constructor adds nothing to edges it has already extended:
    built again from [edges()], a scheme stores the same edges. *)
Theorem general_make_idempotent (edges : list double) (name name' : string)
    (g : general.t) :
  general.make edges name = Ret g ->
  general.make (general.edges g) name'
    = Ret {| general.name_ := name'; general.edges_ := general.edges g |}.
Proof.
  intros H.
  destruct (general_first_edge _ _ _ H) as (e0 & He0 & Hfirst & _).
  destruct (general_last_edge _ _ _ H) as (e & He & Hlast).
  unfold general.edges in *.
  destruct (general.edges_ g) as [| front tail] eqn:Hes; [discriminate |].
  injection He0 as ->.
  unfold general.make.
  rewrite Hfirst, (last_default_lookup _ e0 e He), Hlast.
  reflexivity.
Qed.

Lemma general_make_idempotent_witness :
  general.make [of_Z 0; of_Z 1; of_Z 2] "general" = Ret sample_general /\
  general.make (general.edges sample_general) "again"
    = Ret {| general.name_ := "again";
             general.edges_ := general.edges sample_general |}.
Proof.
  assert (Hmade : general.make [of_Z 0; of_Z 1; of_Z 2] "general"
                  = Ret sample_general) by reflexivity.
  split; [exact Hmade |].
  exact (general_make_idempotent _ _ "again"%string _ Hmade).
Defined.

(** ** Ascending edges *)

Lemma fle_neg_infinity (x : double) :
  isnan x = false -> fle neg_infinity x = true.
Proof. destruct x as [s | [|] | | [|] m e]; try discriminate; reflexivity. Qed.

Lemma fle_infinity (x : double) : isnan x = false -> fle x infinity = true.
Proof. destruct x as [s | [|] | | [|] m e]; try discriminate; reflexivity. Qed.

Lemma not_above_neg_infinity (x : double) :
  isnan x = false -> fgt x neg_infinity = false -> x = neg_infinity.
Proof. destruct x as [s | [|] | | [|] m e]; try discriminate; reflexivity. Qed.

Lemma not_below_infinity (x : double) :
  isnan x = false -> flt x infinity = false -> x = infinity.
Proof. destruct x as [s | [|] | | [|] m e]; try discriminate; reflexivity. Qed.

Lemma ascending_not_nan (es : list double) (i : nat) (a : double) :
  ascending es -> es !! i = Some a -> isnan a = false.
Proof.
  intros Hasc Ha. apply (fle_not_nan a a). apply (Hasc i i a a Ha Ha). lia.
Qed.

Lemma ascending_app (l1 l2 : list double) :
  ascending l1 -> ascending l2 ->
  (forall a b, a ∈ l1 -> b ∈ l2 -> fle a b = true) ->
  ascending (l1 ++ l2).
Proof.
  intros H1 H2 H12 i j a b Ha Hb Hij.
  apply lookup_app_Some in Ha as [Ha | [Hi Ha]];
    apply lookup_app_Some in Hb as [Hb | [Hj Hb]].
  - exact (H1 i j a b Ha Hb Hij).
  - apply H12; eapply list_elem_of_lookup_2; eassumption.
  - apply lookup_lt_Some in Hb. lia.
  - apply (H2 _ _ a b Ha Hb). lia.
Qed.

Lemma ascending_singleton (x : double) : isnan x = false -> ascending [x].
Proof.
  intros Hx i j a b Ha Hb _.
  apply list_lookup_singleton_Some in Ha as [_ <-].
  apply list_lookup_singleton_Some in Hb as [_ <-].
  destruct x as [s | [|] | | [|] m e]; try discriminate; try reflexivity;
    unfold fle, SFleb, SFcompare; cbn;
    rewrite ?Z.compare_refl, ?Pos.compare_cont_refl; reflexivity.
Qed.

Lemma ascending_nil : ascending [].
Proof. intros i j a b Ha. discriminate. Qed.

(** From ascending edges the constructor stores ascending edges that
    begin with minus infinity and end with plus infinity. *)
Lemma general_make_ascending (edges : list double) (name : string)
    (g : general.t) :
  general.make edges name = Ret g ->
  ascending edges ->
  ascending (general.edges g) /\
  general.edges g !! 0%nat = Some neg_infinity /\
  last (general.edges g) = Some infinity.
Proof.
  intros H Hasc.
  destruct (general_make_edges _ _ _ H) as (front & Hf & ->).
  destruct edges as [| e0 tail]; [discriminate |]. injection Hf as ->.
  set (es := front :: tail) in *.
  assert (Hnan : forall x, x ∈ es -> isnan x = false).
  { intros x Hx. apply list_elem_of_lookup_1 in Hx as [i Hi].
    exact (ascending_not_nan es i x Hasc Hi). }
  assert (Hfront : isnan front = false).
  { apply Hnan. left. }
  destruct (last es) as [back |] eqn:Hback;
    [| apply last_None in Hback; discriminate].
  rewrite (last_default_lookup es front back Hback).
  assert (Hbn : isnan back = false).
  { apply Hnan. rewrite last_lookup in Hback.
    eapply list_elem_of_lookup_2, Hback. }
  split; [| split].
  - apply ascending_app; [| apply ascending_app |].
    + destruct (fgt front neg_infinity);
        [apply ascending_singleton; reflexivity | apply ascending_nil].
    + exact Hasc.
    + destruct (flt back infinity);
        [apply ascending_singleton; reflexivity | apply ascending_nil].
    + intros a b Ha Hb. destruct (flt back infinity); [| inversion Hb].
      apply list_elem_of_singleton in Hb as ->.
      apply fle_infinity, Hnan, Ha.
    + intros a b Ha Hb.
      destruct (fgt front neg_infinity); [| inversion Ha].
      apply list_elem_of_singleton in Ha as ->.
      apply fle_neg_infinity.
      apply elem_of_app in Hb as [Hb | Hb]; [apply Hnan, Hb |].
      destruct (flt back infinity); [| inversion Hb].
      apply list_elem_of_singleton in Hb as ->. reflexivity.
  - destruct (fgt front neg_infinity) eqn:E; [reflexivity |].
    cbn. f_equal. apply not_above_neg_infinity; assumption.
  - rewrite app_assoc.
    destruct (flt back infinity) eqn:E; [apply last_snoc |].
    rewrite app_nil_r, last_app, Hback. f_equal.
    apply not_below_infinity; assumption.
Qed.

(** X4. From edges in ascending order the constructor stores edges in
    ascending order that begin with minus infinity and end with plus
    infinity, the supplied edges standing unchanged in between. *)
Theorem general_make_delimits_ascending_edges (edges : list double)
    (name : string) (g : general.t) :
  general.make edges name = Ret g ->
  ascending edges ->
  ascending (general.edges g) /\
  general.edges g !! 0%nat = Some neg_infinity /\
  last (general.edges g) = Some infinity /\
  exists pre post, general.edges g = pre ++ edges ++ post /\
    (pre = [] \/ pre = [neg_infinity]) /\ (post = [] \/ post = [infinity]).
Proof.
  intros H Hasc.
  destruct (general_make_ascending _ _ _ H Hasc) as (Ha & Hfirst & Hlast).
  repeat (split; [assumption |]).
  destruct (general_make_edges _ _ _ H) as (front & _ & Hes).
  eexists _, _. split; [exact Hes |].
  split.
  - destruct (fgt front neg_infinity); [right | left]; reflexivity.
  - destruct (flt (List.last edges front) infinity); [right | left]; reflexivity.
Qed.

Lemma general_make_delimits_ascending_edges_witness :
  (general.make [of_Z 0; of_Z 1; of_Z 2] "general" = Ret sample_general /\
   ascending [of_Z 0; of_Z 1; of_Z 2]) /\
  ascending (general.edges sample_general) /\
  general.edges sample_general !! 0%nat = Some neg_infinity /\
  last (general.edges sample_general) = Some infinity /\
  exists pre post,
    general.edges sample_general = pre ++ [of_Z 0; of_Z 1; of_Z 2] ++ post /\
    (pre = [] \/ pre = [neg_infinity]) /\ (post = [] \/ post = [infinity]).
Proof.
  assert (Hmade : general.make [of_Z 0; of_Z 1; of_Z 2] "general"
                  = Ret sample_general) by reflexivity.
  assert (Hasc : ascending [of_Z 0; of_Z 1; of_Z 2])
    by (apply ascendingb_sound; vm_compute; reflexivity).
  split; [split; assumption |].
  exact (general_make_delimits_ascending_edges _ _ _ Hmade Hasc).
Defined.

(** X5. For a scheme built from ascending edges, and a value that is
    neither NaN nor plus infinity, [index] is the bin whose half-open
    interval holds the value, it is below the bin count, and no other bin
    holds the value. *)
Theorem general_index_is_the_only_bracket (edges : list double)
    (name : string) (g : general.t) (v : double) :
  general.make edges name = Ret g ->
  ascending edges ->
  vsize (general.edges g) <= size_max ->
  isnan v = false ->
  flt v infinity = true ->
  exists (i : nat) (a b : double),
    general.index g v = Ret (Z.of_nat i) /\
    Z.of_nat i < general.nbins g /\
    general.edges g !! i = Some a /\
    general.edges g !! S i = Some b /\
    fle a v = true /\ flt v b = true /\
    forall (k : nat) (a' b' : double),
      general.edges g !! k = Some a' ->
      general.edges g !! S k = Some b' ->
      fle a' v = true -> flt v b' = true -> k = i.
Proof.
  intros H Hedges Hsize Hv Hinf.
  destruct (general_make_ascending _ _ _ H Hedges) as (Hasc & Hfirst & Hlast).
  destruct (general_index_bracket g v Hasc Hfirst Hlast Hsize Hv Hinf)
    as (i & a & b & Hidx & _ & Ha & Hb & Hle & Hlt).
  exists i, a, b.
  repeat (split; [first [assumption | idtac] |]).
  - apply lookup_lt_Some in Hb.
    unfold general.nbins, general.edges, vsize in *.
    rewrite wrap_small by lia. lia.
  - intros k a' b' Ha' Hb' Hle' Hlt'.
    destruct (lt_eq_lt_dec k i) as [[Hk | Hk] | Hk]; [exfalso | exact Hk | exfalso].
    + assert (Hba : fle b' a = true) by (apply (Hasc (S k) i); [assumption .. | lia]).
      pose proof (flt_fle_trans v b' a Hlt' Hba) as Hc.
      rewrite (fle_not_flt v a Hle) in Hc. discriminate.
    + assert (Hba : fle b a' = true) by (apply (Hasc (S i) k); [assumption .. | lia]).
      pose proof (flt_fle_trans v b a' Hlt Hba) as Hc.
      rewrite (fle_not_flt v a' Hle') in Hc. discriminate.
Qed.

Lemma general_index_is_the_only_bracket_witness :
  (general.make [of_Z 0; of_Z 1; of_Z 2] "general" = Ret sample_general /\
   ascending [of_Z 0; of_Z 1; of_Z 2] /\
   vsize (general.edges sample_general) <= size_max /\
   isnan (of_Z 1) = false /\ flt (of_Z 1) infinity = true) /\
  exists (i : nat) (a b : double),
    general.index sample_general (of_Z 1) = Ret (Z.of_nat i) /\
    Z.of_nat i < general.nbins sample_general /\
    general.edges sample_general !! i = Some a /\
    general.edges sample_general !! S i = Some b /\
    fle a (of_Z 1) = true /\ flt (of_Z 1) b = true /\
    forall (k : nat) (a' b' : double),
      general.edges sample_general !! k = Some a' ->
      general.edges sample_general !! S k = Some b' ->
      fle a' (of_Z 1) = true -> flt (of_Z 1) b' = true -> k = i.
Proof.
  assert (Hmade : general.make [of_Z 0; of_Z 1; of_Z 2] "general"
                  = Ret sample_general) by reflexivity.
  assert (Hasc : ascending [of_Z 0; of_Z 1; of_Z 2])
    by (apply ascendingb_sound; vm_compute; reflexivity).
  assert (Hsize : vsize (general.edges sample_general) <= size_max)
    by (vm_compute; discriminate).
  assert (Hv : isnan (of_Z 1) = false) by reflexivity.
  assert (Hinf : flt (of_Z 1) infinity = true) by reflexivity.
  split; [repeat split; assumption |].
  exact (general_index_is_the_only_bracket _ _ _ _ Hmade Hasc Hsize Hv Hinf).
Defined.

(** ** The edges of the equispaced scheme and its thresholds *)

(** A finite double divided by itself is 1. *)
Lemma fdiv_self (s : bool) (m : positive) (e : Z) :
  fdiv (S754_finite s m e) (S754_finite s m e) = one.
Proof.
  unfold fdiv, SFdiv, SFdiv_core_binary.
  replace (Zdigits2 (Z.pos m) + e - (Zdigits2 (Z.pos m) + e)) with 0 by lia.
  replace (e - e) with 0 by lia.
  change (Z.min (fexp prec emax 0) 0) with (-53).
  change (0 - -53) with 53.
  rewrite Z.shiftl_mul_pow2 by lia.
  assert (Hdiv : Z.div_eucl (Z.pos m * 2 ^ 53) (Z.pos m) = (2 ^ 53, 0)).
  { pose proof (Z.div_mul (2 ^ 53) (Z.pos m) ltac:(lia)) as Hq.
    pose proof (Z.mod_mul (2 ^ 53) (Z.pos m) ltac:(lia)) as Hr.
    rewrite (Z.mul_comm (Z.pos m)).
    unfold Z.div, Z.modulo in Hq, Hr.
    destruct (Z.div_eucl (2 ^ 53 * Z.pos m) (Z.pos m)) as [q r].
    cbn [fst snd] in Hq, Hr. subst. reflexivity. }
  rewrite Hdiv.
  assert (Hloc : new_location (Z.pos m) 0 = loc_Exact).
  { unfold new_location, new_location_even, new_location_odd.
    destruct (Z.even (Z.pos m)); reflexivity. }
  rewrite Hloc, xorb_nilpotent.
  vm_compute. reflexivity.
Qed.

Lemma fdiv_zero_positive (z : Z) :
  0 < z < 2 ^ 53 -> fdiv (of_Z 0) (of_Z z) = of_Z 0.
Proof.
  intros Hz. destruct (of_Z_exact z Hz) as (m & e & -> & _). reflexivity.
Qed.

Lemma fdiv_of_Z_self (z : Z) :
  0 < z < 2 ^ 53 -> fdiv (of_Z z) (of_Z z) = of_Z 1.
Proof.
  intros Hz. destruct (of_Z_exact z Hz) as (m & e & -> & _).
  rewrite of_Z_one. apply fdiv_self.
Qed.

Lemma lookup_map {A B : Type} (f : A -> B) (l : list A) (i : nat) :
  List.map f l !! i = f <$> l !! i.
Proof.
  revert i. induction l as [| a l IH]; intros [| i]; cbn; try reflexivity.
  apply IH.
Qed.

Lemma lookup_cons_S {A : Type} (x : A) (l : list A) (i : nat) :
  (x :: l) !! S i = l !! i.
Proof. reflexivity. Qed.

(** The edge at position [k + 1], for [k] below the number of steps. *)
Lemma uniform_edge_lookup (T : detail.Transformation) (low high : double)
    (requested : Z) (name : string) (k : Z) :
  0 <= k < wrap (requested + 1) ->
  uniform.edges (uniform.make (T := T) low high requested name)
    !! S (Z.to_nat k)
  = Some (uniform.map_ (fsub (detail.imap high) (detail.imap low))
            (detail.imap low)
            (fdiv (of_Z k) (of_Z (wrap (wrap (requested + 1) - 1))))).
Proof.
  intros Hk. rewrite uniform_edges_closed_form. unfold spec_uniform_edges.
  rewrite lookup_cons_S.
  rewrite lookup_app_l by (rewrite length_map, length_seqZ; lia).
  rewrite lookup_map.
  assert (Hs : seqZ 0 (wrap (requested + 1)) !! Z.to_nat k = Some k).
  { apply lookup_seqZ. lia. }
  rewrite Hs. reflexivity.
Qed.

(** X6. The thresholds of [index] are stored edges: with at least one
    requested bin (and fewer than 2^53), the edge after the leading minus
    infinity is [min_], the edge before the trailing plus infinity is
    [max_], and there are [requested + 3] edges in all. *)
Theorem uniform_thresholds_are_edges (T : detail.Transformation)
    (low high : double) (requested : Z) (name : string) :
  let u := uniform.make (T := T) low high requested name in
  1 <= requested < 2 ^ 53 ->
  vsize (uniform.edges u) = requested + 3 /\
  uniform.edges u !! 0%nat = Some neg_infinity /\
  uniform.edges u !! 1%nat = Some (uniform.min_ u) /\
  uniform.edges u !! Z.to_nat (requested + 1) = Some (uniform.max_ u) /\
  uniform.edges u !! Z.to_nat (requested + 2) = Some infinity.
Proof.
  intros u Hr.
  assert (Hmax : 2 ^ 53 < size_max) by (vm_compute; reflexivity).
  assert (Hsteps : wrap (requested + 1) = requested + 1)
    by (apply wrap_small; lia).
  assert (Hlast : wrap (wrap (requested + 1) - 1) = requested).
  { rewrite Hsteps. replace (requested + 1 - 1) with requested by lia.
    apply wrap_small. lia. }
  pose proof (uniform_edge_count (T := T) low high requested name) as Hcount.
  fold u in Hcount. rewrite Hsteps in Hcount.
  split; [lia |].
  split; [unfold u; rewrite uniform_edges_closed_form; reflexivity |].
  split; [| split].
  - pose proof (uniform_edge_lookup T low high requested name 0 ltac:(lia)) as H.
    rewrite Hlast, fdiv_zero_positive in H by lia. exact H.
  - pose proof (uniform_edge_lookup T low high requested name requested
                  ltac:(lia)) as H.
    rewrite Hlast, fdiv_of_Z_self in H by lia.
    replace (Z.to_nat (requested + 1)) with (S (Z.to_nat requested)) by lia.
    exact H.
  - unfold u. rewrite uniform_edges_closed_form. unfold spec_uniform_edges.
    replace (Z.to_nat (requested + 2)) with (S (Z.to_nat (requested + 1))) by lia.
    rewrite lookup_cons_S.
    rewrite lookup_app_r by (rewrite length_map, length_seqZ; lia).
    rewrite length_map, length_seqZ, Hsteps.
    replace (Z.to_nat (requested + 1) - Z.to_nat (requested + 1))%nat
      with 0%nat by lia.
    reflexivity.
Qed.

Lemma uniform_thresholds_are_edges_witness :
  1 <= 11 < 2 ^ 53 /\
  vsize (uniform.edges sample_linear) = 11 + 3 /\
  uniform.edges sample_linear !! 0%nat = Some neg_infinity /\
  uniform.edges sample_linear !! 1%nat = Some (uniform.min_ sample_linear) /\
  uniform.edges sample_linear !! Z.to_nat (11 + 1)
    = Some (uniform.max_ sample_linear) /\
  uniform.edges sample_linear !! Z.to_nat (11 + 2) = Some infinity.
Proof.
  assert (Hr : 1 <= 11 < 2 ^ 53) by lia.
  split; [exact Hr |].
  exact (uniform_thresholds_are_edges detail.identity (of_Z 0) (of_Z 10) 11
           "dimension"%string Hr).
Defined.

(** X7. With zero requested bins the step divides 0 by 0: the one edge
    between the infinities is [map] of NaN, and two bins are reported. *)
Theorem uniform_without_requested_bins (T : detail.Transformation)
    (low high : double) (name : string) :
  let u := uniform.make (T := T) low high 0 name in
  uniform.edges u = [neg_infinity; detail.map NaN; infinity] /\
  uniform.nbins u = 2 /\
  vsize (uniform.edges u) = uniform.nbins u + 1.
Proof.
  intros u. unfold u. rewrite uniform_edges_closed_form.
  unfold spec_uniform_edges.
  change (wrap (0 + 1)) with 1. change (wrap (1 - 1)) with 0.
  change (seqZ 0 1) with [0]. cbn [List.map app].
  change (fdiv (of_Z 0) (of_Z 0)) with NaN.
  repeat split.
  destruct (fsub (detail.imap high) (detail.imap low)) as [s | [|] | | [|] m e];
    reflexivity.
Qed.

Lemma fge_nan_false (x : double) : fge NaN x = false.
Proof. destruct x as [s | [|] | | [|] m e]; reflexivity. Qed.

(** X8. [index] of the equispaced scheme has no defined result for NaN
    when the transformation maps NaN to NaN, as the identity and the
    square root do: both comparisons fail and NaN is converted to
    [size_t]. *)
Theorem uniform_index_of_nan_is_undefined (T : detail.Transformation)
    (u : uniform.t) :
  detail.imap NaN = NaN ->
  uniform.index (T := T) u NaN = Undefined.
Proof.
  intros Hnan. unfold uniform.index, uniform.imap_.
  rewrite flt_nan_false, fge_nan_false, Hnan.
  change (fsub NaN (uniform.offset_ u)) with NaN.
  change (fdiv NaN (uniform.range_ u)) with NaN.
  destruct (of_Z (wrap (uniform.nsteps_ u - 1))) as [s | [|] | | [|] m e];
    reflexivity.
Qed.

Lemma uniform_index_of_nan_is_undefined_witness :
  (detail.imap (Transformation := detail.identity) NaN = NaN /\
   detail.imap (Transformation := detail.power2) NaN = NaN) /\
  uniform.index (T := detail.identity) sample_linear NaN = Undefined /\
  uniform.index (T := detail.power2) sample_sqrt NaN = Undefined.
Proof.
  assert (Hid : detail.imap (Transformation := detail.identity) NaN = NaN)
    by reflexivity.
  assert (Hsq : detail.imap (Transformation := detail.power2) NaN = NaN)
    by reflexivity.
  split; [split; assumption |].
  split.
  - exact (uniform_index_of_nan_is_undefined detail.identity sample_linear Hid).
  - exact (uniform_index_of_nan_is_undefined detail.power2 sample_sqrt Hsq).
Defined.

(** ** Which calls of [fill_with_weight] are rejected *)

Lemma valid_false_some_nan (dims : list dimension) (args : list double) :
  length args = length dims ->
  histogram_impl.valid dims args = false -> some_nan args.
Proof.
  revert args. induction dims as [| d ts IH]; intros [| v tail] Hlen Hv;
    try discriminate.
  cbn [histogram_impl.valid] in Hv.
  destruct (isnan v) eqn:E.
  - left. exact E.
  - right. apply IH; [cbn in Hlen; lia | exact Hv].
Qed.

(** What a call leaves and answers, case by case. *)
Lemma fill_with_weight_cases (h : histogram.t) (w : double)
    (args : list double) :
  length args = length (histogram.dims h) ->
  (some_nan args /\ histogram.fill_with_weight h w args = (h, Ret false)) \/
  (no_nan args /\
   ((exists offset b s,
       histogram_impl.index (histogram.dims h) args = Ret offset /\
       histogram.bincontent_ h !! Z.to_nat offset = Some b /\
       histogram.squaredweights_ h !! Z.to_nat offset = Some s /\
       0 <= offset < vsize (histogram.bincontent_ h) /\
       histogram.fill_with_weight h w args =
         ({| histogram.dims := histogram.dims h;
             histogram.title_ := histogram.title_ h;
             histogram.n_entries_ := wrap (histogram.n_entries_ h + 1);
             histogram.bincontent_ :=
               <[Z.to_nat offset := fadd b w]> (histogram.bincontent_ h);
             histogram.squaredweights_ :=
               <[Z.to_nat offset := fadd s (fmul w w)]>
                 (histogram.squaredweights_ h) |},
          Ret true)) \/
    (exists h' r,
       histogram.fill_with_weight h w args = (h', r) /\
       r <> Ret true /\ r <> Ret false /\
       histogram.dims h' = histogram.dims h /\
       histogram.title_ h' = histogram.title_ h /\
       histogram.n_entries_ h' = histogram.n_entries_ h /\
       length (histogram.bincontent_ h') = length (histogram.bincontent_ h) /\
       histogram.squaredweights_ h' = histogram.squaredweights_ h /\
       (length (histogram.bincontent_ h) = length (histogram.squaredweights_ h) ->
        h' = h)))).
Proof.
  intros Hlen.
  destruct (histogram_impl.valid (histogram.dims h) args) eqn:Hvalid.
  2: { left. pose proof (valid_false_some_nan _ _ Hlen Hvalid) as Hnan.
       split; [exact Hnan |].
       unfold histogram.fill_with_weight.
       rewrite (arity_checked h args Hlen), Hvalid. reflexivity. }
  right.
  assert (Hno : no_nan args).
  { clear w. revert Hlen Hvalid. generalize (histogram.dims h) as ds.
    induction args as [| v tail IH]; intros [| d ts] Hlen Hv;
      try discriminate; [constructor |].
    cbn [histogram_impl.valid] in Hv. apply andb_true_iff in Hv as [Hv1 Hv2].
    constructor; [destruct (isnan v); [discriminate | reflexivity] |].
    apply (IH ts); [cbn in Hlen; lia | exact Hv2]. }
  split; [exact Hno |].
  destruct (histogram_impl.index (histogram.dims h) args) as [offset | | | |]
    eqn:Hidx.
  2-5: right; eexists _, _; unfold histogram.fill_with_weight;
       rewrite (arity_checked h args Hlen), Hvalid, Hidx;
       split; [reflexivity |];
       repeat split; try discriminate; reflexivity.
  pose proof (index_nonneg _ _ _ Hidx) as Hoff.
  destruct (Z_le_gt_dec (vsize (histogram.bincontent_ h)) offset) as [Hout | Hin].
  { right. eexists _, _.
    split; [exact (fill_with_weight_out_of_range h w args offset Hlen Hno Hidx Hout) |].
    repeat split; try discriminate; reflexivity. }
  destruct (lookup_lt_is_Some_2 (histogram.bincontent_ h) (Z.to_nat offset))
    as [b Hb]; [unfold vsize in Hin; lia |].
  destruct (histogram.squaredweights_ h !! Z.to_nat offset) as [s |] eqn:Hs.
  { left. exists offset, b, s.
    repeat split; try assumption; try lia.
    exact (fill_with_weight_in_range h w args offset b s Hlen Hno Hidx Hb Hs). }
  right. eexists _, _.
  unfold histogram.fill_with_weight.
  rewrite (arity_checked h args Hlen), Hvalid, Hidx.
  cbn [histogram.on_return].
  rewrite (at_in_range _ _ _ Hb) by lia.
  cbn [histogram.on_return histogram.set_bincontent histogram.squaredweights_].
  assert (Hthrow : at_ (histogram.squaredweights_ h) offset = Throw_out_of_range).
  { unfold at_. rewrite Hs. destruct (_ <=? _); reflexivity. }
  rewrite Hthrow. cbn [histogram.on_return].
  split; [reflexivity |].
  unfold histogram.set_bincontent.
  cbn [histogram.dims histogram.title_ histogram.n_entries_
       histogram.bincontent_ histogram.squaredweights_].
  rewrite length_insert.
  repeat split; try discriminate.
  intros Heq. apply lookup_ge_None in Hs. apply lookup_lt_Some in Hb. lia.
Qed.

Lemma no_nan_not_some_nan (args : list double) :
  no_nan args -> some_nan args -> False.
Proof.
  unfold no_nan, some_nan. rewrite Forall_forall, Exists_exists.
  intros Hno (v & Hin & Hv). rewrite (Hno v Hin) in Hv. discriminate.
Qed.

(** X9. A call with the right number of coordinates answers [false] in
    exactly one case, a NaN among the coordinates, and then it leaves the
    histogram as it was. *)
Theorem fill_answers_false_exactly_for_nan (h : histogram.t) (w : double)
    (args : list double) :
  length args = length (histogram.dims h) ->
  (snd (histogram.fill_with_weight h w args) = Ret false <-> some_nan args) /\
  (snd (histogram.fill_with_weight h w args) = Ret false ->
   fst (histogram.fill_with_weight h w args) = h).
Proof.
  intros Hlen.
  destruct (fill_with_weight_cases h w args Hlen)
    as [[Hnan ->] | [Hno [(o & b & s & _ & _ & _ & _ & ->)
                         | (h' & r & -> & _ & Hr & _)]]];
    cbn [fst snd].
  - split; [split; [intros _; exact Hnan | reflexivity] | reflexivity].
  - split; [split; [discriminate |] | discriminate].
    intros Hnan. destruct (no_nan_not_some_nan args Hno Hnan).
  - split; [split; [intros H; destruct (Hr H) |] | intros H; destruct (Hr H)].
    intros Hnan. destruct (no_nan_not_some_nan args Hno Hnan).
Qed.

Lemma fill_answers_false_exactly_for_nan_witness :
  length [of_Z 1; NaN] = length (histogram.dims sample_histogram) /\
  (snd (histogram.fill_with_weight sample_histogram one [of_Z 1; NaN])
     = Ret false <-> some_nan [of_Z 1; NaN]) /\
  (snd (histogram.fill_with_weight sample_histogram one [of_Z 1; NaN])
     = Ret false ->
   fst (histogram.fill_with_weight sample_histogram one [of_Z 1; NaN])
     = sample_histogram).
Proof.
  assert (Hlen : length [of_Z 1; NaN] = length (histogram.dims sample_histogram))
    by reflexivity.
  split; [exact Hlen |].
  exact (fill_answers_false_exactly_for_nan sample_histogram one
           [of_Z 1; NaN] Hlen).
Defined.

(** ** What a call that does not succeed leaves behind *)

Lemma allocated_same_length (h : histogram.t) :
  allocated h ->
  length (histogram.bincontent_ h) = length (histogram.squaredweights_ h).
Proof. unfold allocated, vsize. intros [H1 H2]. lia. Qed.

Lemma fill_with_weight_ill_formed (h : histogram.t) (w : double)
    (args : list double) :
  length args <> length (histogram.dims h) ->
  histogram.fill_with_weight h w args = (h, Ill_formed).
Proof.
  intros Hlen. unfold histogram.fill_with_weight.
  destruct (Nat.eqb_spec (length args) (length (histogram.dims h)));
    [contradiction | reflexivity].
Qed.

(** X10. On a histogram whose two arrays have one slot per bin, a call
    that does not return [true] (a rejected coordinate, or an exception
    from the bounds check) changes nothing: no bin and no counter is
    touched before the throw. *)
Theorem fill_with_weight_all_or_nothing (h h' : histogram.t) (w : double)
    (args : list double) (r : outcome bool) :
  allocated h ->
  histogram.fill_with_weight h w args = (h', r) ->
  r <> Ret true ->
  h' = h.
Proof.
  intros Halloc Hfill Hr.
  destruct (Nat.eq_dec (length args) (length (histogram.dims h))) as [Hlen | Hlen].
  2: { rewrite (fill_with_weight_ill_formed h w args Hlen) in Hfill.
       congruence. }
  destruct (fill_with_weight_cases h w args Hlen)
    as [[_ Heq] | [_ [(o & b & s & _ & _ & _ & _ & Heq)
                     | (h1 & r1 & Heq & _ & _ & _ & _ & _ & _ & _ & Hsame)]]];
    rewrite Heq in Hfill.
  - congruence.
  - injection Hfill as _ <-. destruct Hr. reflexivity.
  - injection Hfill as <- _. apply Hsame, allocated_same_length, Halloc.
Qed.

Lemma fill_with_weight_all_or_nothing_witness :
  (allocated sample_general_histogram /\
   histogram.fill_with_weight sample_general_histogram one [infinity]
     = (sample_general_histogram, Throw_out_of_range) /\
   Throw_out_of_range <> Ret true) /\
  sample_general_histogram = sample_general_histogram.
Proof.
  assert (Halloc : allocated sample_general_histogram)
    by (split; reflexivity).
  assert (Hfill : histogram.fill_with_weight sample_general_histogram one
                    [infinity] = (sample_general_histogram, Throw_out_of_range))
    by reflexivity.
  assert (Hr : @Throw_out_of_range bool <> Ret true) by discriminate.
  split; [repeat split; assumption |].
  exact (fill_with_weight_all_or_nothing _ _ _ _ _ Halloc Hfill Hr).
Defined.

(** ** Runs of calls *)

(** What one call, whatever it answers, keeps and counts. *)
Lemma fill_with_weight_step (h : histogram.t) (w : double) (args : list double) :
  let h' := fst (histogram.fill_with_weight h w args) in
  let r := snd (histogram.fill_with_weight h w args) in
  histogram.dims h' = histogram.dims h /\
  histogram.title_ h' = histogram.title_ h /\
  length (histogram.bincontent_ h') = length (histogram.bincontent_ h) /\
  length (histogram.squaredweights_ h') = length (histogram.squaredweights_ h) /\
  wrap (histogram.n_entries_ h')
    = wrap (histogram.n_entries_ h + accepted [r]) /\
  (0 <= histogram.n_entries_ h <= size_max ->
   0 <= histogram.n_entries_ h' <= size_max).
Proof.
  destruct (Nat.eq_dec (length args) (length (histogram.dims h))) as [Hlen | Hlen].
  2: { rewrite (fill_with_weight_ill_formed h w args Hlen). cbn.
       rewrite Z.add_0_r. repeat split; tauto. }
  destruct (fill_with_weight_cases h w args Hlen)
    as [[_ ->] | [_ [(o & b & s & _ & _ & _ & _ & ->)
                    | (h1 & r1 & -> & Hr1 & Hr2 & Hd & Ht & Hn & Hb & Hs & _)]]];
    cbn [fst snd].
  - cbn. rewrite Z.add_0_r. repeat split; tauto.
  - cbn [histogram.dims histogram.title_ histogram.n_entries_
         histogram.bincontent_ histogram.squaredweights_ accepted].
    rewrite !length_insert, wrap_wrap.
    repeat split; try apply wrap_range; try (f_equal; lia).
  - rewrite Hd, Ht, Hn, Hb, Hs.
    assert (Hacc : accepted [r1] = 0).
    { destruct r1 as [[|] | | | |]; try reflexivity; congruence. }
    rewrite Hacc, Z.add_0_r. repeat split; tauto.
Qed.

Lemma accepted_cons (r : outcome bool) (rs : list (outcome bool)) :
  accepted (r :: rs) = accepted [r] + accepted rs.
Proof. destruct r as [[|] | | | |]; cbn; lia. Qed.

Lemma accepted_range (rs : list (outcome bool)) :
  0 <= accepted rs <= vsize rs.
Proof.
  unfold vsize. induction rs as [| r rs IH]; [cbn; lia |].
  rewrite accepted_cons. cbn [length].
  destruct r as [[|] | | | |]; cbn [accepted]; lia.
Qed.

Lemma fill_sequence_invariants (calls : list (double * list double))
    (h : histogram.t) :
  let h' := fst (fill_sequence h calls) in
  let rs := snd (fill_sequence h calls) in
  length rs = length calls /\
  histogram.dims h' = histogram.dims h /\
  histogram.title_ h' = histogram.title_ h /\
  length (histogram.bincontent_ h') = length (histogram.bincontent_ h) /\
  length (histogram.squaredweights_ h') = length (histogram.squaredweights_ h) /\
  wrap (histogram.n_entries_ h') = wrap (histogram.n_entries_ h + accepted rs) /\
  (0 <= histogram.n_entries_ h <= size_max ->
   0 <= histogram.n_entries_ h' <= size_max).
Proof.
  revert h. induction calls as [| [w args] rest IH]; intros h.
  - cbn. rewrite Z.add_0_r. repeat split; tauto.
  - cbn [fill_sequence].
    pose proof (fill_with_weight_step h w args) as Hstep.
    destruct (histogram.fill_with_weight h w args) as [h1 r].
    cbn [fst snd] in Hstep.
    destruct Hstep as (Hd & Ht & Hb & Hs & Hn & Hrange).
    specialize (IH h1).
    destruct (fill_sequence h1 rest) as [h2 rs].
    cbn [fst snd] in IH |- *.
    destruct IH as (Hl' & Hd' & Ht' & Hb' & Hs' & Hn' & Hrange').
    rewrite Hd', Ht', Hb', Hs', Hd, Ht, Hb, Hs, Hn'.
    rewrite (accepted_cons r rs).
    repeat split; try tauto.
    + cbn [length]. lia.
    + rewrite <- wrap_add_l, Hn, wrap_add_l. f_equal. lia.
Qed.

(** X11. Over any run of calls, accepted or not, the dimensions, the
    title and the sizes of both arrays stay as the constructor left them,
    and [n_entries()] advances by the number of calls that returned
    [true], modulo 2^64. *)
Theorem fill_sequence_counts_accepted_calls (h : histogram.t)
    (calls : list (double * list double)) :
  allocated h ->
  0 <= histogram.n_entries h <= size_max ->
  let h' := fst (fill_sequence h calls) in
  let rs := snd (fill_sequence h calls) in
  allocated h' /\
  histogram.shape h' = histogram.shape h /\
  histogram.binedges h' = histogram.binedges h /\
  histogram.labels h' = histogram.labels h /\
  histogram.title h' = histogram.title h /\
  histogram.n_entries h' = wrap (histogram.n_entries h + accepted rs) /\
  (histogram.n_entries h + vsize calls <= size_max ->
   histogram.n_entries h' = histogram.n_entries h + accepted rs).
Proof.
  intros [Hb0 Hs0] Hn0 h' rs.
  destruct (fill_sequence_invariants calls h)
    as (Hl & Hd & Ht & Hb & Hs & Hn & Hrange).
  fold h' in Hd, Ht, Hb, Hs, Hn, Hrange. fold rs in Hl, Hn.
  unfold histogram.n_entries in *.
  rewrite (wrap_small (histogram.n_entries_ h')) in Hn by (apply Hrange, Hn0).
  unfold allocated, histogram.shape, histogram.binedges, histogram.labels,
    histogram.title, vsize in *.
  rewrite Hd, Ht, Hb, Hs.
  repeat split; try assumption.
  intros Hfit. rewrite Hn. apply wrap_small.
  pose proof (accepted_range rs) as Hacc. unfold vsize in Hacc. lia.
Qed.

Lemma fill_sequence_counts_accepted_calls_witness :
  let calls := [(one, [of_Z 1; of_Z 1]); (one, [of_Z 1; NaN]);
                (one, [of_Z 10; infinity]); (of_Z 3, [of_Z 5; of_Z 1])] in
  (allocated sample_histogram /\
   0 <= histogram.n_entries sample_histogram <= size_max) /\
  snd (fill_sequence sample_histogram calls)
    = [Ret true; Ret false; Throw_out_of_range; Ret true] /\
  histogram.n_entries (fst (fill_sequence sample_histogram calls))
    = wrap (histogram.n_entries sample_histogram
            + accepted (snd (fill_sequence sample_histogram calls))).
Proof.
  intros calls.
  assert (Halloc : allocated sample_histogram) by (split; reflexivity).
  assert (Hn : 0 <= histogram.n_entries sample_histogram <= size_max)
    by (vm_compute; split; discriminate).
  split; [split; assumption |].
  split; [vm_compute; reflexivity |].
  exact (proj1 (proj2 (proj2 (proj2 (proj2 (proj2
    (fill_sequence_counts_accepted_calls sample_histogram calls
       Halloc Hn))))))).
Defined.

(** ** Calls on different bins *)

Lemma in_range_lookup (v : list double) (offset : Z) :
  0 <= offset < vsize v -> exists x, v !! Z.to_nat offset = Some x.
Proof.
  intros H. apply lookup_lt_is_Some_2. unfold vsize in H. lia.
Qed.

(** Two accepted calls in a row. *)
Lemma fill_with_weight_twice (h : histogram.t) (w1 w2 : double)
    (args1 args2 : list double) (o1 o2 : Z) (b1 s1 b2 s2 : double) :
  length args1 = length (histogram.dims h) ->
  length args2 = length (histogram.dims h) ->
  no_nan args1 -> no_nan args2 ->
  histogram_impl.index (histogram.dims h) args1 = Ret o1 ->
  histogram_impl.index (histogram.dims h) args2 = Ret o2 ->
  Z.to_nat o1 <> Z.to_nat o2 ->
  histogram.bincontent_ h !! Z.to_nat o1 = Some b1 ->
  histogram.squaredweights_ h !! Z.to_nat o1 = Some s1 ->
  histogram.bincontent_ h !! Z.to_nat o2 = Some b2 ->
  histogram.squaredweights_ h !! Z.to_nat o2 = Some s2 ->
  histogram.fill_with_weight (fst (histogram.fill_with_weight h w1 args1))
    w2 args2 =
  ({| histogram.dims := histogram.dims h;
      histogram.title_ := histogram.title_ h;
      histogram.n_entries_ := wrap (wrap (histogram.n_entries_ h + 1) + 1);
      histogram.bincontent_ :=
        <[Z.to_nat o2 := fadd b2 w2]>
          (<[Z.to_nat o1 := fadd b1 w1]> (histogram.bincontent_ h));
      histogram.squaredweights_ :=
        <[Z.to_nat o2 := fadd s2 (fmul w2 w2)]>
          (<[Z.to_nat o1 := fadd s1 (fmul w1 w1)]>
             (histogram.squaredweights_ h)) |},
   Ret true).
Proof.
  intros Hl1 Hl2 Hn1 Hn2 Hi1 Hi2 Hne Hb1 Hs1 Hb2 Hs2.
  rewrite (fill_with_weight_in_range h w1 args1 o1 b1 s1 Hl1 Hn1 Hi1 Hb1 Hs1).
  cbn [fst].
  rewrite (fill_with_weight_in_range _ w2 args2 o2 b2 s2); cbn
    [histogram.dims histogram.title_ histogram.n_entries_
     histogram.bincontent_ histogram.squaredweights_];
    try assumption; try reflexivity.
  - rewrite list_lookup_insert_ne by exact Hne. exact Hb2.
  - rewrite list_lookup_insert_ne by exact Hne. exact Hs2.
Qed.

(** X12. Two calls that fall into different bins commute: made in either
    order, both are accepted and they leave the same histogram. *)
Theorem fills_to_different_bins_commute (h : histogram.t) (w1 w2 : double)
    (args1 args2 : list double) (o1 o2 : Z) :
  allocated h ->
  length args1 = length (histogram.dims h) ->
  length args2 = length (histogram.dims h) ->
  no_nan args1 -> no_nan args2 ->
  histogram_impl.index (histogram.dims h) args1 = Ret o1 ->
  histogram_impl.index (histogram.dims h) args2 = Ret o2 ->
  o1 < histogram_impl.size (histogram.dims h) ->
  o2 < histogram_impl.size (histogram.dims h) ->
  o1 <> o2 ->
  histogram.fill_with_weight (fst (histogram.fill_with_weight h w1 args1))
    w2 args2
  = histogram.fill_with_weight (fst (histogram.fill_with_weight h w2 args2))
      w1 args1 /\
  snd (histogram.fill_with_weight h w1 args1) = Ret true /\
  snd (histogram.fill_with_weight
         (fst (histogram.fill_with_weight h w1 args1)) w2 args2) = Ret true.
Proof.
  intros [Hb Hs] Hl1 Hl2 Hn1 Hn2 Hi1 Hi2 Ho1 Ho2 Hne.
  pose proof (index_nonneg _ _ _ Hi1) as Hp1.
  pose proof (index_nonneg _ _ _ Hi2) as Hp2.
  destruct (in_range_lookup (histogram.bincontent_ h) o1 ltac:(lia)) as [b1 Hb1].
  destruct (in_range_lookup (histogram.squaredweights_ h) o1 ltac:(lia))
    as [s1 Hs1].
  destruct (in_range_lookup (histogram.bincontent_ h) o2 ltac:(lia)) as [b2 Hb2].
  destruct (in_range_lookup (histogram.squaredweights_ h) o2 ltac:(lia))
    as [s2 Hs2].
  assert (Hnat : Z.to_nat o1 <> Z.to_nat o2) by lia.
  rewrite (fill_with_weight_twice h w1 w2 args1 args2 o1 o2 b1 s1 b2 s2)
    by assumption.
  rewrite (fill_with_weight_twice h w2 w1 args2 args1 o2 o1 b2 s2 b1 s1)
    by (assumption || (intros E; apply Hnat; symmetry; exact E)).
  rewrite (fill_with_weight_in_range h w1 args1 o1 b1 s1 Hl1 Hn1 Hi1 Hb1 Hs1).
  cbn [fst snd].
  repeat split.
  assert (Hnat' : Z.to_nat o2 <> Z.to_nat o1) by lia.
  rewrite (list_insert_insert_ne (histogram.bincontent_ h) _ _ _ _ Hnat').
  rewrite (list_insert_insert_ne (histogram.squaredweights_ h) _ _ _ _ Hnat').
  reflexivity.
Qed.

Lemma fills_to_different_bins_commute_witness :
  (allocated sample_histogram /\
   length [of_Z 1; of_Z 1] = length (histogram.dims sample_histogram) /\
   length [of_Z 5; of_Z 1] = length (histogram.dims sample_histogram) /\
   no_nan [of_Z 1; of_Z 1] /\ no_nan [of_Z 5; of_Z 1] /\
   histogram_impl.index (histogram.dims sample_histogram) [of_Z 1; of_Z 1]
     = Ret 10 /\
   histogram_impl.index (histogram.dims sample_histogram) [of_Z 5; of_Z 1]
     = Ret 26 /\
   10 < histogram_impl.size (histogram.dims sample_histogram) /\
   26 < histogram_impl.size (histogram.dims sample_histogram) /\
   10 <> 26) /\
  histogram.fill_with_weight
    (fst (histogram.fill_with_weight sample_histogram (of_Z 3) [of_Z 1; of_Z 1]))
    one [of_Z 5; of_Z 1]
  = histogram.fill_with_weight
      (fst (histogram.fill_with_weight sample_histogram one [of_Z 5; of_Z 1]))
      (of_Z 3) [of_Z 1; of_Z 1].
Proof.
  assert (Halloc : allocated sample_histogram) by (split; reflexivity).
  assert (Hl1 : length [of_Z 1; of_Z 1]
                = length (histogram.dims sample_histogram)) by reflexivity.
  assert (Hl2 : length [of_Z 5; of_Z 1]
                = length (histogram.dims sample_histogram)) by reflexivity.
  assert (Hn1 : no_nan [of_Z 1; of_Z 1]) by (repeat constructor).
  assert (Hn2 : no_nan [of_Z 5; of_Z 1]) by (repeat constructor).
  assert (Hi1 : histogram_impl.index (histogram.dims sample_histogram)
                  [of_Z 1; of_Z 1] = Ret 10) by (vm_compute; reflexivity).
  assert (Hi2 : histogram_impl.index (histogram.dims sample_histogram)
                  [of_Z 5; of_Z 1] = Ret 26) by (vm_compute; reflexivity).
  assert (Ho1 : 10 < histogram_impl.size (histogram.dims sample_histogram))
    by (vm_compute; reflexivity).
  assert (Ho2 : 26 < histogram_impl.size (histogram.dims sample_histogram))
    by (vm_compute; reflexivity).
  assert (Hne : 10 <> 26) by discriminate.
  split; [repeat (split; [assumption |]); assumption |].
  exact (proj1 (fills_to_different_bins_commute sample_histogram (of_Z 3) one
                  [of_Z 1; of_Z 1] [of_Z 5; of_Z 1] 10 26
                  Halloc Hl1 Hl2 Hn1 Hn2 Hi1 Hi2 Ho1 Ho2 Hne)).
Defined.

(** ** The first call on a new histogram *)

Lemma fadd_zero_l (w : double) : w <> S754_zero true -> fadd zero w = w.
Proof.
  destruct w as [[|] | [|] | | [|] m e]; intros H; try reflexivity.
  destruct H. reflexivity.
Qed.

(** Rounding a non-negative value never gives the negative zero. *)
Lemma binary_round_aux_not_neg_zero (m e : Z) (l : location) :
  binary_round_aux prec emax false m e l <> S754_zero true.
Proof.
  unfold binary_round_aux.
  destruct (shr_fexp prec emax m e l) as [mrs' e'].
  destruct (shr_fexp prec emax _ e' loc_Exact) as [mrs'' e''].
  destruct (shr_m mrs'') as [| q | q]; try discriminate.
  destruct (e'' <=? emax - prec); discriminate.
Qed.

Lemma fmul_self_not_neg_zero (w : double) : fmul w w <> S754_zero true.
Proof.
  destruct w as [[|] | [|] | | s m e]; try discriminate.
  unfold fmul, SFmul. rewrite xorb_nilpotent.
  apply binary_round_aux_not_neg_zero.
Qed.

Lemma create_lookup (title : string) (dims : list dimension) (offset : Z) :
  0 <= offset < histogram_impl.size dims ->
  histogram.bincontent_ (histogram.create title dims) !! Z.to_nat offset
    = Some zero /\
  histogram.squaredweights_ (histogram.create title dims) !! Z.to_nat offset
    = Some zero.
Proof.
  intros H. unfold histogram.create, histogram.make.
  cbn [histogram.bincontent_ histogram.squaredweights_].
  split; apply lookup_replicate_2; lia.
Qed.

(** X13. A histogram comes out of [create] with no entries and zero in
    every bin of both arrays, and the first accepted call leaves the weight
    itself and its square in the bin of the coordinates (a weight of
    negative zero reads back as positive zero). *)
Theorem first_fill_stores_the_weight (title : string) (dims : list dimension)
    (w : double) (args : list double) (offset : Z) :
  length args = length dims ->
  no_nan args ->
  histogram_impl.index dims args = Ret offset ->
  offset < histogram_impl.size dims ->
  let h := histogram.create title dims in
  histogram.n_entries h = 0 /\
  (forall j : nat, Z.of_nat j < histogram_impl.size dims ->
     histogram.bincontent_ h !! j = Some zero /\
     histogram.squaredweights_ h !! j = Some zero) /\
  exists h',
    histogram.fill_with_weight h w args = (h', Ret true) /\
    histogram.n_entries h' = 1 /\
    (w <> S754_zero true ->
     histogram.bincontent_ h' !! Z.to_nat offset = Some w) /\
    (w = S754_zero true ->
     histogram.bincontent_ h' !! Z.to_nat offset = Some zero) /\
    histogram.squaredweights_ h' !! Z.to_nat offset = Some (fmul w w) /\
    (forall j : nat, Z.of_nat j < histogram_impl.size dims ->
       j <> Z.to_nat offset ->
       histogram.bincontent_ h' !! j = Some zero /\
       histogram.squaredweights_ h' !! j = Some zero).
Proof.
  intros Hlen Hno Hidx Hoff h.
  pose proof (index_nonneg _ _ _ Hidx) as Hpos.
  assert (Hzero : forall j : nat, Z.of_nat j < histogram_impl.size dims ->
            histogram.bincontent_ h !! j = Some zero /\
            histogram.squaredweights_ h !! j = Some zero).
  { intros j Hj.
    destruct (create_lookup title dims (Z.of_nat j) ltac:(lia)) as [H1 H2].
    rewrite Nat2Z.id in H1, H2. split; assumption. }
  split; [reflexivity |]. split; [exact Hzero |].
  destruct (create_lookup title dims offset ltac:(lia)) as [Hb Hs].
  fold h in Hb, Hs.
  eexists. split.
  { exact (fill_with_weight_in_range h w args offset zero zero
             Hlen Hno Hidx Hb Hs). }
  cbn [histogram.n_entries histogram.n_entries_ histogram.bincontent_
       histogram.squaredweights_].
  assert (Hin : (Z.to_nat offset < length (histogram.bincontent_ h))%nat).
  { apply lookup_lt_Some in Hb. exact Hb. }
  assert (Hin' : (Z.to_nat offset < length (histogram.squaredweights_ h))%nat).
  { apply lookup_lt_Some in Hs. exact Hs. }
  rewrite !list_lookup_insert_eq by assumption.
  split; [reflexivity |].
  split; [intros Hw; rewrite (fadd_zero_l w Hw); reflexivity |].
  split; [intros ->; reflexivity |].
  split; [rewrite (fadd_zero_l _ (fmul_self_not_neg_zero w)); reflexivity |].
  intros j Hj Hne.
  rewrite !list_lookup_insert_ne by (intros E; apply Hne; symmetry; exact E).
  apply Hzero, Hj.
Qed.

Lemma first_fill_stores_the_weight_witness :
  (length [of_Z 1; of_Z 1] = length (histogram.dims sample_histogram) /\
   no_nan [of_Z 1; of_Z 1] /\
   histogram_impl.index (histogram.dims sample_histogram) [of_Z 1; of_Z 1]
     = Ret 10 /\
   10 < histogram_impl.size (histogram.dims sample_histogram)) /\
  exists h',
    histogram.fill_with_weight sample_histogram (of_Z 3) [of_Z 1; of_Z 1]
      = (h', Ret true) /\
    histogram.n_entries h' = 1 /\
    histogram.squaredweights_ h' !! Z.to_nat 10 = Some (fmul (of_Z 3) (of_Z 3)).
Proof.
  assert (Hl : length [of_Z 1; of_Z 1]
               = length (histogram.dims sample_histogram)) by reflexivity.
  assert (Hn : no_nan [of_Z 1; of_Z 1]) by (repeat constructor).
  assert (Hi : histogram_impl.index (histogram.dims sample_histogram)
                 [of_Z 1; of_Z 1] = Ret 10) by (vm_compute; reflexivity).
  assert (Ho : 10 < histogram_impl.size (histogram.dims sample_histogram))
    by (vm_compute; reflexivity).
  split; [repeat (split; [assumption |]); assumption |].
  destruct (first_fill_stores_the_weight "hola cabrones"%string
              (histogram.dims sample_histogram) (of_Z 3) [of_Z 1; of_Z 1] 10
              Hl Hn Hi Ho)
    as (_ & _ & h' & Hfill & Hcount & _ & _ & Hsq & _).
  exists h'. repeat split; assumption.
Defined.

(** ** Counting with doubles *)

Lemma digits_exact (p : positive) (k : Z) :
  2 ^ (k - 1) <= Z.pos p < 2 ^ k -> 1 <= k -> Z.pos (digits2_pos p) = k.
Proof.
  intros [Hlow Hup] Hk.
  pose proof (digits_at_most p k ltac:(lia) Hup) as Hle.
  pose proof (digits_upper_bound p) as Hd.
  destruct (Z_le_gt_dec k (Z.pos (digits2_pos p))) as [H | H]; [lia |].
  exfalso.
  assert (2 ^ Z.pos (digits2_pos p) <= 2 ^ (k - 1))
    by (apply Z.pow_le_mono_r; lia).
  lia.
Qed.

(** Integers below 2^53 convert to a normal double: 53 significant bits. *)
Lemma of_Z_normal (z : Z) :
  0 < z < 2 ^ 53 ->
  exists (m : positive) (e : Z),
    of_Z z = S754_finite false m e /\ -52 <= e <= 0 /\
    Z.pos m = z * 2 ^ (- e) /\ 2 ^ 52 <= Z.pos m < 2 ^ 53.
Proof.
  intros Hz. destruct z as [| q | q]; try lia.
  unfold of_Z, binary_normalize, binary_round.
  rewrite fexp_unfold.
  pose proof (digits_upper_bound q) as Hup.
  pose proof (digits_lower_bound q) as Hlow.
  assert (Hd : Z.pos (digits2_pos q) <= 53) by (apply digits_at_most; lia).
  assert (Hd1 : 1 <= Z.pos (digits2_pos q)) by lia.
  set (d := Z.pos (digits2_pos q)) in *.
  replace (Z.max (d + 0 - 53) (-1074)) with (d - 53) by lia.
  unfold shl_align.
  destruct (d - 53 - 0) as [| k | k] eqn:Hk; try lia.
  - exists q, 0. rewrite binary_round_aux_exact by lia.
    split; [reflexivity |]. split; [lia |]. change (2 ^ (- 0)) with 1.
    replace (d - 1) with 52 in Hlow by lia. lia.
  - assert (Hval : Z.pos (Pos.iter xO q k) = Z.pos q * 2 ^ (- (d - 53))).
    { rewrite iter_xO. f_equal. f_equal. lia. }
    assert (Hs53 : 2 ^ 53 = 2 ^ d * 2 ^ (- (d - 53))).
    { rewrite <- Z.pow_add_r by lia. f_equal. lia. }
    assert (Hs52 : 2 ^ 52 = 2 ^ (d - 1) * 2 ^ (- (d - 53))).
    { rewrite <- Z.pow_add_r by lia. f_equal. lia. }
    pose proof (pow2_pos (- (d - 53)) ltac:(lia)) as Hp.
    assert (Hbound : 2 ^ 52 <= Z.pos (Pos.iter xO q k) < 2 ^ 53).
    { rewrite Hval, Hs53, Hs52. split.
      - apply Z.mul_le_mono_nonneg_r; lia.
      - apply Z.mul_lt_mono_pos_r; assumption. }
    exists (Pos.iter xO q k), (d - 53).
    rewrite binary_round_aux_exact by lia.
    split; [reflexivity |]. split; [lia |]. split; assumption.
Qed.

(** A normal mantissa scaled by a power of two rounds back to itself. *)
Lemma binary_round_canonical (M m' : positive) (e' n : Z) :
  2 ^ 52 <= Z.pos m' < 2 ^ 53 -> -1074 <= e' <= 971 -> 0 <= n ->
  Z.pos M = Z.pos m' * 2 ^ n ->
  binary_round prec emax false M (e' - n) = S754_finite false m' e'.
Proof.
  intros Hm' He' Hn HM.
  pose proof (pow2_pos n Hn) as Hpn.
  assert (HdM : Z.pos (digits2_pos M) = 53 + n).
  { apply digits_exact; [| lia]. rewrite HM.
    replace (53 + n - 1) with (52 + n) by lia.
    rewrite !Z.pow_add_r by lia. split.
    - apply Z.mul_le_mono_nonneg_r; lia.
    - apply Z.mul_lt_mono_pos_r; lia. }
  assert (Hdm : Z.pos (digits2_pos m') = 53) by (apply digits_exact; lia).
  rewrite <- (binary_round_aux_exact m' e') by lia.
  unfold binary_round. rewrite fexp_unfold, HdM.
  replace (Z.max (53 + n + (e' - n) - 53) (-1074)) with e' by lia.
  unfold shl_align.
  destruct (e' - (e' - n)) as [| p | p] eqn:Hp; try lia.
  - replace n with 0 in * by lia. rewrite Z.sub_0_r.
    change (2 ^ 0) with 1 in HM. f_equal. lia.
  - unfold binary_round_aux.
    assert (H1 : exists y, shr_fexp prec emax (Z.pos M) (e' - n) loc_Exact
                           = (y, e') /\ shr_m y = Z.pos m' /\ is_exact y).
    { unfold shr_fexp. rewrite fexp_unfold. cbn [Zdigits2 shr_record_of_loc].
      rewrite HdM.
      replace (Z.max (53 + n + (e' - n) - 53) (-1074) - (e' - n))
        with (Z.pos p) by lia.
      cbn [shr]. eexists. split; [f_equal; lia |].
      set (x := {| shr_m := Z.pos M; shr_r := false; shr_s := false |}).
      destruct (iter_shr_1_shifted p x ltac:(cbn; lia)) as [Hq Hexact].
      cbn [shr_m x] in Hq, Hexact.
      replace (Z.pos p) with n in Hq, Hexact by lia.
      split.
      - rewrite Hq, HM. apply Z.div_mul. lia.
      - apply Hexact. split; [| split; reflexivity].
        rewrite HM. apply Z.mod_mul. lia. }
    assert (H2 : shr_fexp prec emax (Z.pos m') e' loc_Exact
                 = ({| shr_m := Z.pos m'; shr_r := false; shr_s := false |}, e')).
    { unfold shr_fexp. rewrite fexp_unfold. cbn [Zdigits2 shr_record_of_loc].
      rewrite Hdm. unfold shr.
      destruct (Z.max (53 + e' - 53) (-1074) - e') eqn:Hsh;
        try reflexivity; lia. }
    destruct H1 as (y & -> & Hy & Hexact).
    rewrite H2.
    rewrite (proj2 (round_nearest_even_bounds (shr_m y) y) Hexact), Hy.
    cbn [shr_m loc_of_shr_record round_nearest_even].
    reflexivity.
Qed.

Lemma shl_align_value (m : positive) (ex ex' : Z) :
  ex' <= ex ->
  Z.pos (fst (shl_align m ex ex')) = Z.pos m * 2 ^ (ex - ex').
Proof.
  intros H. unfold shl_align.
  destruct (ex' - ex) as [| p | p] eqn:Hp; try lia; cbn [fst].
  - replace (ex - ex') with 0 by lia. change (2 ^ 0) with 1. lia.
  - rewrite iter_xO. f_equal. f_equal. lia.
Qed.

(** Adding 1.0 to an integer below 2^53 is exact. *)
Lemma fadd_of_Z_one (k : Z) :
  0 <= k -> k + 1 < 2 ^ 53 -> fadd (of_Z k) one = of_Z (k + 1).
Proof.
  intros Hk0 Hk1.
  destruct (Z.eq_dec k 0) as [-> | Hne]; [vm_compute; reflexivity |].
  destruct (of_Z_normal k ltac:(lia)) as (m & e & -> & He & Hm & Hb).
  destruct (of_Z_normal (k + 1) ltac:(lia)) as (m2 & e2 & -> & He2 & Hm2 & Hb2).
  unfold fadd, SFadd, one.
  replace (Z.min e (-52)) with (-52) by lia.
  cbn [cond_Zopp].
  pose proof (shl_align_value m e (-52) ltac:(lia)) as Ha.
  set (a := fst (shl_align m e (-52))) in *.
  change (fst (shl_align 4503599627370496 (-52) (-52)))
    with 4503599627370496%positive.
  change (Z.pos a + 4503599627370496)
    with (Z.pos (a + 4503599627370496)).
  cbn [binary_normalize].
  assert (H52 : Z.pos 4503599627370496 = 2 ^ 52) by (vm_compute; reflexivity).
  assert (HM : Z.pos (a + 4503599627370496) = Z.pos m2 * 2 ^ (52 + e2)).
  { rewrite Pos2Z.inj_add, Ha, Hm, Hm2, H52.
    rewrite <- !Z.mul_assoc, <- !Z.pow_add_r by lia.
    replace (- e + (e - -52)) with 52 by lia.
    replace (- e2 + (52 + e2)) with 52 by lia.
    lia. }
  rewrite <- (binary_round_canonical (a + 4503599627370496) m2 e2 (52 + e2)
                Hb2 ltac:(lia) ltac:(lia) HM).
  f_equal. lia.
Qed.

Lemma fmul_one_one : fmul one one = one.
Proof. vm_compute. reflexivity. Qed.

Lemma accepted_replicate (k : nat) :
  accepted (replicate k (Ret true)) = Z.of_nat k.
Proof. induction k as [| k IH]; cbn [replicate accepted]; lia. Qed.

(** A run of [fill] calls at one place, on a bin that holds an integer. *)
Lemma unit_fills_from (k : nat) (h : histogram.t) (args : list double)
    (offset c : Z) :
  length args = length (histogram.dims h) ->
  no_nan args ->
  histogram_impl.index (histogram.dims h) args = Ret offset ->
  histogram.bincontent_ h !! Z.to_nat offset = Some (of_Z c) ->
  histogram.squaredweights_ h !! Z.to_nat offset = Some (of_Z c) ->
  0 <= c -> c + Z.of_nat k < 2 ^ 53 ->
  histogram.bincontent_ (fst (fill_sequence h (replicate k (one, args))))
    !! Z.to_nat offset = Some (of_Z (c + Z.of_nat k)) /\
  histogram.squaredweights_ (fst (fill_sequence h (replicate k (one, args))))
    !! Z.to_nat offset = Some (of_Z (c + Z.of_nat k)) /\
  snd (fill_sequence h (replicate k (one, args))) = replicate k (Ret true).
Proof.
  revert h c.
  induction k as [| k IH]; intros h c Hlen Hno Hidx Hb Hs Hc Hk.
  - cbn. rewrite Z.add_0_r. repeat split; assumption.
  - cbn [replicate fill_sequence].
    rewrite (fill_with_weight_in_range h one args offset _ _
               Hlen Hno Hidx Hb Hs).
    rewrite fmul_one_one, (fadd_of_Z_one c) by lia.
    set (h1 := {| histogram.dims := histogram.dims h |}).
    assert (Hin : (Z.to_nat offset < length (histogram.bincontent_ h))%nat)
      by (apply lookup_lt_Some in Hb; exact Hb).
    assert (Hin' : (Z.to_nat offset < length (histogram.squaredweights_ h))%nat)
      by (apply lookup_lt_Some in Hs; exact Hs).
    destruct (IH h1 (c + 1)) as (Hb' & Hs' & Hr'); try assumption; try lia.
    + apply list_lookup_insert_eq. exact Hin.
    + apply list_lookup_insert_eq. exact Hin'.
    + destruct (fill_sequence h1 (replicate k (one, args))) as [h2 rs].
      cbn [fst snd] in *.
      replace (c + Z.of_nat (S k)) with (c + 1 + Z.of_nat k) by lia.
      rewrite Hr'. repeat split; assumption.
Qed.

(** X14. Counting is exact: [k] calls of [fill] at one place of a new
    histogram, for [k] below 2^53, are all accepted and leave exactly the
    double [k] in the bin of both arrays, and [k] in [n_entries()]. *)
Theorem unit_fills_are_counted_exactly (title : string)
    (dims : list dimension) (args : list double) (offset : Z) (k : nat) :
  length args = length dims ->
  no_nan args ->
  histogram_impl.index dims args = Ret offset ->
  offset < histogram_impl.size dims ->
  Z.of_nat k < 2 ^ 53 ->
  let run := fill_sequence (histogram.create title dims)
               (replicate k (one, args)) in
  (forall h, histogram.fill h args = histogram.fill_with_weight h one args) /\
  snd run = replicate k (Ret true) /\
  histogram.bincontent_ (fst run) !! Z.to_nat offset = Some (of_Z (Z.of_nat k)) /\
  histogram.squaredweights_ (fst run) !! Z.to_nat offset
    = Some (of_Z (Z.of_nat k)) /\
  histogram.n_entries (fst run) = Z.of_nat k.
Proof.
  intros Hlen Hno Hidx Hoff Hk run.
  pose proof (index_nonneg _ _ _ Hidx) as Hpos.
  destruct (create_lookup title dims offset ltac:(lia)) as [Hb Hs].
  destruct (unit_fills_from k (histogram.create title dims) args offset 0
              Hlen Hno Hidx Hb Hs ltac:(lia) ltac:(lia)) as (Hb' & Hs' & Hr).
  fold run in Hb', Hs', Hr. rewrite Z.add_0_l in Hb', Hs'.
  split; [reflexivity |].
  repeat (split; [assumption |]).
  destruct (fill_sequence_invariants (replicate k (one, args))
              (histogram.create title dims))
    as (_ & _ & _ & _ & _ & Hn & Hrange).
  fold run in Hn, Hrange. rewrite Hr, accepted_replicate in Hn.
  cbn [histogram.create histogram.make histogram.n_entries_] in Hn, Hrange.
  assert (Hmax : 2 ^ 53 < size_max) by (vm_compute; reflexivity).
  unfold histogram.n_entries.
  rewrite wrap_small in Hn by (apply Hrange; lia).
  rewrite Hn. apply wrap_small. lia.
Qed.

Lemma unit_fills_are_counted_exactly_witness :
  (length [of_Z 1; of_Z 1] = length (histogram.dims sample_histogram) /\
   no_nan [of_Z 1; of_Z 1] /\
   histogram_impl.index (histogram.dims sample_histogram) [of_Z 1; of_Z 1]
     = Ret 10 /\
   10 < histogram_impl.size (histogram.dims sample_histogram) /\
   Z.of_nat 3 < 2 ^ 53) /\
  histogram.bincontent_
    (fst (fill_sequence sample_histogram (replicate 3 (one, [of_Z 1; of_Z 1]))))
    !! Z.to_nat 10 = Some (of_Z (Z.of_nat 3)) /\
  histogram.n_entries
    (fst (fill_sequence sample_histogram (replicate 3 (one, [of_Z 1; of_Z 1]))))
  = Z.of_nat 3.
Proof.
  assert (Hl : length [of_Z 1; of_Z 1]
               = length (histogram.dims sample_histogram)) by reflexivity.
  assert (Hn : no_nan [of_Z 1; of_Z 1]) by (repeat constructor).
  assert (Hi : histogram_impl.index (histogram.dims sample_histogram)
                 [of_Z 1; of_Z 1] = Ret 10) by (vm_compute; reflexivity).
  assert (Ho : 10 < histogram_impl.size (histogram.dims sample_histogram))
    by (vm_compute; reflexivity).
  assert (Hk : Z.of_nat 3 < 2 ^ 53) by (vm_compute; reflexivity).
  split; [repeat (split; [assumption |]); assumption |].
  destruct (unit_fills_are_counted_exactly "hola cabrones"%string
              (histogram.dims sample_histogram) [of_Z 1; of_Z 1] 10 3%nat
              Hl Hn Hi Ho Hk)
    as (_ & _ & Hb & _ & Hcount).
  split; [exact Hb | exact Hcount].
Defined.

(** ** Enumerating a container *)

Lemma range_for_pairs {A : Type} (fuel : nat) (e : storage.enumerate_object.t A) :
  (length (storage.enumerate_object._begin e) <= fuel)%nat ->
  wrap (storage.enumerate_object._size e) = storage.enumerate_object._size e ->
  storage.range_for fuel e
  = Ret (imap (fun i x => (wrap (storage.enumerate_object._size e + Z.of_nat i), x))
           (storage.enumerate_object._begin e)).
Proof.
  revert e. induction fuel as [| fuel IH]; intros [rest size]; cbn
    [storage.enumerate_object._begin storage.enumerate_object._size];
    intros Hfuel Hsize.
  - destruct rest; [reflexivity | cbn in Hfuel; lia].
  - cbn [storage.range_for].
    destruct rest as [| x rest]; [reflexivity |].
    cbn [storage.enumerate_object.not_equal storage.enumerate_object._begin
         storage.enumerate_object.dereference storage.enumerate_object._size
         bind].
    unfold storage.enumerate_object.increment.
    cbn [storage.enumerate_object._begin storage.enumerate_object._size tail].
    rewrite IH; cbn [storage.enumerate_object._begin
                     storage.enumerate_object._size bind].
    + f_equal. cbn [imap]. rewrite Z.add_0_r, Hsize. f_equal.
      apply imap_ext. intros i y _. cbn. f_equal.
      rewrite wrap_add_l. f_equal. lia.
    + cbn [length] in Hfuel. lia.
    + apply wrap_wrap.
Qed.

Lemma enumerate_imap {A : Type} (iter : list A) :
  storage.enumerate iter = Ret (imap (fun i x => (wrap (Z.of_nat i), x)) iter).
Proof.
  unfold storage.enumerate. rewrite range_for_pairs; [| cbn; lia | reflexivity].
  reflexivity.
Qed.

(** X15. The loop over [enumerate(iter)] runs its body once for every
    element, in order, on the pair of the element and its position (the
    counter is a [size_t]); it never reads past the end. *)
Theorem enumerate_pairs_elements_with_positions {A : Type} (iter : list A) :
  storage.enumerate iter = Ret (imap (fun i x => (wrap (Z.of_nat i), x)) iter) /\
  exists pairs,
    storage.enumerate iter = Ret pairs /\
    length pairs = length iter /\
    snd <$> pairs = iter /\
    (forall (i : nat) (p : Z * A),
       pairs !! i = Some p -> Z.of_nat i <= size_max -> fst p = Z.of_nat i).
Proof.
  pose proof (enumerate_imap iter) as H.
  split; [exact H |].
  eexists. split; [exact H |].
  split; [apply length_imap |].
  split.
  - rewrite fmap_imap. cbn. clear H.
    induction iter as [| x l IH]; [reflexivity |].
    cbn [imap]. f_equal. rewrite <- IH at 2. apply imap_ext. reflexivity.
  - intros i p Hp Hi. rewrite list_lookup_imap in Hp.
    destruct (iter !! i) as [x |]; [| discriminate].
    injection Hp as <-. cbn. apply wrap_small. lia.
Qed.

(** ** The shape of a chunk *)

Lemma product_app (l1 l2 : list Z) :
  product (l1 ++ l2) = product l1 * product l2.
Proof.
  induction l1 as [| x l1 IH]; [cbn [app]; unfold product at 2; cbn; lia |].
  cbn [app]. rewrite !product_cons, IH. lia.
Qed.

Lemma product_at_least_one (l : list Z) :
  Forall (fun d => 1 <= d) l -> 1 <= product l.
Proof.
  induction 1 as [| x l Hx _ IH]; [reflexivity |].
  rewrite product_cons. nia.
Qed.

Lemma product_drop_le (l : list Z) (i : nat) :
  Forall (fun d => 1 <= d) l -> 1 <= product (drop i l) <= product l.
Proof.
  intros Hl.
  pose proof (product_at_least_one (take i l) (Forall_take _ i l Hl)) as Ht.
  pose proof (product_at_least_one (drop i l) (Forall_drop _ i l Hl)) as Hd.
  rewrite <- (take_drop i l) at 3. rewrite product_app. nia.
Qed.

(** One step of the loop keeps the chunk within the budget. *)
Lemma clamp_step (C cum d Q : Z) :
  0 <= C -> 1 <= cum -> 1 <= d -> 0 <= Q ->
  Q * Z.max 1 (C / cum) <= Z.max 1 C ->
  1 <= clamp (C / cum) 1 d <= d /\
  clamp (C / cum) 1 d * Q * Z.max 1 (C / (cum * d)) <= Z.max 1 C.
Proof.
  intros HC Hcum Hd HQ Hinv. unfold clamp.
  assert (Ht : 0 <= C / cum) by (apply Z.div_pos; lia).
  rewrite <- Z.div_div by lia.
  set (t := C / cum) in *.
  assert (Htd : 0 <= t / d) by (apply Z.div_pos; lia).
  pose proof (Z.mul_div_le t d ltac:(lia)) as Hmul.
  split; [lia |].
  destruct (Z_lt_le_dec t d) as [Hlt | Hge].
  - rewrite (Z.div_small t d) by lia.
    replace (Z.max 1 0) with 1 by lia.
    replace (Z.max 1 (Z.min t d)) with (Z.max 1 t) by lia. nia.
  - replace (Z.max 1 (Z.min t d)) with d by lia.
    assert (H1 : 1 <= t / d) by (apply Z.div_le_lower_bound; lia).
    replace (Z.max 1 (t / d)) with (t / d) by lia.
    replace (Z.max 1 t) with t in Hinv by lia. nia.
Qed.

Lemma chunk_loop_fits (todo : nat) (C cum : Z) (shape chunk : list Z) :
  (todo <= length shape)%nat -> length chunk = length shape ->
  Forall (fun d => 1 <= d) shape -> product shape <= size_max -> 0 <= C ->
  cum = product (drop todo shape) ->
  Forall2 (fun c d => 1 <= c <= d) (drop todo chunk) (drop todo shape) ->
  product (drop todo chunk) * Z.max 1 (C / cum) <= Z.max 1 C ->
  exists chunk',
    hdf5.chunk_loop todo C cum shape chunk = Ret chunk' /\
    Forall2 (fun c d => 1 <= c <= d) chunk' shape /\
    product chunk' <= Z.max 1 C.
Proof.
  revert cum chunk.
  induction todo as [| i IH]; intros cum chunk Htodo Hlen Hshape Hfit HC Hcum
    Hin Hinv.
  - exists chunk. rewrite !drop_0 in *. split; [reflexivity |].
    split; [exact Hin |].
    assert (1 <= Z.max 1 (C / cum)) by lia.
    assert (1 <= product chunk).
    { apply product_at_least_one.
      apply Forall2_Forall_l with (Q := fun c => 1 <= c) in Hin; [exact Hin |].
      apply Forall_forall. intros; lia. }
    nia.
  - cbn [hdf5.chunk_loop].
    destruct (lookup_lt_is_Some_2 shape i ltac:(lia)) as [d Hd].
    destruct (lookup_lt_is_Some_2 chunk i ltac:(lia)) as [c0 Hc0].
    rewrite Hd.
    pose proof (product_drop_le shape (S i) Hshape) as Hcum1.
    pose proof (product_drop_le shape i Hshape) as Hcum2.
    rewrite (drop_S shape d i Hd), product_cons in Hcum2.
    rewrite <- Hcum in Hcum1, Hcum2.
    assert (Hd1 : 1 <= d).
    { rewrite Forall_forall in Hshape. apply Hshape.
      eapply list_elem_of_lookup_2, Hd. }
    destruct (Z.eqb_spec cum 0) as [H0 | _]; [lia |].
    assert (HQ : 1 <= product (drop (S i) chunk)).
    { apply product_at_least_one.
      apply Forall2_Forall_l with (Q := fun c => 1 <= c) in Hin; [exact Hin |].
      apply Forall_forall. intros; lia. }
    destruct (clamp_step C cum d (product (drop (S i) chunk))
                HC ltac:(lia) Hd1 ltac:(lia) Hinv) as [Hc Hstep].
    rewrite (wrap_small (cum * d)) by lia.
    apply IH.
    + lia.
    + rewrite length_insert. exact Hlen.
    + exact Hshape.
    + exact Hfit.
    + exact HC.
    + rewrite (drop_S shape d i Hd), product_cons, Hcum. lia.
    + rewrite (drop_S shape d i Hd).
      rewrite (drop_S (<[i:=clamp (C / cum) 1 d]> chunk) (clamp (C / cum) 1 d) i)
        by (apply list_lookup_insert_eq; apply lookup_lt_Some in Hc0; exact Hc0).
      rewrite drop_insert_lt by lia.
      constructor; [exact Hc | exact Hin].
    + rewrite (drop_S (<[i:=clamp (C / cum) 1 d]> chunk) (clamp (C / cum) 1 d) i)
        by (apply list_lookup_insert_eq; apply lookup_lt_Some in Hc0; exact Hc0).
      rewrite drop_insert_lt by lia.
      rewrite product_cons, (Z.mul_comm cum d).
      rewrite (Z.mul_comm d cum). exact Hstep.
Qed.

Lemma total_size_nonneg (size : Z) (shape : list Z) :
  0 <= size -> 0 <= hdf5.total_size size shape.
Proof.
  revert size. induction shape as [| d rest IH]; intros size H; [exact H |].
  cbn [hdf5.total_size]. apply IH, wrap_range.
Qed.

(** X16. For extents of at least 1 whose product fits in [hsize_t],
    [get_chunk_shape] returns one chunk extent per dimension, each at least
    1 and at most the extent of the data, and the chunk holds at most
    [max_chunk_size] elements (one element when that is 0). *)
Theorem get_chunk_shape_fits (element_size max_chunk_size : Z)
    (shape : list Z) :
  Forall (fun d => 1 <= d) shape ->
  product shape <= size_max ->
  vsize shape <= 2 ^ 31 ->
  0 <= element_size -> 0 <= max_chunk_size ->
  exists chunk,
    hdf5.get_chunk_shape element_size shape max_chunk_size = Ret chunk /\
    Forall2 (fun c d => 1 <= c <= d) chunk shape /\
    product chunk
      <= Z.max 1 (Z.min max_chunk_size (hdf5.total_size element_size shape)) /\
    product chunk <= Z.max 1 max_chunk_size.
Proof.
  intros Hshape Hfit Hrank He Hmax.
  unfold hdf5.get_chunk_shape.
  destruct (Z.ltb_spec (2 ^ 31) (vsize shape)) as [H | _]; [lia |].
  pose proof (total_size_nonneg element_size shape He) as Hsize.
  set (C := Z.min max_chunk_size (hdf5.total_size element_size shape)).
  destruct (chunk_loop_fits (length shape) C 1 shape
              (replicate (length shape) 0)) as (chunk & Hrun & Hin & Hprod).
  - lia.
  - apply length_replicate.
  - exact Hshape.
  - exact Hfit.
  - unfold C. lia.
  - rewrite drop_all. reflexivity.
  - rewrite !drop_all, drop_ge by (rewrite length_replicate; lia). constructor.
  - rewrite drop_ge by (rewrite length_replicate; lia).
    rewrite Z.div_1_r. unfold product at 1. cbn [foldr]. lia.
  - exists chunk. repeat split; [exact Hrun | exact Hin | exact Hprod |].
    unfold C in Hprod. lia.
Qed.

Lemma get_chunk_shape_fits_witness :
  (Forall (fun d => 1 <= d) [13; 4] /\ product [13; 4] <= size_max /\
   vsize [13; 4] <= 2 ^ 31 /\ 0 <= 8 /\ 0 <= 10) /\
  hdf5.get_chunk_shape 8 [13; 4] 10 = Ret [2; 4] /\
  hdf5.get_chunk_shape 8 [13; 4] hdf5.default_max_chunk_size = Ret [13; 4] /\
  hdf5.get_chunk_shape 8 (hdf5.get_shape (uniform.edges sample_linear)) 10
    = Ret [10] /\
  exists chunk,
    hdf5.get_chunk_shape 8 [13; 4] 10 = Ret chunk /\
    Forall2 (fun c d => 1 <= c <= d) chunk [13; 4] /\
    product chunk <= Z.max 1 (Z.min 10 (hdf5.total_size 8 [13; 4])) /\
    product chunk <= Z.max 1 10.
Proof.
  assert (H1 : Forall (fun d => 1 <= d) [13; 4]) by (repeat constructor; lia).
  assert (H2 : product [13; 4] <= size_max) by (vm_compute; discriminate).
  assert (H3 : vsize [13; 4] <= 2 ^ 31) by (vm_compute; discriminate).
  assert (H4 : 0 <= 8) by lia.
  assert (H5 : 0 <= 10) by lia.
  split; [repeat (split; [assumption |]); assumption |].
  split; [vm_compute; reflexivity |].
  split; [vm_compute; reflexivity |].
  split; [vm_compute; reflexivity |].
  exact (get_chunk_shape_fits 8 10 [13; 4] H1 H2 H3 H4 H5).
Defined.

(** ** The views handed to the storage layer *)

Lemma fill_shape_nbins (dims : list dimension) :
  histogram_impl.fill_shape dims = dim_nbins <$> dims.
Proof.
  induction dims as [| d ts IH]; [reflexivity |].
  cbn [histogram_impl.fill_shape]. rewrite IH. reflexivity.
Qed.

(** X17. After [create] and any run of calls, what [bincontent()] and
    [squaredweights()] hand out is consistent whenever the product of
    the bin counts fits in [size_t]: the shape of the view is [shape()],
    and it describes exactly as many elements as the array holds. *)
Theorem views_describe_the_arrays (title : string) (dims : list dimension)
    (calls : list (double * list double)) :
  product (dim_nbins <$> dims) <= size_max ->
  let h := fst (fill_sequence (histogram.create title dims) calls) in
  storage.get_shape (histogram.bincontent h) = histogram.shape h /\
  storage.get_shape (histogram.squaredweights h) = histogram.shape h /\
  histogram.shape h = dim_nbins <$> dims /\
  product (storage.get_shape (histogram.bincontent h))
    = vsize (storage.get_data (histogram.bincontent h)) /\
  product (storage.get_shape (histogram.squaredweights h))
    = vsize (storage.get_data (histogram.squaredweights h)).
Proof.
  intros Hfit h.
  destruct (fill_sequence_invariants calls (histogram.create title dims))
    as (_ & Hd & _ & Hb & Hs & _).
  fold h in Hd, Hb, Hs.
  destruct (create_allocated title dims) as [Hb0 Hs0].
  unfold storage.get_shape, storage.get_data, histogram.bincontent,
    histogram.squaredweights, histogram.shape, vsize in *.
  cbn [fst snd].
  rewrite Hd, Hb, Hs, Hb0, Hs0.
  cbn [histogram.create histogram.make histogram.dims].
  rewrite fill_shape_nbins, (size_is_product dims Hfit).
  repeat split; reflexivity.
Qed.

Lemma views_describe_the_arrays_witness :
  product (dim_nbins <$> histogram.dims sample_histogram) <= size_max /\
  product (storage.get_shape
             (histogram.bincontent
                (fst (fill_sequence sample_histogram
                        [(one, [of_Z 1; of_Z 1])]))))
  = vsize (storage.get_data
             (histogram.bincontent
                (fst (fill_sequence sample_histogram
                        [(one, [of_Z 1; of_Z 1])])))).
Proof.
  assert (Hfit : product (dim_nbins <$> histogram.dims sample_histogram)
                 <= size_max) by (vm_compute; discriminate).
  split; [exact Hfit |].
  exact (proj1 (proj2 (proj2 (proj2
    (views_describe_the_arrays "hola cabrones"%string
       (histogram.dims sample_histogram) [(one, [of_Z 1; of_Z 1])] Hfit))))).
Defined.

(** ** What [save] writes *)

Lemma print_size_t_inj (a b : Z) :
  0 <= a -> 0 <= b -> storage.print_size_t a = storage.print_size_t b -> a = b.
Proof.
  intros Ha Hb H. unfold storage.print_size_t in H.
  assert (Hnil : forall n, N.to_uint n <> Decimal.Nil).
  { intros [| p]; [discriminate | apply DecimalPos.Unsigned.to_uint_nonnil]. }
  apply (f_equal NilZero.uint_of_string) in H.
  rewrite !NilZero.usu in H by apply Hnil.
  injection H as H. apply DecimalN.Unsigned.to_uint_inj in H. lia.
Qed.

Lemma array_names_of_vectors {A : Type} (f : Z * A -> string)
    (g : Z * A -> list double) (l : list (Z * A)) :
  omap storage.array_name
    (List.map (fun pair => storage.create_carray_vector (f pair) (g pair)) l)
  = f <$> l.
Proof. induction l as [| p l IH]; [reflexivity |]. cbn. f_equal. exact IH. Qed.

Lemma array_names_of_attributes {A : Type} (f : Z * A -> string)
    (g : Z * A -> string) (l : list (Z * A)) :
  omap storage.array_name
    (List.map (fun pair => storage.set_attribute_string (f pair) (g pair)) l)
  = [].
Proof. induction l as [| p l IH]; [reflexivity |]. cbn. exact IH. Qed.

Lemma attribute_names_of_vectors {A : Type} (f : Z * A -> string)
    (g : Z * A -> list double) (l : list (Z * A)) :
  omap storage.attribute_name
    (List.map (fun pair => storage.create_carray_vector (f pair) (g pair)) l)
  = [].
Proof. induction l as [| p l IH]; [reflexivity |]. cbn. exact IH. Qed.

Lemma attribute_names_of_attributes {A : Type} (f : Z * A -> string)
    (g : Z * A -> string) (l : list (Z * A)) :
  omap storage.attribute_name
    (List.map (fun pair => storage.set_attribute_string (f pair) (g pair)) l)
  = f <$> l.
Proof. induction l as [| p l IH]; [reflexivity |]. cbn. f_equal. exact IH. Qed.

(** Names made of one prefix and the positions of a container differ. *)
Lemma numbered_names_differ {A : Type} (prefix : string) (l : list A) :
  vsize l <= size_max + 1 ->
  NoDup ((fun pair : Z * A => (prefix ++ storage.print_size_t (fst pair))%string)
           <$> imap (fun i x => (wrap (Z.of_nat i), x)) l).
Proof.
  intros Hsize. unfold vsize in Hsize.
  apply NoDup_alt. intros i j name Hi Hj.
  rewrite list_lookup_fmap, list_lookup_imap in Hi, Hj.
  destruct (l !! i) as [x |] eqn:Hx; [| discriminate].
  destruct (l !! j) as [y |] eqn:Hy; [| discriminate].
  apply lookup_lt_Some in Hx, Hy.
  cbn in Hi, Hj. injection Hi as Hi. injection Hj as Hj.
  rewrite <- Hj in Hi. clear Hj.
  assert (Hinj : forall s a b : string, (s ++ a = s ++ b)%string -> a = b).
  { induction s as [| c s IH]; intros a b H; [exact H |].
    cbn in H. injection H as H. apply IH, H. }
  apply Hinj, print_size_t_inj in Hi; try apply wrap_range.
  rewrite !wrap_small in Hi by lia. lia.
Qed.

Lemma numbered_name_has_prefix {A : Type} (prefix name : string) (l : list (Z * A)) :
  name ∈ (fun pair : Z * A => (prefix ++ storage.print_size_t (fst pair))%string)
           <$> l ->
  exists s, name = (prefix ++ s)%string.
Proof.
  intros H. apply list_elem_of_fmap in H as (pair & -> & _). eexists. reflexivity.
Qed.

Lemma fill_edges_length (dims : list dimension) :
  length (histogram_impl.fill_edges dims) = length dims.
Proof. induction dims as [| d ts IH]; [reflexivity | cbn; f_equal; exact IH]. Qed.

Lemma fill_label_length (dims : list dimension) :
  length (histogram_impl.fill_label dims) = length dims.
Proof. induction dims as [| d ts IH]; [reflexivity | cbn; f_equal; exact IH]. Qed.

(** X18. [save] asks for the group first, always replacing an existing
    one whatever [overwrite] says, then for three attributes and the two
    bin arrays, then for one edge array and one label attribute per
    dimension, numbered by position: [6 + 2 * ndim()] requests, no two
    arrays and no two attributes under the same name. *)
Theorem save_writes_each_dimension_under_its_own_name (hist : histogram.t)
    (where_ name : string) (overwrite : bool) :
  histogram.ndim hist <= size_max + 1 ->
  exists reqs,
    storage.save hist where_ name overwrite = Ret reqs /\
    storage.save hist where_ name (negb overwrite) = Ret reqs /\
    vsize reqs = 6 + 2 * histogram.ndim hist /\
    reqs !! 0%nat = Some (storage.create_group where_ name true) /\
    NoDup (omap storage.array_name reqs) /\
    NoDup (omap storage.attribute_name reqs) /\
    (forall (i : nat) (es : list double),
       histogram.binedges hist !! i = Some es ->
       storage.create_carray_vector
         ("_h_binedges_" ++ storage.print_size_t (Z.of_nat i)) es ∈ reqs) /\
    (forall (i : nat) (l : string),
       histogram.labels hist !! i = Some l ->
       storage.set_attribute_string
         ("label_" ++ storage.print_size_t (Z.of_nat i)) l ∈ reqs).
Proof.
  unfold histogram.ndim. intros Hrank.
  assert (Hedges : vsize (histogram.binedges hist) <= size_max + 1).
  { unfold vsize, histogram.binedges. rewrite fill_edges_length. exact Hrank. }
  assert (Hlabels : vsize (histogram.labels hist) <= size_max + 1).
  { unfold vsize, histogram.labels. rewrite fill_label_length. exact Hrank. }
  unfold storage.save. rewrite !enumerate_imap. cbn [bind].
  eexists. split; [reflexivity |]. split; [reflexivity |].
  split; [| split; [reflexivity |]; split; [| split; [| split]]].
  - unfold vsize in *. rewrite !length_app, !length_map, !length_imap.
    unfold histogram.binedges, histogram.labels.
    rewrite fill_edges_length, fill_label_length. cbn [length]. lia.
  - rewrite !omap_app, array_names_of_vectors, array_names_of_attributes,
      app_nil_r.
    cbn [omap list_omap storage.array_name app].
    pose proof (numbered_names_differ "_h_binedges_" _ Hedges) as Hnames.
    apply NoDup_cons. split.
    { intros Hin. apply elem_of_cons in Hin as [Hin | Hin]; [discriminate |].
      apply numbered_name_has_prefix in Hin as [s Hs]. cbn in Hs. congruence. }
    apply NoDup_cons. split; [| exact Hnames].
    intros Hin. apply numbered_name_has_prefix in Hin as [s Hs].
    cbn in Hs. congruence.
  - rewrite !omap_app, attribute_names_of_vectors,
      attribute_names_of_attributes.
    cbn [omap list_omap storage.attribute_name app].
    pose proof (numbered_names_differ "label_" _ Hlabels) as Hnames.
    apply NoDup_cons. split.
    { intros Hin. apply elem_of_cons in Hin as [Hin | Hin]; [discriminate |].
      apply elem_of_cons in Hin as [Hin | Hin]; [discriminate |].
      apply numbered_name_has_prefix in Hin as [s Hs]. cbn in Hs. congruence. }
    apply NoDup_cons. split.
    { intros Hin. apply elem_of_cons in Hin as [Hin | Hin]; [discriminate |].
      apply numbered_name_has_prefix in Hin as [s Hs]. cbn in Hs. congruence. }
    apply NoDup_cons. split; [| exact Hnames].
    intros Hin. apply numbered_name_has_prefix in Hin as [s Hs].
    cbn in Hs. congruence.
  - intros i es Hes.
    apply elem_of_app. right. apply elem_of_app. left.
    apply list_elem_of_In, in_map_iff. exists (wrap (Z.of_nat i), es).
    pose proof (lookup_lt_Some _ _ _ Hes) as Hi. unfold vsize in Hedges.
    split; [cbn [fst snd]; rewrite wrap_small by lia; reflexivity |].
    apply list_elem_of_In.
    exact (elem_of_lookup_imap_2 (fun i x => (wrap (Z.of_nat i), x)) _ es i Hes).
  - intros i l Hl.
    apply elem_of_app. right. apply elem_of_app. right.
    apply list_elem_of_In, in_map_iff. exists (wrap (Z.of_nat i), l).
    pose proof (lookup_lt_Some _ _ _ Hl) as Hi. unfold vsize in Hlabels.
    split; [cbn [fst snd]; rewrite wrap_small by lia; reflexivity |].
    apply list_elem_of_In.
    exact (elem_of_lookup_imap_2 (fun i x => (wrap (Z.of_nat i), x)) _ l i Hl).
Qed.

Lemma save_writes_each_dimension_under_its_own_name_witness :
  histogram.ndim sample_histogram <= size_max + 1 /\
  storage.save sample_histogram "/" "foo" true
  = Ret [storage.create_group "/" "foo" true;
         storage.set_attribute_number "ndim" 2;
         storage.set_attribute_number "nentries" 0;
         storage.set_attribute_string "title" "hola cabrones";
         storage.create_carray_view "_h_bincontent"
           (replicate 52 zero) [13; 4];
         storage.create_carray_view "_h_squaredweights"
           (replicate 52 zero) [13; 4];
         storage.create_carray_vector "_h_binedges_0"
           (uniform.edges sample_linear);
         storage.create_carray_vector "_h_binedges_1"
           (general.edges sample_general);
         storage.set_attribute_string "label_0" "dimension";
         storage.set_attribute_string "label_1" "general"] /\
  exists reqs,
    storage.save sample_histogram "/" "foo" true = Ret reqs /\
    vsize reqs = 6 + 2 * histogram.ndim sample_histogram /\
    NoDup (omap storage.array_name reqs) /\
    NoDup (omap storage.attribute_name reqs).
Proof.
  assert (Hrank : histogram.ndim sample_histogram <= size_max + 1)
    by (vm_compute; discriminate).
  split; [exact Hrank |].
  split; [vm_compute; reflexivity |].
  destruct (save_writes_each_dimension_under_its_own_name sample_histogram
              "/"%string "foo"%string true Hrank)
    as (reqs & Hsave & _ & Hlen & _ & Harrays & Hattrs & _).
  exists reqs. repeat split; assumption.
Defined.

(** ** The order of the bins *)

Lemma fle_trans (a b c : double) :
  fle a b = true -> fle b c = true -> fle a c = true.
Proof.
  intros Hab Hbc.
  destruct (fle_not_nan a b Hab) as [Ha Hb].
  destruct (fle_not_nan b c Hbc) as [_ Hc].
  apply (fle_by_key a b Ha Hb) in Hab.
  apply (fle_by_key b c Hb Hc) in Hbc.
  apply (fle_by_key a c Ha Hc).
  destruct Hab as [Hab | Hab].
  - left. exact (key_lt_le_trans _ _ _ Hab Hbc).
  - rewrite Hab. exact Hbc.
Qed.

(** The bin of a value on a scheme built from ascending edges. *)
Lemma general_index_in_range (edges : list double) (name : string)
    (g : general.t) (v : double) :
  general.make edges name = Ret g ->
  ascending edges ->
  vsize (general.edges g) <= size_max ->
  isnan v = false ->
  flt v infinity = true ->
  exists (i : nat) (a b : double),
    general.index g v = Ret (Z.of_nat i) /\
    0 <= Z.of_nat i < general.nbins g /\
    general.edges g !! i = Some a /\
    general.edges g !! S i = Some b /\
    fle a v = true /\ flt v b = true.
Proof.
  intros H Hedges Hsize Hv Hinf.
  destruct (general_make_ascending _ _ _ H Hedges) as (Hasc & Hfirst & Hlast).
  destruct (general_index_bracket g v Hasc Hfirst Hlast Hsize Hv Hinf)
    as (i & a & b & Hidx & _ & Ha & Hb & Hle & Hlt).
  exists i, a, b. repeat split; try assumption; [lia |].
  apply lookup_lt_Some in Hb.
  unfold general.nbins, general.edges, vsize in *.
  rewrite wrap_small by lia. lia.
Qed.

(** X19. On a scheme built from ascending edges the bin index follows the
    order of the values: of two values that are neither NaN nor plus
    infinity, the larger is not in a lower bin. *)
Theorem general_index_is_monotone (edges : list double) (name : string)
    (g : general.t) (v v' : double) :
  general.make edges name = Ret g ->
  ascending edges ->
  vsize (general.edges g) <= size_max ->
  fle v v' = true ->
  flt v' infinity = true ->
  exists i i' : Z,
    general.index g v = Ret i /\ general.index g v' = Ret i' /\
    0 <= i <= i' /\ i' < general.nbins g.
Proof.
  intros H Hedges Hsize Hvv Hinf.
  destruct (fle_not_nan v v' Hvv) as [Hv Hv'].
  assert (Hinf0 : flt v infinity = true).
  { destruct v as [s | [|] | | [|] m e]; try reflexivity; try discriminate.
    destruct v' as [s | [|] | | [|] m e]; discriminate. }
  destruct (general_make_ascending _ _ _ H Hedges) as (Hasc & _ & _).
  destruct (general_index_in_range _ _ _ v H Hedges Hsize Hv Hinf0)
    as (i & a & b & Hidx & Hi & Ha & Hb & Hle & Hlt).
  destruct (general_index_in_range _ _ _ v' H Hedges Hsize Hv' Hinf)
    as (i' & a' & b' & Hidx' & Hi' & Ha' & Hb' & Hle' & Hlt').
  exists (Z.of_nat i), (Z.of_nat i').
  repeat split; try assumption; try lia.
  destruct (le_lt_dec i i') as [Hii | Hii]; [lia | exfalso].
  assert (Hba : fle b' a = true) by (apply (Hasc (S i') i); [assumption .. | lia]).
  pose proof (flt_fle_trans v' b' a Hlt' Hba) as Hc.
  rewrite (fle_not_flt v' a (fle_trans a v v' Hle Hvv)) in Hc. discriminate.
Qed.

Lemma general_index_is_monotone_witness :
  (general.make [of_Z 0; of_Z 1; of_Z 2] "general" = Ret sample_general /\
   ascending [of_Z 0; of_Z 1; of_Z 2] /\
   vsize (general.edges sample_general) <= size_max /\
   fle (of_Z 1) (of_Z 3) = true /\ flt (of_Z 3) infinity = true) /\
  exists i i' : Z,
    general.index sample_general (of_Z 1) = Ret i /\
    general.index sample_general (of_Z 3) = Ret i' /\
    0 <= i <= i' /\ i' < general.nbins sample_general.
Proof.
  assert (Hmade : general.make [of_Z 0; of_Z 1; of_Z 2] "general"
                  = Ret sample_general) by reflexivity.
  assert (Hasc : ascending [of_Z 0; of_Z 1; of_Z 2])
    by (apply ascendingb_sound; vm_compute; reflexivity).
  assert (Hsize : vsize (general.edges sample_general) <= size_max)
    by (vm_compute; discriminate).
  assert (Hvv : fle (of_Z 1) (of_Z 3) = true) by reflexivity.
  assert (Hinf : flt (of_Z 3) infinity = true) by reflexivity.
  split; [repeat split; assumption |].
  exact (general_index_is_monotone _ _ _ _ _ Hmade Hasc Hsize Hvv Hinf).
Defined.

(** ** From the constructors to an accepted call *)

Lemma general_dimensions_indexed (dims : list dimension) (args : list double) :
  Forall general_dimension dims ->
  length args = length dims ->
  Forall (fun v => flt v infinity = true) args ->
  exists idxs, indexed_in_range dims args idxs.
Proof.
  intros Hdims. revert args.
  induction Hdims as [| d ts Hd _ IH]; intros [| v tail] Hlen Hargs;
    try discriminate.
  - exists []. constructor.
  - apply Forall_cons in Hargs as [Hv Htail].
    destruct (IH tail ltac:(cbn in Hlen; lia) Htail) as [idxs Hidxs].
    destruct Hd as (edges & name & g & -> & Hmade & Hasc & Hsize).
    destruct (flt_not_nan v infinity Hv) as [Hnan _].
    destruct (general_index_in_range _ _ _ v Hmade Hasc Hsize Hnan Hv)
      as (i & a & b & Hidx & Hi & _).
    exists (Z.of_nat i :: idxs). constructor; [| exact Hidxs].
    split; [exact Hidx | exact Hi].
Qed.

(** X20. End to end: on a histogram created over dimensions that
    [general] built from ascending edges, with a product of bin counts
    that fits in [size_t], every call whose coordinates are all below plus
    infinity (so none is NaN) is accepted, whatever the weight, at an
    offset inside the arrays. *)
Theorem fill_below_infinity_is_accepted (title : string)
    (dims : list dimension) (w : double) (args : list double) :
  Forall general_dimension dims ->
  product (dim_nbins <$> dims) <= size_max ->
  length args = length dims ->
  Forall (fun v => flt v infinity = true) args ->
  exists (h' : histogram.t) (offset : Z),
    histogram.fill_with_weight (histogram.create title dims) w args
      = (h', Ret true) /\
    histogram_impl.index dims args = Ret offset /\
    0 <= offset < histogram_impl.size dims /\
    histogram.n_entries h' = 1.
Proof.
  intros Hdims Hfit Hlen Hargs.
  destruct (general_dimensions_indexed dims args Hdims Hlen Hargs)
    as [idxs Hidxs].
  assert (Hno : no_nan args).
  { unfold no_nan. eapply Forall_impl; [exact Hargs |].
    intros v Hv. exact (proj1 (flt_not_nan v infinity Hv)). }
  destruct (fill_within_bins_returns (histogram.create title dims) w args idxs
              (create_allocated title dims) Hfit Hno Hidxs)
    as (h' & Hidx & Hoff & Hfill).
  exists h', (offset_sum idxs dims).
  cbn [histogram.create histogram.make histogram.dims] in Hidx, Hoff.
  split; [exact Hfill |]. split; [exact Hidx |]. split; [exact Hoff |].
  pose proof (fill_with_weight_step (histogram.create title dims) w args)
    as Hstep.
  rewrite Hfill in Hstep. cbn [fst snd] in Hstep.
  destruct Hstep as (_ & _ & _ & _ & Hn & Hrange).
  cbn [histogram.create histogram.make histogram.n_entries_ accepted]
    in Hn, Hrange.
  unfold histogram.n_entries.
  rewrite wrap_small in Hn by (apply Hrange; unfold size_max, size_bits; lia).
  rewrite Hn. reflexivity.
Qed.

Lemma fill_below_infinity_is_accepted_witness :
  (Forall general_dimension [dim_general sample_general; dim_general sample_general] /\
   product (dim_nbins <$> [dim_general sample_general; dim_general sample_general])
     <= size_max /\
   length [of_Z 1; of_Z (-7)]
     = length [dim_general sample_general; dim_general sample_general] /\
   Forall (fun v => flt v infinity = true) [of_Z 1; of_Z (-7)]) /\
  exists (h' : histogram.t) (offset : Z),
    histogram.fill_with_weight
      (histogram.create "" [dim_general sample_general; dim_general sample_general])
      NaN [of_Z 1; of_Z (-7)] = (h', Ret true) /\
    histogram_impl.index [dim_general sample_general; dim_general sample_general]
      [of_Z 1; of_Z (-7)] = Ret offset /\
    0 <= offset
      < histogram_impl.size [dim_general sample_general; dim_general sample_general] /\
    histogram.n_entries h' = 1.
Proof.
  assert (Hg : general_dimension (dim_general sample_general)).
  { exists [of_Z 0; of_Z 1; of_Z 2], "general"%string, sample_general.
    split; [reflexivity |]. split; [reflexivity |].
    split; [apply ascendingb_sound; vm_compute; reflexivity |].
    vm_compute. discriminate. }
  assert (Hdims : Forall general_dimension
                    [dim_general sample_general; dim_general sample_general])
    by (repeat constructor; exact Hg).
  assert (Hfit : product (dim_nbins <$> [dim_general sample_general;
                                        dim_general sample_general]) <= size_max)
    by (vm_compute; discriminate).
  assert (Hlen : length [of_Z 1; of_Z (-7)]
                 = length [dim_general sample_general; dim_general sample_general])
    by reflexivity.
  assert (Hargs : Forall (fun v => flt v infinity = true) [of_Z 1; of_Z (-7)])
    by (repeat constructor).
  split; [repeat (split; [assumption |]); assumption |].
  exact (fill_below_infinity_is_accepted ""%string _ NaN _ Hdims Hfit Hlen Hargs).
Defined.

(** ** The lower threshold of the linear scheme *)

Lemma flt_zero_sign (v : double) (s s' : bool) :
  flt v (S754_zero s) = flt v (S754_zero s').
Proof. destruct v as [sv | [|] | | [|] m e]; reflexivity. Qed.

(** X21. For the linear scheme with a finite [low] and a finite
    [high - low], the cached lower threshold is [low] itself (up to the sign
    of a zero), so a value goes to the underflow bin 0 as soon as it is
    below [low]. *)
Theorem linear_underflow_threshold_is_low (low high : double)
    (requested : Z) (name : string) :
  let u := uniform.make (T := detail.identity) low high requested name in
  is_finite low = true ->
  is_finite (fsub high low) = true ->
  ((forall s, low <> S754_zero s) -> uniform.min_ u = low) /\
  (forall v, flt v (uniform.min_ u) = flt v low) /\
  (forall v, flt v low = true ->
     uniform.index (T := detail.identity) u v = Ret 0).
Proof.
  intros u Hlow Hrange.
  assert (Hmin : uniform.min_ u = fadd (fmul (fsub high low) zero) low)
    by reflexivity.
  assert (Hprod : exists s, fmul (fsub high low) zero = S754_zero s).
  { destruct (fsub high low) as [s | s | | s m e]; try discriminate;
      eexists; reflexivity. }
  destruct Hprod as [s0 Hprod]. rewrite Hprod in Hmin.
  assert (Hlt : forall v, flt v (uniform.min_ u) = flt v low).
  { intros v. rewrite Hmin.
    destruct low as [s | s | | s m e]; try discriminate.
    - destruct s0, s; cbn; apply flt_zero_sign.
    - reflexivity. }
  split; [| split; [exact Hlt |]].
  - intros Hne. rewrite Hmin.
    destruct low as [s' | s' | | s' m e]; try discriminate; [| reflexivity].
    destruct (Hne s'). reflexivity.
  - intros v Hv. unfold uniform.index. rewrite Hlt, Hv. reflexivity.
Qed.

Lemma linear_underflow_threshold_is_low_witness :
  (is_finite (of_Z 0) = true /\ is_finite (fsub (of_Z 10) (of_Z 0)) = true /\
   flt (of_Z (-1)) (of_Z 0) = true) /\
  uniform.index (T := detail.identity) sample_linear (of_Z (-1)) = Ret 0.
Proof.
  assert (Hlow : is_finite (of_Z 0) = true) by reflexivity.
  assert (Hrange : is_finite (fsub (of_Z 10) (of_Z 0)) = true) by reflexivity.
  assert (Hv : flt (of_Z (-1)) (of_Z 0) = true) by reflexivity.
  split; [repeat split; assumption |].
  exact (proj2 (proj2 (linear_underflow_threshold_is_low (of_Z 0) (of_Z 10) 11
                         "dimension"%string Hlow Hrange)) (of_Z (-1)) Hv).
Defined.

(** ** The title *)

(** X22. [set_title] replaces the title and nothing else, and it commutes
    with [fill_with_weight]: neither the bin that is chosen, nor what is
    added, nor the answer of a call depends on the title. *)
Theorem set_title_commutes_with_fill (h : histogram.t) (t : string)
    (w : double) (args : list double) :
  histogram.title (histogram.set_title h t) = t /\
  histogram.shape (histogram.set_title h t) = histogram.shape h /\
  histogram.bincontent (histogram.set_title h t) = histogram.bincontent h /\
  histogram.squaredweights (histogram.set_title h t)
    = histogram.squaredweights h /\
  histogram.n_entries (histogram.set_title h t) = histogram.n_entries h /\
  histogram.fill_with_weight (histogram.set_title h t) w args
    = (histogram.set_title (fst (histogram.fill_with_weight h w args)) t,
       snd (histogram.fill_with_weight h w args)).
Proof.
  repeat (split; [reflexivity |]).
  unfold histogram.fill_with_weight, histogram.set_title,
    histogram.set_bincontent, histogram.set_squaredweights,
    histogram.set_n_entries.
  cbn [histogram.dims histogram.title_ histogram.n_entries_
       histogram.bincontent_ histogram.squaredweights_].
  destruct (negb (length args =? length (histogram.dims h))%nat);
    [reflexivity |].
  destruct (histogram_impl.valid (histogram.dims h) args); [| reflexivity].
  destruct (histogram_impl.index (histogram.dims h) args) as [offset | | | |];
    cbn [histogram.on_return fst snd]; try reflexivity.
  destruct (at_ (histogram.bincontent_ h) offset) as [b | | | |];
    cbn [histogram.on_return fst snd histogram.dims histogram.title_
         histogram.n_entries_ histogram.bincontent_ histogram.squaredweights_];
    try reflexivity.
  destruct (at_ (histogram.squaredweights_ h) offset) as [s | | | |];
    reflexivity.
Qed.

(** ** Plus infinity on the equispaced scheme *)

Lemma fge_infinity (x : double) : isnan x = false -> fge infinity x = true.
Proof. destruct x as [s | [|] | | [|] m e]; try discriminate; reflexivity. Qed.

(** X23. Unlike the non-equispaced scheme, the equispaced one sends plus
    infinity to its last bin, [nbins() - 1], whenever the cached upper
    threshold is not NaN. *)
Theorem uniform_index_of_infinity_is_the_last_bin (T : detail.Transformation)
    (low high : double) (requested : Z) (name : string) :
  let u := uniform.make (T := T) low high requested name in
  isnan (uniform.max_ u) = false ->
  0 <= requested -> requested + 2 <= size_max ->
  uniform.index u infinity = Ret (uniform.nbins u - 1) /\
  uniform.nbins u - 1 = requested + 1 /\
  0 <= uniform.nbins u - 1 < uniform.nbins u.
Proof.
  intros u Hmax H0 Hfit.
  destruct (uniform_last_bin T low high requested name) as [_ Hlast].
  fold u in Hlast.
  assert (Hn : uniform.nbins u = requested + 2).
  { unfold uniform.nbins, u. rewrite uniform_nsteps.
    rewrite (wrap_small (requested + 1)) by lia.
    rewrite wrap_small by lia. lia. }
  unfold uniform.index.
  rewrite flt_infinity_false, (fge_infinity _ Hmax), Hlast, Hn.
  rewrite wrap_small by lia.
  repeat split; try lia. f_equal. lia.
Qed.

Lemma uniform_index_of_infinity_is_the_last_bin_witness :
  (isnan (uniform.max_ sample_linear) = false /\
   0 <= 11 /\ 11 + 2 <= size_max) /\
  uniform.index (T := detail.identity) sample_linear infinity
    = Ret (uniform.nbins sample_linear - 1) /\
  uniform.nbins sample_linear - 1 = 11 + 1 /\
  0 <= uniform.nbins sample_linear - 1 < uniform.nbins sample_linear.
Proof.
  assert (Hmax : isnan (uniform.max_ sample_linear) = false) by reflexivity.
  assert (H0 : 0 <= 11) by lia.
  assert (Hfit : 11 + 2 <= size_max) by (vm_compute; discriminate).
  split; [repeat split; assumption |].
  exact (uniform_index_of_infinity_is_the_last_bin detail.identity
           (of_Z 0) (of_Z 10) 11 "dimension"%string Hmax H0 Hfit).
Defined.

(** ** Limits the constructor does not reject *)

Lemma fge_of_nan (x : double) : fge x NaN = false.
Proof. reflexivity. Qed.

Lemma fmul_nan_r (x : double) : fmul x NaN = NaN.
Proof. destruct x as [s | [|] | | [|] m e]; reflexivity. Qed.

Lemma fsub_nan_r (x : double) : fsub x NaN = NaN.
Proof. destruct x as [s | [|] | | [|] m e]; reflexivity. Qed.

Lemma flt_of_nan (x : double) : flt x NaN = false.
Proof. destruct x as [s | [|] | | [|] m e]; reflexivity. Qed.

(** X24. A lower limit outside the domain of the transformation (its
    [imap] is NaN, as the square root of a negative number is) is not
    rejected by the constructor: when [map] keeps NaN, both cached
    thresholds are NaN and [index] has no defined result for any value. *)
Theorem uniform_with_a_limit_outside_the_domain (T : detail.Transformation)
    (low high : double) (requested : Z) (name : string) (v : double) :
  let u := uniform.make (T := T) low high requested name in
  detail.imap low = NaN ->
  detail.map NaN = NaN ->
  uniform.min_ u = NaN /\ uniform.max_ u = NaN /\
  uniform.index u v = Undefined.
Proof.
  intros u Hlow Hmap.
  assert (Hoffset : uniform.offset_ u = NaN) by exact Hlow.
  assert (Hrange : uniform.range_ u = NaN).
  { unfold u, uniform.make. cbn [uniform.range_]. rewrite Hlow.
    apply fsub_nan_r. }
  assert (Hmin : uniform.min_ u = NaN).
  { unfold u, uniform.make, uniform.map_. cbn [uniform.min_].
    rewrite Hlow, fsub_nan_r. exact Hmap. }
  assert (Hmax : uniform.max_ u = NaN).
  { unfold u, uniform.make, uniform.map_. cbn [uniform.max_].
    rewrite Hlow, fsub_nan_r. exact Hmap. }
  repeat (split; [assumption |]).
  unfold uniform.index, uniform.imap_.
  rewrite Hmin, Hmax, Hoffset, Hrange, flt_of_nan, fge_of_nan, fsub_nan_r.
  change (fdiv NaN NaN) with NaN. rewrite fmul_nan_r. reflexivity.
Qed.

Lemma uniform_with_a_limit_outside_the_domain_witness :
  (detail.imap (Transformation := detail.power2) (of_Z (-1)) = NaN /\
   detail.map (Transformation := detail.power2) NaN = NaN) /\
  uniform.min_ sample_negative_sqrt = NaN /\
  uniform.max_ sample_negative_sqrt = NaN /\
  uniform.index (T := detail.power2) sample_negative_sqrt (of_Z 1) = Undefined.
Proof.
  assert (Hlow : detail.imap (Transformation := detail.power2) (of_Z (-1)) = NaN)
    by reflexivity.
  assert (Hmap : detail.map (Transformation := detail.power2) NaN = NaN)
    by reflexivity.
  split; [split; assumption |].
  exact (uniform_with_a_limit_outside_the_domain detail.power2
           (of_Z (-1)) (of_Z 4) 3 ""%string (of_Z 1) Hlow Hmap).
Defined.

(** X25. When the cached thresholds do not increase ([max_ <= min_], as
    for limits given the wrong way round, or equal), no value that is not
    NaN is ever given an interior bin: [index] is 0 below [min_] and the
    last bin otherwise, and the interior formula is never evaluated. *)
Theorem uniform_with_reversed_thresholds (T : detail.Transformation)
    (low high : double) (requested : Z) (name : string) (v : double) :
  let u := uniform.make (T := T) low high requested name in
  fle (uniform.max_ u) (uniform.min_ u) = true ->
  isnan v = false ->
  (flt v (uniform.min_ u) = true /\ uniform.index u v = Ret 0) \/
  (flt v (uniform.min_ u) = false /\
   uniform.index u v = Ret (wrap (uniform.nbins u - 1))).
Proof.
  intros u Hrev Hv.
  destruct (fle_not_nan _ _ Hrev) as [_ Hmin].
  destruct (uniform_last_bin T low high requested name) as [Hlast _].
  fold u in Hlast.
  unfold uniform.index.
  destruct (flt v (uniform.min_ u)) eqn:Hlt; [left; split; reflexivity |].
  right. split; [reflexivity |].
  pose proof (not_flt_fle v (uniform.min_ u) Hv Hmin Hlt) as Hle.
  pose proof (fle_trans _ _ _ Hrev Hle) as Hge.
  unfold fge. unfold fle in Hge. rewrite Hge, Hlast. reflexivity.
Qed.

Lemma uniform_with_reversed_thresholds_witness :
  (fle (uniform.max_ sample_reversed_linear)
       (uniform.min_ sample_reversed_linear) = true /\
   isnan (of_Z 5) = false) /\
  uniform.min_ sample_reversed_linear = of_Z 10 /\
  uniform.max_ sample_reversed_linear = of_Z 0 /\
  uniform.index (T := detail.identity) sample_reversed_linear (of_Z 5) = Ret 0 /\
  ((flt (of_Z 5) (uniform.min_ sample_reversed_linear) = true /\
    uniform.index (T := detail.identity) sample_reversed_linear (of_Z 5) = Ret 0) \/
   (flt (of_Z 5) (uniform.min_ sample_reversed_linear) = false /\
    uniform.index (T := detail.identity) sample_reversed_linear (of_Z 5)
      = Ret (wrap (uniform.nbins sample_reversed_linear - 1)))).
Proof.
  assert (Hrev : fle (uniform.max_ sample_reversed_linear)
                     (uniform.min_ sample_reversed_linear) = true)
    by reflexivity.
  assert (Hv : isnan (of_Z 5) = false) by reflexivity.
  split; [split; assumption |].
  split; [reflexivity |]. split; [reflexivity |].
  split; [reflexivity |].
  exact (uniform_with_reversed_thresholds detail.identity (of_Z 10) (of_Z 0) 11
           ""%string (of_Z 5) Hrev Hv).
Defined.

(** * Rounding, by values *)

(** ** Canonical mantissas *)

Lemma valid_canonical (s : bool) (m : positive) (e : Z) :
  valid_binary prec emax (S754_finite s m e) = true ->
  canonical m e /\ e <= 971.
Proof.
  unfold valid_binary, bounded, canonical_mantissa, canonical.
  intros H. apply andb_true_iff in H as [Hc He].
  apply Z.eqb_eq in Hc. apply Z.leb_le in He.
  unfold emax, prec in He. split; [exact Hc | lia].
Qed.

Lemma canonical_valid (s : bool) (m : positive) (e : Z) :
  canonical m e -> e <= 971 ->
  valid_binary prec emax (S754_finite s m e) = true.
Proof.
  unfold valid_binary, bounded, canonical_mantissa, canonical.
  intros Hc He. apply andb_true_iff. split.
  - apply Z.eqb_eq. exact Hc.
  - apply Z.leb_le. unfold emax, prec. lia.
Qed.

Lemma canonical_bounds (m : positive) (e : Z) :
  canonical m e ->
  -1074 <= e /\ Z.pos (digits2_pos m) <= 53 /\
  (-1074 < e -> Z.pos (digits2_pos m) = 53) /\
  Z.pos m < 2 ^ 53 /\ (-1074 < e -> 2 ^ 52 <= Z.pos m).
Proof.
  unfold canonical. rewrite fexp_unfold. intros H.
  pose proof (digits_upper_bound m) as Hup.
  pose proof (digits_lower_bound m) as Hlow.
  assert (Hd : Z.pos (digits2_pos m) <= 53) by lia.
  repeat split; try lia.
  - eapply Z.lt_le_trans; [exact Hup |]. apply Z.pow_le_mono_r; lia.
  - intros He. replace (Z.pos (digits2_pos m)) with 53 in Hlow by lia.
    exact Hlow.
Qed.

(** With canonical exponents, the exponent decides the order first. *)
Lemma canonical_exponent_order (m1 m2 : positive) (e1 e2 : Z) :
  canonical m1 e1 -> canonical m2 e2 -> e1 < e2 ->
  Z.pos m1 * 2 ^ (e1 + 1074) < Z.pos m2 * 2 ^ (e2 + 1074).
Proof.
  intros H1 H2 He.
  destruct (canonical_bounds m1 e1 H1) as (He1 & _ & _ & Hm1 & _).
  destruct (canonical_bounds m2 e2 H2) as (_ & _ & _ & _ & Hm2).
  specialize (Hm2 ltac:(lia)).
  replace (e2 + 1074) with ((e2 - e1) + (e1 + 1074)) by lia.
  rewrite (Z.pow_add_r 2 (e2 - e1) (e1 + 1074)) by lia.
  pose proof (pow2_pos (e1 + 1074) ltac:(lia)) as Hp.
  assert (Hq : 2 <= 2 ^ (e2 - e1)).
  { change 2 with (2 ^ 1) at 1. apply Z.pow_le_mono_r; lia. }
  set (P := 2 ^ (e1 + 1074)) in *. set (Q := 2 ^ (e2 - e1)) in *.
  clearbody P Q.
  assert (H53 : 2 ^ 53 = 2 * 2 ^ 52) by reflexivity.
  set (B := 2 ^ 52) in *. clearbody B.
  assert (Ha : Z.pos m1 * P < 2 * B * P) by nia.
  assert (Hb : 2 * B <= Z.pos m2 * Q) by nia.
  assert (Hc : 2 * B * P <= Z.pos m2 * Q * P) by nia.
  lia.
Qed.

Lemma canonical_order (m1 m2 : positive) (e1 e2 : Z) :
  canonical m1 e1 -> canonical m2 e2 ->
  (e1 < e2 \/ (e1 = e2 /\ Z.pos m1 < Z.pos m2) <->
   Z.pos m1 * 2 ^ (e1 + 1074) < Z.pos m2 * 2 ^ (e2 + 1074)).
Proof.
  intros H1 H2.
  destruct (canonical_bounds m1 e1 H1) as (He1 & _).
  destruct (canonical_bounds m2 e2 H2) as (He2 & _).
  split.
  - intros [He | [-> Hm]].
    + apply canonical_exponent_order; assumption.
    + pose proof (pow2_pos (e2 + 1074) ltac:(lia)). nia.
  - intros Hv.
    destruct (Z.lt_trichotomy e1 e2) as [He | [He | He]]; [left; exact He | |].
    + right. split; [exact He |]. subst e2.
      pose proof (pow2_pos (e1 + 1074) ltac:(lia)). nia.
    + pose proof (canonical_exponent_order m2 m1 e2 e1 H2 H1 He). lia.
Qed.

(** ** The order of valid doubles is the order of their values *)

Lemma flt_value (x y : double) :
  valid_binary prec emax x = true -> valid_binary prec emax y = true ->
  is_finite x = true -> is_finite y = true ->
  (flt x y = true <-> value x < value y).
Proof.
  intros Hx Hy Fx Fy.
  rewrite flt_by_key by (destruct x, y; try discriminate; reflexivity).
  destruct x as [sx | sx | | sx mx ex]; try discriminate;
    destruct y as [sy | sy | | sy my ey]; try discriminate;
    try (apply valid_canonical in Hx as [Hx Hxe]);
    try (apply valid_canonical in Hy as [Hy Hye]);
    try (pose proof (proj1 (canonical_bounds _ _ Hx)) as Hx0;
         pose proof (pow2_pos (ex + 1074) ltac:(lia)));
    try (pose proof (proj1 (canonical_bounds _ _ Hy)) as Hy0;
         pose proof (pow2_pos (ey + 1074) ltac:(lia)));
    try destruct sx; try destruct sy; cbn [order_key key_lt value cond_Zopp];
    try (split; [intros; nia | intros; lia]).
  - (* both negative *)
    pose proof (canonical_order my mx ey ex Hy Hx) as Hord.
    split.
    + intros [Hc | [_ [He | [He Hm]]]]; [lia | |].
      * assert (Z.pos my * 2 ^ (ey + 1074) < Z.pos mx * 2 ^ (ex + 1074))
          by (apply Hord; left; lia). lia.
      * assert (Z.pos my * 2 ^ (ey + 1074) < Z.pos mx * 2 ^ (ex + 1074))
          by (apply Hord; right; split; lia). lia.
    + intros Hv. right. split; [reflexivity |].
      destruct (proj2 Hord ltac:(lia)) as [He | [He Hm]]; [left; lia |].
      right. split; lia.
  - (* both positive *)
    pose proof (canonical_order mx my ex ey Hx Hy) as Hord.
    split.
    + intros [Hc | [_ Hk]]; [lia |]. apply Hord. exact Hk.
    + intros Hv. right. split; [reflexivity |]. apply Hord. exact Hv.
Qed.

Lemma fle_value (x y : double) :
  valid_binary prec emax x = true -> valid_binary prec emax y = true ->
  is_finite x = true -> is_finite y = true ->
  (fle x y = true <-> value x <= value y).
Proof.
  intros Hx Hy Fx Fy.
  pose proof (flt_value y x Hy Hx Fy Fx) as Hlt.
  assert (Nx : isnan x = false) by (destruct x; try discriminate; reflexivity).
  assert (Ny : isnan y = false) by (destruct y; try discriminate; reflexivity).
  split.
  - intros Hle. pose proof (fle_not_flt y x Hle) as Hn.
    destruct (Z_le_gt_dec (value x) (value y)) as [H | H]; [exact H |].
    rewrite (proj2 Hlt) in Hn by lia. discriminate.
  - intros Hv. apply not_flt_fle; [exact Ny | exact Nx |].
    destruct (flt y x) eqn:E; [| reflexivity].
    pose proof (proj1 Hlt eq_refl). lia.
Qed.

(** ** What [binary_round] returns *)

Lemma digits_of_shifted (M : positive) (p : positive) :
  Z.pos (digits2_pos (Pos.iter xO M p)) = Z.pos (digits2_pos M) + Z.pos p.
Proof.
  pose proof (digits_lower_bound M) as Hlow.
  pose proof (digits_upper_bound M) as Hup.
  pose proof (pow2_pos (Z.pos p) ltac:(lia)) as Hp.
  apply digits_exact; [| lia].
  rewrite iter_xO.
  replace (Z.pos (digits2_pos M) + Z.pos p - 1)
    with ((Z.pos (digits2_pos M) - 1) + Z.pos p) by lia.
  rewrite !Z.pow_add_r by lia.
  split; [apply Z.mul_le_mono_nonneg_r; lia | apply Z.mul_lt_mono_pos_r; lia].
Qed.

(** A mantissa of at most 53 bits is kept, or overflows by its exponent. *)
Lemma binary_round_aux_plain (m : positive) (e : Z) :
  Z.pos m < 2 ^ 53 -> -1074 <= e ->
  binary_round_aux prec emax false (Z.pos m) e loc_Exact
  = if e <=? 971 then S754_finite false m e else S754_infinity false.
Proof.
  intros Hm He.
  assert (Hd : Z.pos (digits2_pos m) <= 53) by (apply digits_at_most; lia).
  assert (Hshr : shr_fexp prec emax (Z.pos m) e loc_Exact
                 = ({| shr_m := Z.pos m; shr_r := false; shr_s := false |}, e)).
  { unfold shr_fexp. rewrite fexp_unfold. cbn [Zdigits2 shr_record_of_loc].
    unfold shr.
    destruct (Z.max (Z.pos (digits2_pos m) + e - 53) (-1074) - e) eqn:Hsh;
      try reflexivity; lia. }
  unfold binary_round_aux. rewrite Hshr.
  cbn [shr_m loc_of_shr_record round_nearest_even]. rewrite Hshr.
  cbn [shr_m]. reflexivity.
Qed.

Lemma scaled_div (M P k : Z) :
  0 < P -> 0 <= k -> (M * P) / (2 ^ k * P) = M / 2 ^ k.
Proof.
  intros HP Hk. pose proof (pow2_pos k Hk).
  apply Z.div_mul_cancel_r; lia.
Qed.

Lemma scaled_mod (M P k : Z) :
  0 < P -> 0 <= k -> (M * P) mod (2 ^ k * P) = (M mod 2 ^ k) * P.
Proof.
  intros HP Hk. pose proof (pow2_pos k Hk).
  apply Z.mul_mod_distr_r; lia.
Qed.

(** The result of rounding [M * 2^E] to nearest: a canonical mantissa and
    exponent, with the value truncated to the grid of the format at that
    size, or the next point of the grid when bits were lost; the double
    itself unless the exponent is too large. *)
Lemma binary_round_spec (M : positive) (E : Z) :
  -1074 <= E ->
  exists (m : positive) (e : Z),
    binary_round prec emax false M E
      = (if e <=? 971 then S754_finite false m e else S754_infinity false) /\
    canonical m e /\
    let X := Z.pos M * 2 ^ (E + 1074) in
    let G := 2 ^ (fexp prec emax (Z.pos (digits2_pos M) + E) + 1074) in
    Z.pos m * 2 ^ (e + 1074) = X / G * G \/
    (Z.pos m * 2 ^ (e + 1074) = X / G * G + G /\ X mod G <> 0).
Proof.
  intros HE.
  pose proof (digits_lower_bound M) as Hlow.
  pose proof (digits_upper_bound M) as Hup.
  unfold binary_round. rewrite fexp_unfold.
  set (d := Z.pos (digits2_pos M)) in *.
  assert (Hd1 : 1 <= d) by (unfold d; lia).
  set (g := Z.max (d + E - 53) (-1074)).
  assert (Hg : -1074 <= g) by (unfold g; lia).
  pose proof (pow2_pos (E + 1074) ltac:(lia)) as HP.
  pose proof (pow2_pos (g + 1074) ltac:(lia)) as HG.
  destruct (Z_le_gt_dec g E) as [HgE | HgE].
  - (* the mantissa is kept, or shifted to the left: nothing is lost *)
    assert (Hal : exists m0, shl_align M E g = (m0, g) /\
                  Z.pos m0 = Z.pos M * 2 ^ (E - g) /\
                  Z.pos (digits2_pos m0) = d + (E - g)).
    { unfold shl_align. destruct (g - E) as [| p | p] eqn:Hp; try lia.
      - exists M. assert (g = E) as -> by lia. rewrite Z.sub_diag.
        change (2 ^ 0) with 1. fold d. repeat split; lia.
      - exists (Pos.iter xO M p). split; [reflexivity |]. split.
        + rewrite iter_xO. f_equal. f_equal. lia.
        + rewrite digits_of_shifted. fold d. lia. }
    destruct Hal as (m0 & -> & Hm0 & Hd0).
    assert (Hm53 : Z.pos m0 < 2 ^ 53).
    { eapply Z.lt_le_trans; [apply digits_upper_bound |].
      apply Z.pow_le_mono_r; [lia |]. rewrite Hd0. unfold g. lia. }
    exists m0, g. rewrite binary_round_aux_plain by assumption.
    split; [reflexivity |]. split.
    + unfold canonical. rewrite fexp_unfold, Hd0.
      replace (d + (E - g) + g) with (d + E) by lia. reflexivity.
    + cbv zeta. left.
      assert (HX : Z.pos M * 2 ^ (E + 1074) = Z.pos m0 * 2 ^ (g + 1074)).
      { rewrite Hm0, <- Z.mul_assoc, <- Z.pow_add_r by lia.
        f_equal. f_equal. lia. }
      rewrite HX, Z.div_mul by lia. reflexivity.
  - (* bits are shifted out to the right *)
    assert (Hgd : g = d + E - 53) by (unfold g; lia).
    assert (Hal : shl_align M E g = (M, E)).
    { unfold shl_align. destruct (g - E) as [| p | p] eqn:Hp; try lia;
        reflexivity. }
    rewrite Hal.
    destruct (g - E) as [| p | p] eqn:Hp; try lia.
    assert (Hk : Z.pos p = d - 53) by lia.
    pose proof (pow2_pos (Z.pos p) ltac:(lia)) as Hpk.
    set (x := {| shr_m := Z.pos M; shr_r := false; shr_s := false |}).
    destruct (iter_shr_1_shifted p x ltac:(cbn; lia)) as [Hq Hexact].
    cbn [shr_m x] in Hq, Hexact.
    set (y := SpecFloat.iter_pos shr_1 p x) in *.
    assert (Hshr1 : shr_fexp prec emax (Z.pos M) E loc_Exact = (y, g)).
    { unfold shr_fexp. rewrite fexp_unfold. cbn [Zdigits2 shr_record_of_loc].
      fold d. fold g. rewrite Hp. cbn [shr]. fold x. fold y.
      f_equal. lia. }
    assert (Hsplit : 2 ^ d = 2 ^ 53 * 2 ^ Z.pos p).
    { rewrite <- Z.pow_add_r by lia. f_equal. lia. }
    assert (Hsplit' : 2 ^ (d - 1) = 2 ^ 52 * 2 ^ Z.pos p).
    { rewrite <- Z.pow_add_r by lia. f_equal. lia. }
    assert (Hm' : 2 ^ 52 <= shr_m y < 2 ^ 53).
    { rewrite Hq. split.
      - apply Z.div_le_lower_bound; lia.
      - apply Z.div_lt_upper_bound; lia. }
    destruct (round_nearest_even_bounds (shr_m y) y) as [Hr1 Hr2].
    set (m1 := round_nearest_even (shr_m y) (loc_of_shr_record y)) in *.
    assert (HG2 : 2 ^ (g + 1074) = 2 ^ Z.pos p * 2 ^ (E + 1074)).
    { rewrite <- Z.pow_add_r by lia. f_equal. lia. }
    assert (HXdiv : Z.pos M * 2 ^ (E + 1074) / 2 ^ (g + 1074) = shr_m y).
    { rewrite HG2, scaled_div by lia. symmetry. exact Hq. }
    assert (HXmod : Z.pos M * 2 ^ (E + 1074) mod 2 ^ (g + 1074) = 0 ->
                    m1 = shr_m y).
    { rewrite HG2, scaled_mod by lia. intros Hz. apply Hr2, Hexact.
      split; [| split; reflexivity].
      apply Z.mul_eq_0 in Hz as [Hz | Hz]; [exact Hz | lia]. }
    assert (Hvalue : forall (m : positive) (e : Z),
              Z.pos m * 2 ^ (e + 1074) = m1 * 2 ^ (g + 1074) ->
              Z.pos m * 2 ^ (e + 1074)
                = Z.pos M * 2 ^ (E + 1074) / 2 ^ (g + 1074) * 2 ^ (g + 1074) \/
              (Z.pos m * 2 ^ (e + 1074)
                 = Z.pos M * 2 ^ (E + 1074) / 2 ^ (g + 1074) * 2 ^ (g + 1074)
                   + 2 ^ (g + 1074) /\
               Z.pos M * 2 ^ (E + 1074) mod 2 ^ (g + 1074) <> 0)).
    { intros m e Hme. rewrite Hme, HXdiv.
      destruct (Z.eq_dec m1 (shr_m y)) as [-> | Hne]; [left; reflexivity |].
      right. split; [| intros Hz; apply Hne, HXmod, Hz].
      assert (m1 = shr_m y + 1) as -> by lia. lia. }
    unfold binary_round_aux. rewrite Hshr1. fold m1.
    destruct (Z_lt_le_dec m1 (2 ^ 53)) as [Hsmall | Hbig].
    + (* the rounded mantissa still has 53 bits *)
      destruct m1 as [| q | q] eqn:Hm1; try lia.
      assert (Hdq : Z.pos (digits2_pos q) = 53) by (apply digits_exact; lia).
      assert (Hshr2 : shr_fexp prec emax (Z.pos q) g loc_Exact
                = ({| shr_m := Z.pos q; shr_r := false; shr_s := false |}, g)).
      { unfold shr_fexp. rewrite fexp_unfold. cbn [Zdigits2 shr_record_of_loc].
        rewrite Hdq. unfold shr.
        destruct (Z.max (53 + g - 53) (-1074) - g) eqn:Hsh;
          try reflexivity; lia. }
      rewrite Hshr2. cbn [shr_m].
      exists q, g. split; [reflexivity |]. split.
      * unfold canonical. rewrite fexp_unfold, Hdq. lia.
      * cbv zeta. fold d. fold g. apply Hvalue. reflexivity.
    + (* the rounding carried into a 54th bit *)
      assert (Hm1 : m1 = 2 ^ 53) by lia.
      assert (H53 : 2 ^ 53 = Z.pos 9007199254740992) by reflexivity.
      assert (Hshr2 : shr_fexp prec emax m1 g loc_Exact
                = ({| shr_m := Z.pos 4503599627370496;
                      shr_r := false; shr_s := false |}, g + 1)).
      { rewrite Hm1, H53. unfold shr_fexp. rewrite fexp_unfold.
        cbn [Zdigits2 shr_record_of_loc].
        change (Z.pos (digits2_pos 9007199254740992)) with 54.
        replace (Z.max (54 + g - 53) (-1074) - g) with 1 by lia.
        reflexivity. }
      rewrite Hshr2. cbn [shr_m].
      exists 4503599627370496%positive, (g + 1).
      split; [reflexivity |]. split.
      * unfold canonical. rewrite fexp_unfold.
        change (Z.pos (digits2_pos 4503599627370496)) with 53. lia.
      * cbv zeta. fold d. fold g. apply Hvalue.
        rewrite Hm1.
        replace (g + 1 + 1074) with (1 + (g + 1074)) by lia.
        rewrite (Z.pow_add_r 2 1 (g + 1074)) by lia.
        change (Z.pos 4503599627370496) with (2 ^ 52).
        change (2 ^ 53) with (2 ^ 52 * 2 ^ 1). lia.
Qed.

(** ** Rounding is monotone past the doubles *)

Lemma pow2_lt_exponents (a b : Z) : 0 <= a -> 0 <= b -> 2 ^ a < 2 ^ b -> a < b.
Proof. intros Ha Hb H. apply (Z.pow_lt_mono_r_iff 2); lia. Qed.

(** The size of a value bounds the size of a smaller one. *)
Lemma value_le_size (m1 m2 : positive) (e1 e2 : Z) :
  -1074 <= e1 -> -1074 <= e2 ->
  Z.pos m1 * 2 ^ (e1 + 1074) <= Z.pos m2 * 2 ^ (e2 + 1074) ->
  Z.pos (digits2_pos m1) + e1 <= Z.pos (digits2_pos m2) + e2.
Proof.
  intros H1 H2 Hv.
  pose proof (digits_lower_bound m1) as Hlow.
  pose proof (digits_upper_bound m2) as Hup.
  set (d1 := Z.pos (digits2_pos m1)) in *.
  set (d2 := Z.pos (digits2_pos m2)) in *.
  assert (Hd1 : 1 <= d1) by (unfold d1; lia).
  assert (Hd2 : 1 <= d2) by (unfold d2; lia).
  pose proof (pow2_pos (e1 + 1074) ltac:(lia)) as Hp1.
  pose proof (pow2_pos (e2 + 1074) ltac:(lia)) as Hp2.
  assert (Ha : 2 ^ (d1 - 1 + (e1 + 1074)) <= Z.pos m1 * 2 ^ (e1 + 1074)).
  { rewrite Z.pow_add_r by lia. apply Z.mul_le_mono_nonneg_r; lia. }
  assert (Hb : Z.pos m2 * 2 ^ (e2 + 1074) < 2 ^ (d2 + (e2 + 1074))).
  { rewrite (Z.pow_add_r 2 d2 (e2 + 1074)) by lia.
    apply Z.mul_lt_mono_pos_r; lia. }
  assert (Hc : d1 - 1 + (e1 + 1074) < d2 + (e2 + 1074))
    by (apply pow2_lt_exponents; lia).
  lia.
Qed.

(** A value at or below a double rounds to a double at or below it. *)
Lemma round_le (M md : positive) (E ed : Z) :
  -1074 <= E -> canonical md ed -> ed <= 971 ->
  Z.pos M * 2 ^ (E + 1074) <= Z.pos md * 2 ^ (ed + 1074) ->
  exists (m : positive) (e : Z),
    binary_round prec emax false M E = S754_finite false m e /\
    canonical m e /\ e <= 971 /\
    Z.pos m * 2 ^ (e + 1074) <= Z.pos md * 2 ^ (ed + 1074).
Proof.
  intros HE Hd Hed HX.
  destruct (canonical_bounds md ed Hd) as (Hed0 & _).
  destruct (binary_round_spec M E HE) as (m & e & Hr & Hc & Hv).
  cbv zeta in Hv.
  pose proof (value_le_size M md E ed HE Hed0 HX) as Hsize.
  assert (Hg : fexp prec emax (Z.pos (digits2_pos M) + E) <= ed).
  { unfold canonical in Hd. rewrite <- Hd, !fexp_unfold. lia. }
  set (g := fexp prec emax (Z.pos (digits2_pos M) + E)) in *.
  assert (Hg0 : -1074 <= g) by (unfold g; rewrite fexp_unfold; lia).
  pose proof (pow2_pos (g + 1074) ltac:(lia)) as HG.
  set (X := Z.pos M * 2 ^ (E + 1074)) in *.
  set (G := 2 ^ (g + 1074)) in *.
  assert (HVd : Z.pos md * 2 ^ (ed + 1074) = Z.pos md * 2 ^ (ed - g) * G).
  { unfold G. rewrite <- Z.mul_assoc, <- Z.pow_add_r by lia.
    f_equal. f_equal. lia. }
  pose proof (Z.mul_div_le X G HG) as HT.
  assert (Hle : Z.pos m * 2 ^ (e + 1074) <= Z.pos md * 2 ^ (ed + 1074)).
  { destruct Hv as [Hv | [Hv Hmod]]; [rewrite Hv; lia |].
    rewrite Hv, HVd.
    set (c := Z.pos md * 2 ^ (ed - g)) in *.
    assert (HXc : X < c * G).
    { destruct (Z.eq_dec X (c * G)) as [Heq | Hne]; [| lia].
      rewrite Heq, Z.mod_mul in Hmod by lia. contradiction. }
    assert (X / G < c) by (apply Z.div_lt_upper_bound; lia).
    assert (X / G + 1 <= c) by lia. nia. }
  assert (He : e <= ed).
  { destruct (Z_le_gt_dec e ed) as [H | H]; [exact H |].
    pose proof (canonical_exponent_order md m ed e Hd Hc ltac:(lia)). lia. }
  exists m, e. rewrite Hr.
  destruct (Z.leb_spec e 971) as [_ | H]; [| lia].
  repeat split; try assumption. lia.
Qed.

(** A value at or above a double rounds to a double at or above it, or
    overflows. *)
Lemma round_ge (M md : positive) (E ed : Z) :
  -1074 <= E -> canonical md ed ->
  Z.pos md * 2 ^ (ed + 1074) <= Z.pos M * 2 ^ (E + 1074) ->
  exists (m : positive) (e : Z),
    binary_round prec emax false M E
      = (if e <=? 971 then S754_finite false m e else S754_infinity false) /\
    canonical m e /\
    Z.pos md * 2 ^ (ed + 1074) <= Z.pos m * 2 ^ (e + 1074).
Proof.
  intros HE Hd HX.
  destruct (canonical_bounds md ed Hd) as (Hed0 & _).
  destruct (binary_round_spec M E HE) as (m & e & Hr & Hc & Hv).
  cbv zeta in Hv.
  exists m, e. split; [exact Hr |]. split; [exact Hc |].
  pose proof (value_le_size md M ed E Hed0 HE HX) as Hsize.
  pose proof (digits_lower_bound M) as Hlow.
  pose proof (digits_upper_bound md) as Hup.
  unfold canonical in Hd. rewrite fexp_unfold in Hd, Hv.
  set (d := Z.pos (digits2_pos M)) in *.
  set (dd := Z.pos (digits2_pos md)) in *.
  assert (Hd1 : 1 <= d) by (unfold d; lia).
  assert (Hdd1 : 1 <= dd) by (unfold dd; lia).
  set (g := Z.max (d + E - 53) (-1074)) in *.
  pose proof (pow2_pos (g + 1074) ltac:(lia)) as HG.
  pose proof (pow2_pos (E + 1074) ltac:(lia)) as HP.
  pose proof (pow2_pos (ed + 1074) ltac:(lia)) as HPd.
  set (X := Z.pos M * 2 ^ (E + 1074)) in *.
  set (G := 2 ^ (g + 1074)) in *.
  set (Vd := Z.pos md * 2 ^ (ed + 1074)) in *.
  assert (HT : Vd <= X / G * G).
  { destruct (Z_le_gt_dec Vd (X / G * G)) as [H | H]; [exact H | exfalso].
    pose proof (Z.mod_pos_bound X G HG) as Hmod.
    pose proof (Z.div_mod X G ltac:(lia)) as Hdm.
    destruct (Z.eq_dec (dd + ed) (d + E)) as [Hsame | Hdiff].
    - (* the same size: the double is on the grid *)
      assert (Hed : ed = g) by (unfold g; lia).
      assert (HVd : Vd = Z.pos md * G) by (unfold Vd, G; rewrite Hed; reflexivity).
      assert (X / G < Z.pos md) by nia.
      assert (Z.pos md < X / G + 1) by nia.
      lia.
    - (* a smaller size: the double is below the leading bit *)
      assert (Hlead : 2 ^ (d - 1 + E + 1074) = 2 ^ (d - 1 + E - g) * G).
      { unfold G. rewrite <- Z.pow_add_r by (unfold g; lia).
        f_equal. lia. }
      assert (HleadX : 2 ^ (d - 1 + E + 1074) <= X).
      { replace (d - 1 + E + 1074) with (d - 1 + (E + 1074)) by lia.
        rewrite Z.pow_add_r by lia. unfold X.
        apply Z.mul_le_mono_nonneg_r; lia. }
      assert (HleadT : 2 ^ (d - 1 + E + 1074) <= X / G * G).
      { rewrite Hlead in HleadX |- *.
        pose proof (pow2_pos (d - 1 + E - g) ltac:(unfold g; lia)) as Hcpos.
        set (c := 2 ^ (d - 1 + E - g)) in *.
        assert (c <= X / G) by (apply Z.div_le_lower_bound; lia).
        nia. }
      assert (HVdlt : Vd < 2 ^ (dd + (ed + 1074))).
      { rewrite Z.pow_add_r by lia. unfold Vd.
        apply Z.mul_lt_mono_pos_r; lia. }
      assert (2 ^ (dd + (ed + 1074)) <= 2 ^ (d - 1 + E + 1074))
        by (apply Z.pow_le_mono_r; lia).
      lia. }
  destruct Hv as [Hv | [Hv _]]; rewrite Hv; lia.
Qed.

(** ** Rounding a quotient that is at most 1 *)

Lemma shr_record_of_loc_m (m : Z) (l : location) :
  shr_m (shr_record_of_loc m l) = m.
Proof. destruct l as [| []]; reflexivity. Qed.

Lemma loc_of_shr_record_of_loc (m : Z) (l : location) :
  loc_of_shr_record (shr_record_of_loc m l) = l.
Proof. destruct l as [| []]; reflexivity. Qed.

(** One rounding stage from any location: a value at or below [n], and
    strictly below it unless exact, stays at or below [n]. *)
Lemma shr_fexp_below_from (n m e : Z) (l : location) :
  0 < n < 2 ^ 53 -> below n m e ->
  (m = n * 2 ^ (- e) -> l = loc_Exact) ->
  below n (round_nearest_even
             (shr_m (fst (shr_fexp prec emax m e l)))
             (loc_of_shr_record (fst (shr_fexp prec emax m e l))))
          (snd (shr_fexp prec emax m e l)).
Proof.
  intros Hn Hbelow Hl.
  pose proof (below_digits n m e Hn Hbelow) as Hdigits.
  destruct Hbelow as [He [Hm0 Hm]].
  unfold shr_fexp. rewrite fexp_unfold.
  set (x := shr_record_of_loc m l).
  assert (Hxm : shr_m x = m) by apply shr_record_of_loc_m.
  assert (Hxl : loc_of_shr_record x = l) by apply loc_of_shr_record_of_loc.
  set (sh := Z.max (Zdigits2 m + e - 53) (-1074) - e).
  assert (Hsh : e + sh <= 0) by (unfold sh; lia).
  unfold shr.
  destruct sh as [| p | p] eqn:Hp; cbn [fst snd].
  1, 3: destruct (round_nearest_even_bounds (shr_m x) x) as [Hr1 Hr2];
        rewrite Hxm in *; split; [exact He |]; split; [lia |];
        destruct (Z.eq_dec m (n * 2 ^ (- e))) as [Heq | Hne]; [| lia];
        rewrite Hr2; [lia |]; apply loc_exact_iff; rewrite Hxl;
        apply Hl, Heq.
  destruct (iter_shr_1_shifted p x ltac:(rewrite Hxm; exact Hm0))
    as [Hq Hexact].
  rewrite Hxm in Hq, Hexact.
  set (y := SpecFloat.iter_pos shr_1 p x) in *.
  pose proof (pow2_pos (Z.pos p) ltac:(lia)) as Hpp.
  pose proof (pow2_pos (- (e + Z.pos p)) ltac:(lia)) as Hpe.
  assert (Hsplit : 2 ^ (- e) = 2 ^ (- (e + Z.pos p)) * 2 ^ Z.pos p).
  { rewrite <- Z.pow_add_r by lia. f_equal. lia. }
  rewrite Hsplit in Hm, Hl.
  set (N := n * 2 ^ (- (e + Z.pos p))) in *.
  assert (Hm' : m <= N * 2 ^ Z.pos p) by (unfold N; lia).
  assert (Hy0 : 0 <= shr_m y) by (rewrite Hq; apply Z.div_pos; lia).
  assert (HyN : shr_m y <= N).
  { rewrite Hq. apply Z.div_le_upper_bound; lia. }
  destruct (round_nearest_even_bounds (shr_m y) y) as [Hr1 Hr2].
  split; [exact Hsh |]. split; [lia |].
  destruct (Z.eq_dec m (N * 2 ^ Z.pos p)) as [Heq | Hne].
  - rewrite Hr2; [exact HyN |]. apply Hexact. split.
    + rewrite Heq. apply Z.mod_mul. lia.
    + apply loc_exact_iff. rewrite Hxl. apply Hl. unfold N in Heq. lia.
  - assert (shr_m y < N); [| lia].
    rewrite Hq. apply Z.div_lt_upper_bound; lia.
Qed.

Lemma binary_round_aux_at_most_from (n m e : Z) (l : location) :
  0 < n < 2 ^ 53 -> below n m e ->
  (m = n * 2 ^ (- e) -> l = loc_Exact) ->
  at_most n (binary_round_aux prec emax false m e l).
Proof.
  intros Hn Hbelow Hl.
  unfold binary_round_aux.
  pose proof (shr_fexp_below_from n m e l Hn Hbelow Hl) as H1.
  destruct (shr_fexp prec emax m e l) as [mrs' e'].
  cbn [fst snd] in H1.
  destruct (shr_fexp_below n _ _ Hn H1) as [H2 _].
  destruct (shr_fexp prec emax _ e' loc_Exact) as [mrs'' e''].
  cbn [fst snd] in H2.
  destruct H2 as [He [Hm0 Hm]].
  destruct (shr_m mrs'') as [| q | q] eqn:Hq; [exact I | | lia].
  destruct (Z.leb_spec e'' (emax - prec)) as [_ | Hbig].
  - repeat split; assumption.
  - unfold emax, prec in Hbig. lia.
Qed.

(** The quotient of a positive double by one that is not smaller is at
    most 1. *)
Lemma fdiv_at_most_one (mw mr : positive) (ew er : Z) :
  -1074 <= ew -> -1074 <= er ->
  Z.pos mw * 2 ^ (ew + 1074) <= Z.pos mr * 2 ^ (er + 1074) ->
  at_most 1 (fdiv (S754_finite false mw ew) (S754_finite false mr er)).
Proof.
  intros Hew Her Hv.
  pose proof (value_le_size mw mr ew er Hew Her Hv) as Hsize.
  unfold fdiv, SFdiv, SFdiv_core_binary. cbn [xorb Zdigits2].
  rewrite fexp_unfold.
  set (e' := Z.min (Z.max (Z.pos (digits2_pos mw) + ew
                           - (Z.pos (digits2_pos mr) + er) - 53) (-1074))
                   (ew - er)).
  assert (He' : e' <= -53) by (unfold e'; lia).
  assert (Hs : 0 <= ew - er - e') by (unfold e'; lia).
  set (s := ew - er - e') in *.
  set (m' := match s with
             | 0 => Z.pos mw
             | Z.pos _ => Z.shiftl (Z.pos mw) s
             | Z.neg _ => 0
             end).
  assert (Hm' : m' = Z.pos mw * 2 ^ s).
  { unfold m'. destruct s as [| p | p] eqn:Hp; cbv iota;
      [change (2 ^ 0) with 1; lia | apply Z.shiftl_mul_pow2; lia | lia]. }
  clearbody m'.
  pose proof (pow2_pos s Hs) as Hps.
  pose proof (pow2_pos (- e') ltac:(lia)) as Hpe.
  pose proof (pow2_pos (ew + 1074) ltac:(lia)) as Hpw.
  assert (Hbound : m' <= Z.pos mr * 2 ^ (- e')).
  { assert (Hexp : 2 ^ (er + 1074) * 2 ^ s = 2 ^ (- e') * 2 ^ (ew + 1074)).
    { rewrite <- !Z.pow_add_r by lia. f_equal. unfold s. lia. }
    assert (Hscaled : m' * 2 ^ (ew + 1074)
                      <= Z.pos mr * 2 ^ (- e') * 2 ^ (ew + 1074)).
    { rewrite Hm'.
      replace (Z.pos mw * 2 ^ s * 2 ^ (ew + 1074))
        with (Z.pos mw * 2 ^ (ew + 1074) * 2 ^ s) by lia.
      replace (Z.pos mr * 2 ^ (- e') * 2 ^ (ew + 1074))
        with (Z.pos mr * (2 ^ (er + 1074) * 2 ^ s)) by (rewrite Hexp; lia).
      rewrite Z.mul_assoc. apply Z.mul_le_mono_nonneg_r; lia. }
    apply Z.mul_le_mono_pos_r in Hscaled; lia. }
  pose proof (Z_div_mod m' (Z.pos mr) ltac:(lia)) as Hdiv.
  destruct (Z.div_eucl m' (Z.pos mr)) as [q rem].
  destruct Hdiv as [Hqr Hrem].
  assert (Hq0 : 0 <= q) by nia.
  assert (HqN : q <= 2 ^ (- e')) by nia.
  apply binary_round_aux_at_most_from; [lia | |].
  - split; [lia |]. lia.
  - intros Hq. assert (Hrem0 : rem = 0) by nia. subst rem.
    unfold new_location, new_location_even, new_location_odd.
    destruct (Z.even (Z.pos mr)); reflexivity.
Qed.

(** The product of an integer below 2^53 with a double that is at most 1,
    rounded, floored and converted, is at most that integer. *)
Lemma floor_of_scaled_at_most_one (n : Z) (x : double) :
  0 <= n < 2 ^ 53 -> at_most 1 x ->
  exists k, to_size_t (ffloor (fmul (of_Z n) x)) = Ret k /\ 0 <= k <= n.
Proof.
  intros Hn Hx.
  destruct (Z.eq_dec n 0) as [-> | Hne].
  { exists 0. split; [| lia].
    destruct x as [s | s | | [|] m e]; try contradiction; reflexivity. }
  destruct (of_Z_exact n ltac:(lia)) as (ma & ea & Ha & Hea & Hma).
  rewrite Ha.
  destruct x as [s | s | | [|] m e]; try contradiction.
  { exists 0. split; [reflexivity | lia]. }
  destruct Hx as [He [_ Hm]].
  apply floor_at_most; [lia |].
  unfold fmul, SFmul. cbn [xorb].
  apply binary_round_aux_at_most; [lia |].
  split; [lia |]. split; [lia |].
  rewrite Pos2Z.inj_mul, Hma.
  replace (- (ea + e)) with (- ea + - e) by lia.
  rewrite Z.pow_add_r by lia.
  pose proof (pow2_pos (- ea) ltac:(lia)).
  pose proof (pow2_pos (- e) ltac:(lia)).
  nia.
Qed.

(** ** Sums and differences of doubles *)

Lemma binary_round_neg (M : positive) (E : Z) :
  binary_round prec emax true M E = fneg (binary_round prec emax false M E).
Proof.
  unfold binary_round.
  destruct (shl_align M E (fexp prec emax (Z.pos (digits2_pos M) + E)))
    as [mz ez].
  unfold binary_round_aux.
  destruct (shr_fexp prec emax (Z.pos mz) ez loc_Exact) as [mrs' e'].
  destruct (shr_fexp prec emax _ e' loc_Exact) as [mrs'' e''].
  destruct (shr_m mrs''); try reflexivity.
  destruct (e'' <=? emax - prec); reflexivity.
Qed.

Lemma binary_normalize_by_sign (S E : Z) :
  binary_normalize prec emax S E false =
  match S with
  | 0 => zero
  | Z.pos p => binary_round prec emax false p E
  | Z.neg p => fneg (binary_round prec emax false p E)
  end.
Proof. destruct S; [reflexivity | reflexivity | apply binary_round_neg]. Qed.

(** The mantissa of a double aligned to a smaller exponent. *)
Lemma aligned_value (s : bool) (m : positive) (e ez : Z) :
  -1074 <= ez -> ez <= e ->
  cond_Zopp s (Z.pos (fst (shl_align m e ez))) * 2 ^ (ez + 1074)
  = value (S754_finite s m e).
Proof.
  intros Hez He. rewrite shl_align_value by exact He. cbn [value].
  assert (H : Z.pos m * 2 ^ (e - ez) * 2 ^ (ez + 1074)
              = Z.pos m * 2 ^ (e + 1074)).
  { rewrite <- Z.mul_assoc, <- Z.pow_add_r by lia. f_equal. f_equal. lia. }
  destruct s; cbn [cond_Zopp]; lia.
Qed.

Lemma fadd_finite (sx sy : bool) (mx my : positive) (ex ey : Z) :
  -1074 <= ex -> -1074 <= ey ->
  exists S,
    fadd (S754_finite sx mx ex) (S754_finite sy my ey)
      = binary_normalize prec emax S (Z.min ex ey) false /\
    S * 2 ^ (Z.min ex ey + 1074)
      = value (S754_finite sx mx ex) + value (S754_finite sy my ey).
Proof.
  intros Hx Hy. unfold fadd, SFadd. eexists. split; [reflexivity |].
  rewrite Z.mul_add_distr_r, !aligned_value by lia. reflexivity.
Qed.

Lemma fsub_finite (sx sy : bool) (mx my : positive) (ex ey : Z) :
  -1074 <= ex -> -1074 <= ey ->
  exists S,
    fsub (S754_finite sx mx ex) (S754_finite sy my ey)
      = binary_normalize prec emax S (Z.min ex ey) false /\
    S * 2 ^ (Z.min ex ey + 1074)
      = value (S754_finite sx mx ex) - value (S754_finite sy my ey).
Proof.
  intros Hx Hy. unfold fsub, SFsub. eexists. split; [reflexivity |].
  rewrite Z.mul_sub_distr_r, !aligned_value by lia. reflexivity.
Qed.

(** What is known of a valid finite double. *)
Lemma valid_finite_cases (x : double) :
  valid_binary prec emax x = true -> is_finite x = true ->
  (exists s, x = S754_zero s) \/
  (exists s m e, x = S754_finite s m e /\ canonical m e /\
                 -1074 <= e <= 971).
Proof.
  intros Hv Hf. destruct x as [s | s | | s m e]; try discriminate.
  - left. exists s. reflexivity.
  - right. exists s, m, e.
    destruct (valid_canonical s m e Hv) as [Hc He].
    destruct (canonical_bounds m e Hc) as (He0 & _).
    repeat split; try assumption; lia.
Qed.

(** A sum that is below a double does not round above it. *)
Lemma fadd_not_above (a o : double) (mr : positive) (er : Z) :
  valid_binary prec emax a = true -> is_finite a = true ->
  valid_binary prec emax o = true -> is_finite o = true ->
  canonical mr er -> er <= 971 ->
  value (S754_finite false mr er) + value o < value a ->
  flt a (fadd (S754_finite false mr er) o) = false.
Proof.
  intros Va Fa Vo Fo Hr Her Hlt.
  destruct (canonical_bounds mr er Hr) as (Her0 & _).
  pose proof (canonical_valid false mr er Hr Her) as Vr.
  destruct (valid_finite_cases o Vo Fo)
    as [[so ->] | (so & mo & eo & -> & Ho & Heo)].
  { (* adding a zero *)
    change (fadd (S754_finite false mr er) (S754_zero so))
      with (S754_finite false mr er).
    destruct (flt a (S754_finite false mr er)) eqn:E; [| reflexivity].
    apply (flt_value a _ Va Vr Fa eq_refl) in E.
    cbn [value cond_Zopp] in Hlt, E. lia. }
  destruct (fadd_finite false so mr mo er eo ltac:(lia) ltac:(lia))
    as (S & -> & HS).
  rewrite binary_normalize_by_sign.
  set (ez := Z.min er eo) in *.
  pose proof (pow2_pos (ez + 1074) ltac:(unfold ez; lia)) as HP.
  rewrite <- HS in Hlt.
  destruct S as [| p | p].
  - destruct (flt a zero) eqn:E; [| reflexivity].
    apply (flt_value a zero Va eq_refl Fa eq_refl) in E. cbn [value zero] in E.
    lia.
  - destruct (valid_finite_cases a Va Fa)
      as [[sa ->] | (sa & ma & ea & -> & Ha & Hea)];
      [cbn [value] in Hlt; lia |].
    destruct sa.
    { cbn [value cond_Zopp] in Hlt.
      pose proof (pow2_pos (ea + 1074) ltac:(lia)). nia. }
    cbn [value cond_Zopp] in Hlt.
    destruct (round_le p ma ez ea ltac:(unfold ez; lia) Ha ltac:(lia)
                ltac:(lia)) as (m & e & -> & Hc & He & Hv).
    destruct (flt (S754_finite false ma ea) (S754_finite false m e)) eqn:E;
      [| reflexivity].
    apply (flt_value _ _ Va (canonical_valid false m e Hc He) eq_refl eq_refl)
      in E.
    cbn [value cond_Zopp] in E. lia.
  - destruct (valid_finite_cases a Va Fa)
      as [[sa ->] | (sa & ma & ea & -> & Ha & Hea)].
    { destruct (binary_round_spec p ez ltac:(unfold ez; lia))
        as (m & e & -> & _).
      destruct (e <=? 971); reflexivity. }
    destruct sa.
    2: { destruct (binary_round_spec p ez ltac:(unfold ez; lia))
           as (m & e & -> & _).
         destruct (e <=? 971); reflexivity. }
    cbn [value cond_Zopp] in Hlt.
    destruct (round_ge p ma ez ea ltac:(unfold ez; lia) Ha ltac:(lia))
      as (m & e & -> & Hc & Hv).
    destruct (Z.leb_spec e 971) as [He | He]; [| reflexivity].
    cbn [fneg negb].
    destruct (flt (S754_finite true ma ea) (S754_finite true m e)) eqn:E;
      [| reflexivity].
    apply (flt_value _ _ Va (canonical_valid true m e Hc He) eq_refl eq_refl)
      in E.
    cbn [value cond_Zopp] in E. lia.
Qed.

(** A difference between 0 and a double rounds to a zero or to a positive
    double that is not above it. *)
Lemma fsub_at_most (a o : double) (mr : positive) (er : Z) :
  valid_binary prec emax a = true -> is_finite a = true ->
  valid_binary prec emax o = true -> is_finite o = true ->
  canonical mr er -> er <= 971 ->
  value o <= value a ->
  value a - value o <= value (S754_finite false mr er) ->
  (exists s, fsub a o = S754_zero s) \/
  (exists m e, fsub a o = S754_finite false m e /\ -1074 <= e /\
     Z.pos m * 2 ^ (e + 1074) <= Z.pos mr * 2 ^ (er + 1074)).
Proof.
  intros Va Fa Vo Fo Hr Her Hle Hdiff. cbn [value cond_Zopp] in Hdiff.
  destruct (valid_finite_cases a Va Fa)
    as [[sa ->] | (sa & ma & ea & -> & Ha & Hea)];
    destruct (valid_finite_cases o Vo Fo)
      as [[so ->] | (so & mo & eo & -> & Ho & Heo)].
  - left. destruct sa, so; eexists; reflexivity.
  - right. cbn [value cond_Zopp] in Hle, Hdiff.
    pose proof (pow2_pos (eo + 1074) ltac:(lia)).
    destruct so; cbn [cond_Zopp] in Hle, Hdiff; [| nia].
    exists mo, eo. split; [reflexivity |]. split; lia.
  - right. cbn [value cond_Zopp] in Hle, Hdiff.
    pose proof (pow2_pos (ea + 1074) ltac:(lia)).
    destruct sa; cbn [cond_Zopp] in Hle, Hdiff; [nia |].
    exists ma, ea. split; [reflexivity |]. split; lia.
  - destruct (fsub_finite sa so ma mo ea eo ltac:(lia) ltac:(lia))
      as (S & -> & HS).
    rewrite binary_normalize_by_sign.
    set (ez := Z.min ea eo) in *.
    pose proof (pow2_pos (ez + 1074) ltac:(unfold ez; lia)) as HP.
    destruct S as [| p | p].
    + left. exists false. reflexivity.
    + right.
      destruct (round_le p mr ez er ltac:(unfold ez; lia) Hr Her ltac:(lia))
        as (m & e & -> & Hc & He & Hv).
      destruct (canonical_bounds m e Hc) as (He0 & _).
      exists m, e. repeat split; assumption.
    + nia.
Qed.

(** The difference of two doubles in order, when it is finite, is a
    positive double. *)
Lemma fsub_positive (h o : double) :
  valid_binary prec emax h = true -> is_finite h = true ->
  valid_binary prec emax o = true -> is_finite o = true ->
  flt o h = true -> is_finite (fsub h o) = true ->
  exists mr er,
    fsub h o = S754_finite false mr er /\ canonical mr er /\ er <= 971.
Proof.
  intros Vh Fh Vo Fo Hlt Hfin.
  apply (flt_value o h Vo Vh Fo Fh) in Hlt.
  destruct (valid_finite_cases h Vh Fh)
    as [[sh ->] | (sh & mh & eh & -> & Hh & Heh)];
    destruct (valid_finite_cases o Vo Fo)
      as [[so ->] | (so & mo & eo & -> & Ho & Heo)];
    cbn [value cond_Zopp] in Hlt.
  - lia.
  - pose proof (pow2_pos (eo + 1074) ltac:(lia)).
    destruct so; cbn [cond_Zopp] in Hlt; [| nia].
    exists mo, eo. repeat split; [assumption | lia].
  - pose proof (pow2_pos (eh + 1074) ltac:(lia)).
    destruct sh; cbn [cond_Zopp] in Hlt; [nia |].
    exists mh, eh. repeat split; [assumption | lia].
  - destruct (fsub_finite sh so mh mo eh eo ltac:(lia) ltac:(lia))
      as (S & HS & HSv).
    rewrite HS in Hfin |- *. rewrite binary_normalize_by_sign in Hfin |- *.
    set (ez := Z.min eh eo) in *.
    pose proof (pow2_pos (ez + 1074) ltac:(unfold ez; lia)) as HP.
    cbn [value] in HSv.
    destruct S as [| p | p]; [lia | | nia].
    destruct (binary_round_spec p ez ltac:(unfold ez; lia))
      as (m & e & Hr & Hc & _).
    rewrite Hr in Hfin |- *.
    destruct (Z.leb_spec e 971) as [He | He]; [| discriminate].
    exists m, e. repeat split; assumption.
Qed.

(** A canonical mantissa scaled by a power of two rounds back to itself. *)
Lemma binary_round_aux_scaled (M m' : positive) (e' n : Z) :
  canonical m' e' -> e' <= 971 -> 0 <= n ->
  Z.pos M = Z.pos m' * 2 ^ n ->
  binary_round_aux prec emax false (Z.pos M) (e' - n) loc_Exact
  = S754_finite false m' e'.
Proof.
  intros Hc He' Hn HM.
  destruct (canonical_bounds m' e' Hc) as (He0 & Hd53 & _ & Hm53 & _).
  pose proof (pow2_pos n Hn) as Hpn.
  pose proof (digits_lower_bound m') as Hlow.
  pose proof (digits_upper_bound m') as Hup.
  set (d := Z.pos (digits2_pos m')) in *.
  assert (Hd1 : 1 <= d) by (unfold d; lia).
  assert (HdM : Z.pos (digits2_pos M) = d + n).
  { apply digits_exact; [| lia]. rewrite HM.
    replace (d + n - 1) with ((d - 1) + n) by lia.
    rewrite (Z.pow_add_r 2 (d - 1) n), (Z.pow_add_r 2 d n) by lia. split.
    - apply Z.mul_le_mono_nonneg_r; lia.
    - apply Z.mul_lt_mono_pos_r; lia. }
  unfold canonical in Hc. rewrite fexp_unfold in Hc. fold d in Hc.
  rewrite <- (binary_round_aux_exact m' e') by lia.
  destruct n as [| p | p]; try lia.
  - rewrite Z.sub_0_r. change (2 ^ 0) with 1 in HM. f_equal. lia.
  - unfold binary_round_aux.
    assert (H1 : exists y, shr_fexp prec emax (Z.pos M) (e' - Z.pos p) loc_Exact
                           = (y, e') /\ shr_m y = Z.pos m' /\ is_exact y).
    { unfold shr_fexp. rewrite fexp_unfold. cbn [Zdigits2 shr_record_of_loc].
      rewrite HdM.
      replace (Z.max (d + Z.pos p + (e' - Z.pos p) - 53) (-1074)
               - (e' - Z.pos p)) with (Z.pos p) by lia.
      cbn [shr]. eexists. split; [f_equal; lia |].
      set (x := {| shr_m := Z.pos M; shr_r := false; shr_s := false |}).
      destruct (iter_shr_1_shifted p x ltac:(cbn; lia)) as [Hq Hexact].
      cbn [shr_m x] in Hq, Hexact.
      split.
      - rewrite Hq, HM. apply Z.div_mul. lia.
      - apply Hexact. split; [| split; reflexivity].
        rewrite HM. apply Z.mod_mul. lia. }
    assert (H2 : shr_fexp prec emax (Z.pos m') e' loc_Exact
                 = ({| shr_m := Z.pos m'; shr_r := false; shr_s := false |}, e')).
    { unfold shr_fexp. rewrite fexp_unfold. cbn [Zdigits2 shr_record_of_loc].
      fold d. unfold shr.
      destruct (Z.max (d + e' - 53) (-1074) - e') eqn:Hsh;
        try reflexivity; lia. }
    destruct H1 as (y & -> & Hy & Hexact).
    rewrite H2.
    rewrite (proj2 (round_nearest_even_bounds (shr_m y) y) Hexact), Hy.
    cbn [shr_m loc_of_shr_record round_nearest_even].
    reflexivity.
Qed.

Lemma fmul_one_r (mr : positive) (er : Z) :
  canonical mr er -> er <= 971 ->
  fmul (S754_finite false mr er) one = S754_finite false mr er.
Proof.
  intros Hc He. unfold fmul, SFmul, one. cbn [xorb].
  replace (er + -52) with (er - 52) by lia.
  apply binary_round_aux_scaled; [exact Hc | exact He | lia |].
  rewrite Pos2Z.inj_mul. reflexivity.
Qed.

(** A sum of two finite doubles is not NaN. *)
Lemma fadd_finite_not_nan (x y : double) :
  valid_binary prec emax x = true -> is_finite x = true ->
  valid_binary prec emax y = true -> is_finite y = true ->
  isnan (fadd x y) = false.
Proof.
  intros Vx Fx Vy Fy.
  destruct (valid_finite_cases x Vx Fx)
    as [[sx ->] | (sx & mx & ex & -> & Hx & Hex)];
    destruct (valid_finite_cases y Vy Fy)
      as [[sy ->] | (sy & my & ey & -> & Hy & Hey)];
    try reflexivity.
  - destruct sx, sy; reflexivity.
  - destruct (fadd_finite sx sy mx my ex ey ltac:(lia) ltac:(lia))
      as (S & -> & _).
    rewrite binary_normalize_by_sign.
    destruct S as [| p | p]; [reflexivity | |];
      destruct (binary_round_spec p (Z.min ex ey) ltac:(lia))
        as (m & e & -> & _);
      destruct (e <=? 971); reflexivity.
Qed.

(** ** The interior of the equispaced scheme *)

Lemma fsub_finite_operands (x y : double) :
  is_finite (fsub x y) = true -> is_finite x = true /\ is_finite y = true.
Proof.
  intros H.
  destruct x as [sx | sx | | sx mx ex]; destruct y as [sy | sy | | sy my ey];
    try (split; reflexivity);
    try (destruct sx; discriminate H);
    try (destruct sx, sy; discriminate H);
    try (destruct sy; discriminate H); discriminate H.
Qed.

(** The sum of a zero and a finite double is that double, up to the sign
    of a zero. *)
Lemma fadd_zero_finite (s : bool) (o : double) :
  valid_binary prec emax o = true -> is_finite o = true ->
  valid_binary prec emax (fadd (S754_zero s) o) = true /\
  is_finite (fadd (S754_zero s) o) = true /\
  value (fadd (S754_zero s) o) = value o.
Proof.
  intros Vo Fo.
  destruct o as [so | so | | so mo eo]; try discriminate.
  - destruct s, so; repeat split; reflexivity.
  - repeat split; [exact Vo].
Qed.

Lemma finite_between (a lo hi : double) :
  isnan a = false -> is_finite lo = true ->
  flt a lo = false -> flt a hi = true -> is_finite a = true.
Proof.
  intros Ha Hlo H1 H2.
  destruct a as [sa | [|] | | sa ma ea]; try reflexivity; try discriminate.
  - destruct lo as [s | s | | [|] m e]; discriminate.
  - rewrite flt_infinity_false in H2. discriminate.
Qed.

Section UniformInterior.
Context {T : detail.Transformation}.
Variables (low high : double) (requested : Z) (name : string).
Hypothesis HT : monotonic_invertible T.
Hypothesis Hlow : valid_binary prec emax low = true.
Hypothesis Hhigh : valid_binary prec emax high = true.
Hypothesis Horder : flt low high = true.
Hypothesis Hrange :
  is_finite (fsub (detail.imap high) (detail.imap low)) = true.
Hypothesis Hreq : 0 <= requested < 2 ^ 53.

(** Between the thresholds, the floor that [index] computes is at most the
    number of requested bins. *)
Lemma uniform_interior_floor (v : double) :
  valid_binary prec emax v = true -> isnan v = false ->
  flt v (uniform.min_ (uniform.make low high requested name)) = false ->
  fge v (uniform.max_ (uniform.make low high requested name)) = false ->
  exists k,
    to_size_t (ffloor (fmul (of_Z requested)
                 (uniform.imap_ (uniform.make low high requested name) v)))
      = Ret k /\ 0 <= k <= requested.
Proof.
  intros Vv Nv Hmin Hmax.
  destruct HT as (Tvalid & Tnan & Tinv & Tlt & Tle).
  set (o := detail.imap low) in *. set (h := detail.imap high) in *.
  set (a := detail.imap v).
  assert (Vo : valid_binary prec emax o = true) by (apply Tvalid; exact Hlow).
  assert (Vh : valid_binary prec emax h = true) by (apply Tvalid; exact Hhigh).
  assert (Va : valid_binary prec emax a = true) by (apply Tvalid; exact Vv).
  assert (Na : isnan a = false) by (apply Tnan; exact Nv).
  assert (Hoh : flt o h = true) by (unfold o, h; rewrite Tlt; exact Horder).
  destruct (fsub_finite_operands h o Hrange) as [Fh Fo].
  destruct (fsub_positive h o Vh Fh Vo Fo Hoh Hrange)
    as (mr & er & Hr & Hcr & Her).
  assert (Vr : valid_binary prec emax (S754_finite false mr er) = true)
    by (apply canonical_valid; assumption).
  (* the thresholds *)
  assert (Emin : uniform.min_ (uniform.make low high requested name)
                 = detail.map (fadd (S754_zero false) o)).
  { cbn [uniform.make uniform.min_]. unfold uniform.map_. fold o h.
    rewrite Hr. reflexivity. }
  assert (Emax : uniform.max_ (uniform.make low high requested name)
                 = detail.map (fadd (S754_finite false mr er) o)).
  { cbn [uniform.make uniform.max_]. unfold uniform.map_. fold o h.
    rewrite Hr, of_Z_one, (fmul_one_r mr er Hcr Her). reflexivity. }
  destruct (fadd_zero_finite false o Vo Fo) as (Vm0 & Fm0 & Em0).
  set (m0 := fadd (S754_zero false) o) in *.
  set (t := fadd (S754_finite false mr er) o) in *.
  assert (Hmin' : flt a m0 = false).
  { rewrite <- Hmin, Emin. unfold a.
    rewrite <- (Tlt v (detail.map m0)), Tinv. reflexivity. }
  assert (Hmax' : fle t a = false).
  { unfold fge in Hmax. rewrite <- Hmax, Emax. unfold a.
    rewrite <- (Tle (detail.map t) v), Tinv. reflexivity. }
  assert (Nt : isnan t = false)
    by (apply fadd_finite_not_nan; [exact Vr | reflexivity | exact Vo | exact Fo]).
  assert (Hat : flt a t = true).
  { destruct (flt a t) eqn:E; [reflexivity |].
    rewrite (not_flt_fle a t Na Nt E) in Hmax'. discriminate. }
  assert (Fa : is_finite a = true)
    by exact (finite_between a m0 t Na Fm0 Hmin' Hat).
  assert (Hoa : value o <= value a).
  { destruct (Z.lt_ge_cases (value a) (value o)) as [Hlt | Hge]; [| lia].
    rewrite <- Em0 in Hlt.
    apply (flt_value a m0 Va Vm0 Fa Fm0) in Hlt. congruence. }
  assert (Har : value a - value o <= value (S754_finite false mr er)).
  { destruct (Z.le_gt_cases (value a - value o)
                (value (S754_finite false mr er))) as [Hle | Hgt]; [exact Hle |].
    assert (Hno : flt a t = false)
      by (apply (fadd_not_above a o mr er Va Fa Vo Fo Hcr Her); lia).
    congruence. }
  (* the normalised position *)
  assert (Hu : at_most 1 (uniform.imap_ (uniform.make low high requested name) v)).
  { unfold uniform.imap_. cbn [uniform.make uniform.offset_ uniform.range_].
    fold o h a. rewrite Hr.
    destruct (canonical_bounds mr er Hcr) as (Her0 & _).
    destruct (fsub_at_most a o mr er Va Fa Vo Fo Hcr Her Hoa Har)
      as [[s ->] | (m & e & -> & He & Hv)].
    - exact I.
    - apply fdiv_at_most_one; assumption. }
  exact (floor_of_scaled_at_most_one requested _ Hreq Hu).
Qed.

(** Every double that is not NaN has a bin. *)
Lemma uniform_index_in_range (v : double) :
  valid_binary prec emax v = true -> isnan v = false ->
  exists i,
    uniform.index (uniform.make low high requested name) v = Ret i /\
    0 <= i < uniform.nbins (uniform.make low high requested name).
Proof.
  intros Vv Nv.
  assert (Hmax : requested + 2 <= size_max)
    by (unfold size_max, size_bits; lia).
  destruct (flt v (uniform.min_ (uniform.make low high requested name)))
    eqn:Hmin.
  { apply uniform_sentinel_index_in_range; [lia | lia | left; exact Hmin]. }
  destruct (fge v (uniform.max_ (uniform.make low high requested name)))
    eqn:Hhi.
  { apply uniform_sentinel_index_in_range; [lia | lia | right; exact Hhi]. }
  destruct (uniform_interior_floor v Vv Nv Hmin Hhi) as (k & Hk & Hrange').
  destruct (uniform_interior_index_in_range low high requested name v k
              (proj1 Hreq) Hmax Hmin Hhi Hk Hrange') as [Hidx Hbins].
  exists (k + 1). split; assumption.
Qed.

End UniformInterior.

(** ** From the dimensions to an accepted call *)

Lemma monotonic_invertible_identity : monotonic_invertible detail.identity.
Proof. repeat split; intros; try assumption; reflexivity. Qed.

(** A coordinate that its dimension takes has a bin there. *)
Lemma taken_indexed (d : dimension) (v : double) :
  taken d v -> isnan v = false ->
  exists i, dim_index d v = Ret i /\ 0 <= i < dim_nbins d.
Proof.
  intros [[Hg Hv] | [Hb | [Hu Vv]]] Nv.
  - destruct Hg as (edges & name & g & -> & Hmade & Hasc & Hsize).
    destruct (general_index_in_range _ _ _ v Hmade Hasc Hsize Nv Hv)
      as (i & a & b & Hidx & Hi & _).
    exists (Z.of_nat i). split; [exact Hidx | exact Hi].
  - destruct Hb as (T & low & high & requested & name & -> & Hreq & Hne & Hside).
    exact (@uniform_sentinel_index_in_range T low high requested name v
             Hreq Hne Hside).
  - destruct Hu as (T & low & high & requested & name & -> & HT & Hlow & Hhigh
                    & Horder & Hrange & Hreq).
    exact (@uniform_index_in_range T low high requested name HT Hlow Hhigh
             Horder Hrange Hreq v Vv Nv).
Qed.

Lemma taken_dimensions_indexed (dims : list dimension) (args : list double) :
  Forall2 taken dims args -> no_nan args ->
  exists idxs, indexed_in_range dims args idxs.
Proof.
  induction 1 as [| d v ds vs Hd _ IH]; intros Hnan.
  - exists []. constructor.
  - apply Forall_cons in Hnan as [Nv Htail].
    destruct (IH Htail) as [idxs Hidxs].
    destruct (taken_indexed d v Hd Nv) as (i & Hi).
    exists (i :: idxs). constructor; [exact Hi | exact Hidxs].
Qed.

(** On a histogram with one slot per bin, whose number of bins fits
    [size_t], a call with coordinates that the dimensions take returns
    [true], at the offset of their bins. *)
Lemma fill_taken_returns (h : histogram.t) (w : double) (args : list double) :
  allocated h ->
  product (dim_nbins <$> histogram.dims h) <= size_max ->
  Forall2 taken (histogram.dims h) args ->
  no_nan args ->
  exists (idxs : list Z) (h' : histogram.t),
    indexed_in_range (histogram.dims h) args idxs /\
    histogram_impl.index (histogram.dims h) args
      = Ret (offset_sum idxs (histogram.dims h)) /\
    0 <= offset_sum idxs (histogram.dims h)
      < histogram_impl.size (histogram.dims h) /\
    histogram.fill_with_weight h w args = (h', Ret true).
Proof.
  intros Halloc Hfit Htaken Hnan.
  destruct (taken_dimensions_indexed _ _ Htaken Hnan) as [idxs Hidxs].
  destruct (fill_within_bins_returns h w args idxs Halloc Hfit Hnan Hidxs)
    as (h' & Hidx & Hoff & Hfill).
  exists idxs, h'. repeat split; try assumption; apply Hoff.
Qed.

Lemma uniform_dimensions_take (dims : list dimension) (args : list double) :
  Forall uniform_dimension dims ->
  length args = length dims ->
  Forall (fun v => valid_binary prec emax v = true) args ->
  Forall2 taken dims args.
Proof.
  intros Hdims. revert args.
  induction Hdims as [| d ds Hd _ IH]; intros [| v vs] Hlen Hargs;
    try discriminate.
  - constructor.
  - apply Forall_cons in Hargs as [Hv Htail].
    constructor.
    + right. right. split; assumption.
    + apply IH; [cbn in Hlen; lia | exact Htail].
Qed.

(** ** Coordinates without NaN are accepted *)



(** ** Indices of the equispaced scheme are bins *)


